(** * db2gpkg: export engine and database helpers

    A shallow embedding of [db_utils.py] and [export_engine.py] of the
    PG2GPKG plugin, with the properties of its specification stated and
    proved over the embedding.

    Conventions of the embedding:
    - a Python [str] is a [string]; the case and whitespace functions act
      on the ASCII range (outside it a character is neither a letter nor
      white space);
    - a Python [bytes] is a [list byte];
    - a [dict] used as a map is a [gmap]; a [dict] that is iterated in
      insertion order (the selection) is an association list;
    - library calls whose result depends on the outside world (the XML
      parser and serialiser, the archive and inflate decoders, the vector
      writer, the database) are parameters of the sections that use them. *)

From Stdlib Require Import Strings.String Strings.Ascii Strings.Byte.
From Stdlib Require Import ZArith NArith Lia List Bool DecimalString.
From stdpp Require Import base gmap strings list fin_maps.
Import ListNotations.

Local Open Scope string_scope.

(** ** Python string primitives *)

Module Py.

(** [c.lower()] on one character. *)
Definition lower_ascii (c : ascii) : ascii :=
  let n := N_of_ascii c in
  if ((65 <=? n) && (n <=? 90))%N then ascii_of_N (n + 32) else c.

(** [s.lower()] *)
Fixpoint lower (s : string) : string :=
  match s with
  | EmptyString => EmptyString
  | String c s' => String (lower_ascii c) (lower s')
  end.

(** [c.isspace()]: tab, line feed, vertical tab, form feed, carriage
    return, the four separators 28..31 and the blank. *)
Definition is_space (c : ascii) : bool :=
  let n := N_of_ascii c in
  (((9 <=? n) && (n <=? 13)) || ((28 <=? n) && (n <=? 32)))%N.

(** [s.lstrip()] *)
Fixpoint lstrip (s : string) : string :=
  match s with
  | EmptyString => EmptyString
  | String c s' => if is_space c then lstrip s' else s
  end.

(** [s.rstrip()] *)
Fixpoint rstrip (s : string) : string :=
  match s with
  | EmptyString => EmptyString
  | String c s' =>
      match rstrip s' with
      | EmptyString => if is_space c then EmptyString else String c EmptyString
      | r => String c r
      end
  end.

(** [s.strip()] *)
Definition strip (s : string) : string := rstrip (lstrip s).

(** [s.startswith(p)] *)
Definition startswith (s p : string) : bool := String.prefix p s.

(** [s.endswith(p)] *)
Fixpoint endswith (s p : string) : bool :=
  if String.eqb s p then true
  else match s with
       | EmptyString => false
       | String _ s' => endswith s' p
       end.

(** [p in s] *)
Fixpoint contains (s p : string) : bool :=
  if String.prefix p s then true
  else match s with
       | EmptyString => false
       | String _ s' => contains s' p
       end.

(** [s[:-n]] for [n > 0] *)
Definition drop_last (n : nat) (s : string) : string :=
  String.substring 0 (String.length s - n) s.

(** [s[:n]] *)
Definition take (n : nat) (s : string) : string :=
  String.substring 0 n s.

(** Truth value of a string: the empty string is false. *)
Definition truthy (s : string) : bool :=
  match s with EmptyString => false | _ => true end.

(** Values that reach [normalize_sslmode] from the settings store. *)
Inductive value : Type :=
| None_ : value
| Str : string -> value
| Int : Z -> value.

(** [str(v)] for a value that is not [None]. *)
Definition str (v : value) : string :=
  match v with
  | None_ => "None"
  | Str s => s
  | Int z => NilZero.string_of_int (Z.to_int z)
  end.

End Py.

(** ** db_utils.py: normalize_sslmode *)

Definition sslmode_mapping : gmap string string :=
  list_to_map
    [ ("SslPrefer", "prefer"); ("SslDisable", "disable"); ("SslAllow", "allow");
      ("SslRequire", "require"); ("SslVerifyCa", "verify-ca");
      ("SslVerifyFull", "verify-full");
      ("0", "prefer"); ("1", "disable"); ("2", "allow");
      ("3", "require"); ("4", "verify-ca"); ("5", "verify-full") ].

Definition sslmode_valid : list string :=
  [ "prefer"; "disable"; "allow"; "require"; "verify-ca"; "verify-full" ].

Definition str_in (s : string) (l : list string) : bool :=
  existsb (String.eqb s) l.

Definition normalize_sslmode (value : Py.value) : string :=
  match value with
  | Py.None_ => "prefer"
  | _ =>
      let s := Py.strip (Py.str value) in
      match sslmode_mapping !! s with
      | Some m => m
      | None => if str_in (Py.lower s) sslmode_valid then Py.lower s else "prefer"
      end
  end.

(** ** export_engine.py: the file name given to an exported project *)

(** Lines 367-371 of [ExportWorker.run]. *)
Definition project_file_name (pn : string) : string :=
  if Py.endswith (Py.lower pn) ".qgz" then Py.drop_last 4 pn +:+ ".qgs"
  else if negb (Py.endswith (Py.lower pn) ".qgs") then pn +:+ ".qgs"
  else pn.

(** ** db_utils.py: _extract_qgs_xml *)

Global Instance byte_eq_dec : EqDecision byte := Byte.byte_eq_dec.

(** What a cell of the payload column holds once fetched: text, a byte
    string, or something else (a [dict] for a JSON column, a number, ...). *)
Inductive Payload : Type :=
| RawStr : string -> Payload
| RawBytes : list byte -> Payload
| RawOther : Payload.

(** The decoders the extractor applies to the payload itself. *)
Inductive Decoder : Type := ZipArchive | Inflate | Utf8.

(** [b'PK\x03\x04'] *)
Definition zip_signature : list byte := [x50; x4b; x03; x04].

(** [_is_qgs], the local function of [_extract_qgs_xml]. *)
Definition _is_qgs (text : string) : bool :=
  let s := Py.strip text in
  Py.startswith s "<?xml" || Py.startswith s "<qgis".

(** [qgs[0] if qgs else (zf.namelist()[0] if zf.namelist() else None)] *)
Definition zip_target (names : list string) : option string :=
  match List.filter (fun f => Py.endswith (Py.lower f) ".qgs") names with
  | q :: _ => Some q
  | [] => match names with
          | n :: _ => Some n
          | [] => None
          end
  end.

Section Extractor.

(** [zipfile.ZipFile(io.BytesIO(raw)).namelist()]; [None] when opening
    the archive raises. *)
Variable zip_namelist : list byte -> option (list string).
(** [zf.read(target)]; [None] when reading the member raises. *)
Variable zip_read : list byte -> string -> option (list byte).
(** [zlib.decompress(raw)]; [None] when it raises. *)
Variable zlib_decompress : list byte -> option (list byte).
(** [b.decode("utf-8")]; [None] when it raises. *)
Variable decode_utf8 : list byte -> option string.

Definition accept (text : string) : option string :=
  if _is_qgs text then Some text else None.

(** Body of the [try] of the ZIP branch; [None] when it falls through,
    by an exception or because no text was accepted. *)
Definition try_zip (raw : list byte) : option string :=
  names ← zip_namelist raw;
  target ← zip_target names;
  if Py.truthy target
  then (member ← zip_read raw target; text ← decode_utf8 member; accept text)
  else None.

Definition try_zlib (raw : list byte) : option string :=
  data ← zlib_decompress raw; text ← decode_utf8 data; accept text.

Definition try_plain (raw : list byte) : option string :=
  text ← decode_utf8 raw; accept text.

(** One guarded attempt followed by the rest of the function: the
    result, and the decoders that were applied to the payload, in
    order. *)
Definition stage (guard : bool) (d : Decoder) (r : option string)
    (rest : option string * list Decoder) : option string * list Decoder :=
  if guard then
    match r with
    | Some text => (Some text, [d])
    | None => (rest.1, d :: rest.2)
    end
  else rest.

Definition extract_bytes (raw : list byte) : option string * list Decoder :=
  stage (bool_decide (firstn 4 raw = zip_signature)) ZipArchive (try_zip raw)
    (stage (bool_decide (firstn 1 raw = [x78])) Inflate (try_zlib raw)
       (stage true Utf8 (try_plain raw)
          (stage true Inflate (try_zlib raw) (None, [])))).

Definition _extract_qgs_xml (raw : Payload) : option string * list Decoder :=
  match raw with
  | RawStr text =>
      let s := Py.strip text in
      (if Py.startswith s "<?xml" || Py.startswith s "<qgis"
       then Some text else None, [])
  | RawOther => (None, [])
  | RawBytes b => extract_bytes b
  end.

End Extractor.

(** ** The fragment of [re] used by the rewriter

    Every pattern of [rewrite_qgis_project_datasources] is a sequence of
    literals and greedy repetitions of a character class, some of them
    capturing.  [re.search] is leftmost, and a repetition gives characters
    back when the rest of the pattern fails. *)

Module Re.

Inductive piece : Type :=
| Lit : string -> piece                  (* literal text *)
| Star : (ascii -> bool) -> piece        (* a class, repeated, greedy *)
| GroupStar : (ascii -> bool) -> piece   (* the same, capturing *)
| GroupPlus : (ascii -> bool) -> piece.  (* at least once, capturing *)

Definition pattern : Type := list piece.

(** The rest of [s] after the literal [l], if [s] starts with it. *)
Fixpoint after_literal (l s : string) : option string :=
  match l, s with
  | EmptyString, _ => Some s
  | String a l', String b s' => if Ascii.eqb a b then after_literal l' s' else None
  | String _ _, EmptyString => None
  end.

(** Greedy repetition with backtracking: consume the longest run of
    [cls] for which the continuation [k] succeeds.  [taken] is what
    has been consumed so far. *)
Fixpoint repeat_class {R : Type} (cls : ascii -> bool) (taken s : string)
    (k : string -> string -> option R) : option R :=
  match s with
  | String c s' =>
      if cls c then
        match repeat_class cls (taken +:+ String c EmptyString) s' k with
        | Some r => Some r
        | None => k taken s
        end
      else k taken s
  | EmptyString => k taken s
  end.

(** Match [p] at the start of [s]; the captured groups, in order. *)
Fixpoint match_here (p : pattern) (s : string) : option (list string) :=
  match p with
  | [] => Some []
  | Lit l :: p' =>
      match after_literal l s with
      | Some s' => match_here p' s'
      | None => None
      end
  | Star cls :: p' =>
      repeat_class cls EmptyString s (fun _ rest => match_here p' rest)
  | GroupStar cls :: p' =>
      repeat_class cls EmptyString s
        (fun g rest => cons g <$> match_here p' rest)
  | GroupPlus cls :: p' =>
      repeat_class cls EmptyString s
        (fun g rest => if Py.truthy g then cons g <$> match_here p' rest else None)
  end.

(** [re.search(p, s)]: the groups of the leftmost match. *)
Fixpoint search (p : pattern) (s : string) : option (list string) :=
  match match_here p s with
  | Some gs => Some gs
  | None => match s with
            | EmptyString => None
            | String _ s' => search p s'
            end
  end.

Definition not_char (q : ascii) (c : ascii) : bool := negb (Ascii.eqb c q).

End Re.

Definition squote : ascii := ascii_of_nat 39.
Definition dquote : ascii := ascii_of_nat 34.
Definition lit_then (l : string) (q : ascii) : Re.piece :=
  Re.Lit (l +:+ String q EmptyString).
Definition lit_char (q : ascii) : Re.piece := Re.Lit (String q EmptyString).

(** The three schema patterns, in the order of the source: the name in
    single quotes, the name in double quotes, a run of non-blank
    characters. *)
Definition schema_patterns : list Re.pattern :=
  [ [ lit_then "schema=" squote; Re.GroupStar (Re.not_char squote); lit_char squote ];
    [ lit_then "schema=" dquote; Re.GroupStar (Re.not_char dquote); lit_char dquote ];
    [ Re.Lit "schema="; Re.GroupPlus (fun c => negb (Py.is_space c)) ] ].

(** The four table patterns, in the order of the source. *)
Definition table_patterns : list Re.pattern :=
  [ [ lit_then "table=" dquote; Re.GroupStar (Re.not_char dquote); lit_char dquote;
      Re.Star (fun c => Ascii.eqb c "."%char || Py.is_space c);
      lit_char dquote; Re.GroupStar (Re.not_char dquote); lit_char dquote ];
    [ lit_then "table=" squote; Re.GroupStar (Re.not_char squote);
      Re.Lit (String squote (String "."%char (String squote EmptyString)));
      Re.GroupStar (Re.not_char squote); lit_char squote ];
    [ lit_then "table=" dquote; Re.GroupStar (Re.not_char dquote); lit_char dquote ];
    [ lit_then "table=" squote; Re.GroupStar (Re.not_char squote); lit_char squote ] ].

(** [for pat in pats: m = re.search(pat, text); if m: ...; break] *)
Fixpoint first_match (pats : list Re.pattern) (text : string) : option (list string) :=
  match pats with
  | [] => None
  | p :: pats' =>
      match Re.search p text with
      | Some gs => Some gs
      | None => first_match pats' text
      end
  end.

Definition opt_truthy (o : option string) : bool :=
  match o with Some s => Py.truthy s | None => false end.

(** Lines 143-167: the schema and table names read from a data source. *)
Definition parse_datasource (ds_text : string) : option string * option string :=
  let schema_name :=
    match first_match schema_patterns ds_text with
    | Some (g :: _) => Some g
    | _ => None
    end in
  match first_match table_patterns ds_text with
  | Some [g1; g2] =>
      (if opt_truthy schema_name then schema_name else Some g1, Some g2)
  | Some (g1 :: _) => (schema_name, Some g1)
  | _ => (schema_name, None)
  end.

(** ** The element tree of [xml.etree.ElementTree] *)

#[warning="-register-all"] Inductive Element : Type :=
| Elem (tag : string) (attrib : list (string * string)) (text : option string)
       (children : list Element) (tail : option string).

Definition e_tag (e : Element) : string := let 'Elem t _ _ _ _ := e in t.
Definition e_attrib (e : Element) : list (string * string) := let 'Elem _ a _ _ _ := e in a.
Definition e_text (e : Element) : option string := let 'Elem _ _ x _ _ := e in x.
Definition e_children (e : Element) : list Element := let 'Elem _ _ _ cs _ := e in cs.
Definition e_tail (e : Element) : option string := let 'Elem _ _ _ _ tl := e in tl.

Definition set_text (x : string) (e : Element) : Element :=
  let 'Elem t a _ cs tl := e in Elem t a (Some x) cs tl.

(** [elem.find(tag)]: the first child with that tag. *)
Definition find_child (tag : string) (cs : list Element) : option Element :=
  List.find (fun c => String.eqb (e_tag c) tag) cs.

(** [elem.find(tag).text = x], on the list of children. *)
Fixpoint set_child_text (tag x : string) (cs : list Element) : list Element :=
  match cs with
  | [] => []
  | c :: cs' =>
      if String.eqb (e_tag c) tag then set_text x c :: cs'
      else c :: set_child_text tag x cs'
  end.

(** [attrib.get(k, d)] *)
Fixpoint attr_get (a : list (string * string)) (k d : string) : string :=
  match a with
  | [] => d
  | (k', v) :: a' => if String.eqb k' k then v else attr_get a' k d
  end.

(** [attrib[k] = v]: in place when the key is there, else at the end. *)
Fixpoint attr_set (a : list (string * string)) (k v : string) : list (string * string) :=
  match a with
  | [] => [(k, v)]
  | (k', v') :: a' => if String.eqb k' k then (k', v) :: a' else (k', v') :: attr_set a' k v
  end.

Definition attr_has (a : list (string * string)) (k : string) : bool :=
  existsb (fun kv => String.eqb kv.1 k) a.

(** [attrib.setdefault(k, v)] *)
Definition attr_setdefault (a : list (string * string)) (k v : string) : list (string * string) :=
  if attr_has a k then a else (a ++ [(k, v)])%list.

(** ** export_engine.py: rewrite_qgis_project_datasources *)

Inductive Level : Type := Info | Warning.

Definition LogEntry : Type := Level * string.

Definition show_nat (n : nat) : string := NilZero.string_of_uint (Nat.to_uint n).

(** The counters of the layer loop and the messages logged so far. *)
Record RwState : Type := mkRwState {
  rewritten : nat;
  skipped : nat;
  messages : list LogEntry
}.

Definition rw_skip (msg : string) (st : RwState) : RwState :=
  mkRwState (rewritten st) (S (skipped st)) (messages st ++ [(Warning, msg)])%list.

Definition rw_done (msg : string) (st : RwState) : RwState :=
  mkRwState (S (rewritten st)) (skipped st) (messages st ++ [(Info, msg)])%list.

(** Line 137: the layer is backed by the database. *)
Definition is_pg (prov_text : option string) (ds_text : string) : bool :=
  match prov_text with Some p => String.eqb p "postgres" | None => false end
  || Py.contains ds_text "dbname=" || Py.contains ds_text "service=".

Section Assignments.

(** [schema_gpkg_map]: container path per schema. *)
Variable schema_gpkg_map : gmap string string.
(** [table_gpkg_map]: container path per (schema, table). *)
Variable table_gpkg_map : gmap (string * string) string.
(** [layer_prefix_map]: [None], or the layer-name prefix per schema. *)
Variable layer_prefix_map : option (gmap string string).

(** Lines 175-184: the container path, [None] when no assignment
    applies, and the layer name inside the container. *)
Definition resolve_gpkg (schema_name table_name : string) : option string * string :=
  match table_gpkg_map !! (schema_name, table_name) with
  | Some p => (Some p, table_name)
  | None =>
      match schema_gpkg_map !! schema_name with
      | Some p =>
          (Some p, match layer_prefix_map with
              | Some pm =>
                  match pm !! schema_name with
                  | Some pre => pre +:+ table_name
                  | None => table_name
                  end
              | None => table_name
              end)
      | None => (None, table_name)
      end
  end.

(** Body of the layer loop on the children of one [maplayer] element:
    the new data source when the layer is rewritten, and the state. *)
Definition visit_maplayer (cs : list Element) (st : RwState) : option string * RwState :=
  match find_child "provider" cs, find_child "datasource" cs with
  | Some prov, Some ds =>
      match e_text ds with
      | None => (None, st)
      | Some ds_text =>
          if negb (is_pg (e_text prov) ds_text) then (None, st)
          else
            match parse_datasource ds_text with
            | (Some schema_name, Some table_name) =>
                if Py.truthy schema_name && Py.truthy table_name then
                  match resolve_gpkg schema_name table_name with
                  | (Some gpkg_path, gpkg_layer_name) =>
                      if Py.truthy gpkg_path then
                        let new_ds := gpkg_path +:+ "|layername=" +:+ gpkg_layer_name in
                        (Some new_ds,
                         rw_done ("Rewrite: " +:+ schema_name +:+ "." +:+ table_name
                                  +:+ " → " +:+ new_ds) st)
                      else
                        (None, rw_skip ("Rewrite skip: no GPKG for " +:+ schema_name
                                        +:+ "." +:+ table_name) st)
                  | (None, _) =>
                      (None, rw_skip ("Rewrite skip: no GPKG for " +:+ schema_name
                                      +:+ "." +:+ table_name) st)
                  end
                else (None, rw_skip ("Rewrite skip: can't parse: " +:+ Py.take 120 ds_text) st)
            | _ => (None, rw_skip ("Rewrite skip: can't parse: " +:+ Py.take 120 ds_text) st)
            end
      end
  | _, _ => (None, st)
  end.

(** [ds.text = new_ds; prov.text = "ogr"] *)
Definition apply_rewrite (upd : option string) (cs : list Element) : list Element :=
  match upd with
  | Some new_ds => set_child_text "provider" "ogr" (set_child_text "datasource" new_ds cs)
  | None => cs
  end.

(** [for layer_elem in root.iter("maplayer")]: the walk in document
    order.  The body only assigns the text of two children of the
    element it visits, and the walk never changes the text of an element
    it has yet to visit, so the assignment is applied once the walk has
    gone through the children. *)
Fixpoint rewrite_layers (e : Element) (st : RwState) : Element * RwState :=
  match e with
  | Elem t a x cs tl =>
      let '(upd, st1) :=
        if String.eqb t "maplayer" then visit_maplayer cs st else (None, st) in
      let '(cs', st2) :=
        (fix walk (l : list Element) (s : RwState) : list Element * RwState :=
           match l with
           | [] => ([], s)
           | c :: l' =>
               let '(c', s1) := rewrite_layers c s in
               let '(r, s2) := walk l' s1 in
               (c' :: r, s2)
           end) cs st1 in
      (Elem t a x (apply_rewrite upd cs') tl, st2)
  end.

End Assignments.

(** Lines 204-210: every child tagged [projectstorage] is removed from
    its parent. *)
Fixpoint remove_projectstorage (e : Element) : Element :=
  match e with
  | Elem t a x cs tl =>
      Elem t a x
        ((fix keep (l : list Element) : list Element :=
            match l with
            | [] => []
            | c :: l' =>
                if String.eqb (e_tag c) "projectstorage" then keep l'
                else remove_projectstorage c :: keep l'
            end) cs) tl
  end.

(** Lines 212-213. *)
Definition default_projectname (root : Element) : Element :=
  match root with
  | Elem t a x cs tl =>
      if String.eqb t "qgis" then Elem t (attr_setdefault a "projectname" "") x cs tl
      else root
  end.

(** Lines 215-218. *)
Fixpoint blank_home_paths (e : Element) : Element :=
  match e with
  | Elem t a x cs tl =>
      let a' :=
        if String.eqb t "homePath" then
          let pv := attr_get a "path" "" in
          if Py.contains (Py.lower pv) "postgresql" || Py.contains (Py.lower pv) "dbname="
          then attr_set a "path" "" else a
        else a in
      Elem t a' x (List.map blank_home_paths cs) tl
  end.

(** The function on the parsed tree: the tree handed to the serialiser
    and the messages logged. *)
Definition rewrite_tree (root : Element)
    (schema_gpkg_map : option (gmap string string))
    (table_gpkg_map : option (gmap (string * string) string))
    (layer_prefix_map : option (gmap string string)) : Element * list LogEntry :=
  let smap := default ∅ schema_gpkg_map in
  let tmap := default ∅ table_gpkg_map in
  let '(root1, st) :=
    rewrite_layers smap tmap layer_prefix_map root (mkRwState 0 0 []) in
  let summary :=
    "Rewrite: " +:+ show_nat (rewritten st) +:+ " rewritten, "
    +:+ show_nat (skipped st) +:+ " skipped" in
  (blank_home_paths (default_projectname (remove_projectstorage root1)),
   (messages st ++ [(Info, summary)])%list).

Section Rewriter.

(** [ET.fromstring]: the root element, or the text of the
    [ET.ParseError] it raises. *)
Variable ET_fromstring : string -> string + Element.
(** [ET.tostring(root, encoding="unicode", xml_declaration=True)] *)
Variable ET_tostring : Element -> string.

Definition rewrite_qgis_project_datasources (xml_content : string)
    (schema_gpkg_map : option (gmap string string))
    (table_gpkg_map : option (gmap (string * string) string))
    (layer_prefix_map : option (gmap string string)) : string * list LogEntry :=
  match ET_fromstring xml_content with
  | inl e => (xml_content, [(Warning, "XML parse error: " +:+ e)])
  | inr root =>
      let '(root', log) :=
        rewrite_tree root schema_gpkg_map table_gpkg_map layer_prefix_map in
      (ET_tostring root', log)
  end.

End Rewriter.

(** ** export_engine.py: ExportWorker *)

(** [os.path.join(a, b)] of [posixpath]. *)
Definition os_path_join (a b : string) : string :=
  if Py.startswith b "/" then b
  else if negb (Py.truthy a) || Py.endswith a "/" then a +:+ b
  else a +:+ "/" +:+ b.

(** One entry of the selection: the dict built by [get_tables_and_views]. *)
Record TableInfo : Type := mkTableInfo {
  table : string;
  geom_column : option string;
  geom_type : option string;
  srid : Z;
  table_type : string
}.

(** [selected]: schema name to the list of its relations, in insertion
    order. *)
Definition Selection : Type := list (string * list TableInfo).

(** [sum(len(v) for v in self.selected.values())] *)
Definition total_relations (sel : Selection) : nat :=
  list_sum (List.map (fun kv => length kv.2) sel).

(** A project row returned by [get_qgis_projects_in_db]. *)
Record Project : Type := mkProject {
  proj_schema : string;
  proj_name : string;
  proj_xml_content : string
}.

(** The dict emitted with [export_finished]. *)
Record ExportResult : Type := mkExportResult {
  res_ok_count : nat;
  res_errors : list string;
  res_gpkg_count : nat;
  res_exported_projects : list string;
  res_mode : nat;
  res_total : nat;
  res_cancelled : bool
}.

Inductive WriteAction : Type := CreateOrOverwriteLayer | CreateOrOverwriteFile.

(** What the worker does to, and reads from, its environment. *)
Inductive Event : Type :=
| EvCancelRead (seen : bool)                      (* a read of [self._cancelled] *)
| EvProgress (step total : nat) (label : string)  (* [progress_updated.emit] *)
| EvExists (path : string) (found : bool)         (* [os.path.exists] before an action *)
| EvRemove (path : string)                        (* [os.remove] *)
| EvMakedirs (path : string)                      (* [os.makedirs] *)
| EvCall (schema : string) (t : TableInfo) (gpkg_path : string)
         (layer_name_override : option string)    (* [export_table_to_gpkg] entered *)
| EvWriteLayer (schema : string) (t : TableInfo) (gpkg_path layer_name : string)
               (action : WriteAction)             (* [writeAsVectorFormatV3] *)
| EvReturn (ok : bool) (msg : string)             (* [export_table_to_gpkg] returned *)
| EvLog (level : Level) (msg : string)            (* [QgsMessageLog.logMessage] *)
| EvConnect (ok : bool)                           (* [pg_connect] for the projects *)
| EvWriteFile (path content : string) (ok : bool) (* [open(pp, "w")] and [f.write] *)
| EvClose                                         (* [conn.close()] *)
| EvFinished (result : ExportResult).             (* [export_finished.emit] *)

(** The worker's view of the world: what has happened so far and the
    files that exist. *)
Record World : Type := mkWorld {
  trace : list Event;
  files : gset string
}.

(** The local variables of [run]. *)
Record Locals : Type := mkLocals {
  errors : list string;
  ok_count : nat;
  gpkg_count : nat;
  schema_gpkg_map : gmap string string;
  table_gpkg_map : gmap (string * string) string;
  layer_prefix_map : option (gmap string string);
  exported_projects : list string;
  step : nat
}.

Definition M (A : Type) : Type := World -> A * World.

Definition ret {A : Type} (a : A) : M A := fun w => (a, w).

Definition bind {A B : Type} (m : M A) (k : A -> M B) : M B :=
  fun w => let '(a, w') := m w in k a w'.

Notation "'let*' x ':=' m 'in' k" := (bind m (fun x => k))
  (at level 10, x binder, k at level 200).

Definition emit (e : Event) : M unit :=
  fun w => (tt, mkWorld (trace w ++ [e])%list (files w)).

(** [os.path.exists(p)] guarding an action. *)
Definition path_exists (p : string) : M bool :=
  fun w => let b := bool_decide (p ∈ files w) in
           (b, mkWorld (trace w ++ [EvExists p b])%list (files w)).

(** [os.remove(p)]; it is taken to succeed. *)
Definition os_remove (p : string) : M unit :=
  fun w => (tt, mkWorld (trace w ++ [EvRemove p])%list (files w ∖ {[p]})).

(** [os.makedirs(p, exist_ok=True)]; it is taken to succeed. *)
Definition os_makedirs (p : string) : M unit := emit (EvMakedirs p).

(** [if os.path.exists(p): os.remove(p)] *)
Definition remove_if_exists (p : string) : M unit :=
  let* ex := path_exists p in
  if ex then os_remove p else ret tt.

Definition log_message (msg : string) (level : Level) : M unit :=
  emit (EvLog level msg).

(** [for x in l: if self._cancelled: break; body], given how the flag is
    read. *)
Fixpoint for_unless_cancelled {A L : Type} (read_cancelled : M bool)
    (body : A -> L -> M L) (l : list A) (loc : L) : M L :=
  match l with
  | [] => ret loc
  | x :: l' =>
      let* c := read_cancelled in
      if c then ret loc
      else let* loc' := body x loc in
           for_unless_cancelled read_cancelled body l' loc'
  end.

Section Worker.

(** *** The environment of one run *)

(** [request_cancel]: [Some n] when the other thread sets the flag once
    the worker's trace holds [n] events, [None] when it never does.  The
    flag is never reset. *)
Variable cancel_at : option nat.
(** [QgsVectorLayer(uri, table_name, "postgres").isValid()]; the
    connection settings and the primary key found by the catalog query
    only enter the URI. *)
Variable layer_is_valid : string -> TableInfo -> bool.
(** [writeAsVectorFormatV3]: [None] for [NoError], else the message. *)
Variable write_layer : string -> TableInfo -> string -> string -> option string.
(** [pg_connect] of the project phase: the text of the exception, if
    it raises. *)
Variable connect_error : option string.
(** [get_qgis_projects_in_db(conn)]: the rows, or the text of the
    exception it raises. *)
Variable projects_in_db : string + list Project.
(** Writing a project file: the text of the exception, if it raises. *)
Variable write_error : string -> string -> option string.
Variable ET_fromstring : string -> string + Element.
Variable ET_tostring : Element -> string.

(** The constructor arguments. *)
Variable selected : Selection.
(** [mode]: 0, 1 or 2 from the dialog; with any other value [run] takes
    none of the three branches. *)
Variable mode : nat.
Variable output_dir : string.
(** [single_path]: the dialog computes it in Single mode; it is not
    read in the other modes, where the empty string stands for [None]. *)
Variable single_path : string.
Variable do_projects : bool.

(** A read of [self._cancelled]. *)
Definition read_cancelled : M bool :=
  fun w =>
    let b := match cancel_at with
             | Some n => bool_decide (n ≤ length (trace w))%nat
             | None => false
             end in
    (b, mkWorld (trace w ++ [EvCancelRead b])%list (files w)).

(** *** export_table_to_gpkg *)

Definition export_table_to_gpkg (schema : string) (table_info : TableInfo)
    (gpkg_path : string) (layer_name_override : option string) : M (bool * string) :=
  let table_name := table table_info in
  let* _ := emit (EvCall schema table_info gpkg_path layer_name_override) in
  let* r :=
    if negb (layer_is_valid schema table_info) then
      ret (false, "Invalid layer: " +:+ schema +:+ "." +:+ table_name)
    else
      let layer_name :=
        match layer_name_override with
        | Some o => if Py.truthy o then o else table_name
        | None => table_name
        end in
      let* ex := path_exists gpkg_path in
      let action := if ex then CreateOrOverwriteLayer else CreateOrOverwriteFile in
      let* _ := emit (EvWriteLayer schema table_info gpkg_path layer_name action) in
      match write_layer schema table_info gpkg_path layer_name with
      | Some msg =>
          ret (false, "Export error " +:+ schema +:+ "." +:+ table_name +:+ ": " +:+ msg)
      | None =>
          fun w =>
            ((true, "OK: " +:+ schema +:+ "." +:+ table_name +:+ " → " +:+ layer_name),
             mkWorld (trace w) (files w ∪ {[gpkg_path]}))
      end in
  let* _ := emit (EvReturn r.1 r.2) in
  ret r.

(** *** run *)

Definition total : nat := total_relations selected.

(** The lines shared by the three table loops: count the result and
    log the message. *)
Definition record_outcome (ok : bool) (msg : string) (counts_gpkg : bool)
    (key : string * string) (gp : string) (loc : Locals) : M Locals :=
  let loc' :=
    if ok then
      mkLocals (errors loc) (S (ok_count loc))
        (if counts_gpkg then S (gpkg_count loc) else gpkg_count loc)
        (schema_gpkg_map loc)
        (if counts_gpkg then <[key := gp]> (table_gpkg_map loc) else table_gpkg_map loc)
        (layer_prefix_map loc) (exported_projects loc) (step loc)
    else
      mkLocals (errors loc ++ [msg])%list (ok_count loc) (gpkg_count loc)
        (schema_gpkg_map loc) (table_gpkg_map loc)
        (layer_prefix_map loc) (exported_projects loc) (step loc) in
  let* _ := log_message msg (if ok then Info else Warning) in
  ret loc'.

(** [step += 1; self.progress_updated.emit(step, total, f"{schema}.{t['table']}")] *)
Definition next_step (schema : string) (t : TableInfo) (loc : Locals) : M Locals :=
  let loc' :=
    mkLocals (errors loc) (ok_count loc) (gpkg_count loc) (schema_gpkg_map loc)
      (table_gpkg_map loc) (layer_prefix_map loc) (exported_projects loc)
      (S (step loc)) in
  let* _ := emit (EvProgress (step loc') total (schema +:+ "." +:+ table t)) in
  ret loc'.

Definition set_schema_gpkg (schema gp : string) (loc : Locals) : Locals :=
  mkLocals (errors loc) (ok_count loc) (gpkg_count loc)
    (<[schema := gp]> (schema_gpkg_map loc))
    (table_gpkg_map loc) (layer_prefix_map loc) (exported_projects loc) (step loc).

Definition set_gpkg_count (n : nat) (loc : Locals) : Locals :=
  mkLocals (errors loc) (ok_count loc) n (schema_gpkg_map loc)
    (table_gpkg_map loc) (layer_prefix_map loc) (exported_projects loc) (step loc).

Definition set_layer_prefix_map (m : gmap string string) (loc : Locals) : Locals :=
  mkLocals (errors loc) (ok_count loc) (gpkg_count loc) (schema_gpkg_map loc)
    (table_gpkg_map loc) (Some m) (exported_projects loc) (step loc).

(** Mode 0, lines 271-286. *)
Definition per_schema_table (schema gp : string) (t : TableInfo) (loc : Locals) : M Locals :=
  let* loc1 := next_step schema t loc in
  let* r := export_table_to_gpkg schema t gp None in
  record_outcome r.1 r.2 false (schema, table t) gp loc1.

(** Mode 0, lines 263-286. *)
Definition per_schema_schema (item : string * list TableInfo) (loc : Locals) : M Locals :=
  let '(schema, tables) := item in
  let gp := os_path_join output_dir (schema +:+ ".gpkg") in
  let loc1 := set_schema_gpkg schema gp loc in
  let* _ := remove_if_exists gp in
  for_unless_cancelled read_cancelled (per_schema_table schema gp) tables loc1.

(** [sum(1 for gp in schema_gpkg_map.values() if os.path.exists(gp))];
    these reads of the file system are not recorded in the trace. *)
Definition count_existing (m : gmap string string) (w : World) : nat :=
  length (List.filter (fun kv => bool_decide (kv.2 ∈ files w)) (map_to_list m)).

Definition run_per_schema (loc : Locals) : M Locals :=
  let* loc1 := for_unless_cancelled read_cancelled per_schema_schema selected loc in
  fun w => (set_gpkg_count (count_existing (schema_gpkg_map loc1) w) loc1, w).

(** Mode 1, lines 304-321. *)
Definition single_table (multi : bool) (schema : string) (t : TableInfo)
    (loc : Locals) : M Locals :=
  let* loc1 := next_step schema t loc in
  let override := if multi then schema +:+ "__" +:+ table t else table t in
  let* r := export_table_to_gpkg schema t single_path (Some override) in
  record_outcome r.1 r.2 false (schema, table t) single_path loc1.

(** Mode 1, lines 300-321. *)
Definition single_schema (multi : bool) (item : string * list TableInfo)
    (loc : Locals) : M Locals :=
  let '(schema, tables) := item in
  let loc1 := set_schema_gpkg schema single_path loc in
  for_unless_cancelled read_cancelled (single_table multi schema) tables loc1.

Definition run_single (loc : Locals) : M Locals :=
  let schemas := List.map fst selected in
  let* _ := if Py.truthy single_path then remove_if_exists single_path else ret tt in
  let multi := bool_decide (1 < length schemas)%nat in
  let loc0 :=
    if multi
    then set_layer_prefix_map (list_to_map (List.map (fun s => (s, s +:+ "__")) schemas)) loc
    else loc in
  let* loc1 := for_unless_cancelled read_cancelled (single_schema multi) selected loc0 in
  fun w =>
    (set_gpkg_count
       (if Py.truthy single_path && bool_decide (single_path ∈ files w) then 1 else 0)
       loc1, w).

(** Mode 2, lines 334-355. *)
Definition per_table_table (schema schema_dir : string) (t : TableInfo)
    (loc : Locals) : M Locals :=
  let* loc1 := next_step schema t loc in
  let gp := os_path_join schema_dir (table t +:+ ".gpkg") in
  let* _ := remove_if_exists gp in
  let* r := export_table_to_gpkg schema t gp None in
  record_outcome r.1 r.2 true (schema, table t) gp loc1.

(** Mode 2, lines 328-355. *)
Definition per_table_schema (item : string * list TableInfo) (loc : Locals) : M Locals :=
  let '(schema, tables) := item in
  let schema_dir := os_path_join output_dir schema in
  let* _ := os_makedirs schema_dir in
  for_unless_cancelled read_cancelled (per_table_table schema schema_dir) tables loc.

Definition run_per_table (loc : Locals) : M Locals :=
  for_unless_cancelled read_cancelled per_table_schema selected loc.

(** Lines 261-355: the branch of the layout mode. *)
Definition export_relations (loc : Locals) : M Locals :=
  match mode with
  | 0 => run_per_schema loc
  | 1 => run_single loc
  | 2 => run_per_table loc
  | _ => ret loc
  end.

Definition add_error (msg : string) (loc : Locals) : Locals :=
  mkLocals (errors loc ++ [msg])%list (ok_count loc) (gpkg_count loc)
    (schema_gpkg_map loc) (table_gpkg_map loc) (layer_prefix_map loc)
    (exported_projects loc) (step loc).

Definition add_exported_project (pn : string) (loc : Locals) : Locals :=
  mkLocals (errors loc) (ok_count loc) (gpkg_count loc)
    (schema_gpkg_map loc) (table_gpkg_map loc) (layer_prefix_map loc)
    (exported_projects loc ++ [pn])%list (step loc).

Fixpoint log_all (l : list LogEntry) : M unit :=
  match l with
  | [] => ret tt
  | (level, msg) :: l' => let* _ := log_message msg level in log_all l'
  end.

(** Lines 364-391: one project. *)
Definition export_project (proj : Project) (loc : Locals) : M Locals :=
  let pn := project_file_name (proj_name proj) in
  let* _ := emit (EvProgress (step loc) total ("Project: " +:+ pn)) in
  let '(xml, rewrite_log) :=
    rewrite_qgis_project_datasources ET_fromstring ET_tostring (proj_xml_content proj)
      (if bool_decide (mode ≠ 2) then Some (schema_gpkg_map loc) else None)
      (if bool_decide (mode = 2) then Some (table_gpkg_map loc) else None)
      (layer_prefix_map loc) in
  let* _ := log_all rewrite_log in
  let pp := os_path_join output_dir pn in
  match write_error pp xml with
  | None =>
      let* _ := fun w => (tt, mkWorld (trace w ++ [EvWriteFile pp xml true])%list
                                      (files w ∪ {[pp]})) in
      let* _ := log_message ("Project exported: " +:+ pn) Info in
      ret (add_exported_project pn loc)
  | Some e =>
      let* _ := emit (EvWriteFile pp xml false) in
      let* _ := log_message ("Project " +:+ pn +:+ ": " +:+ e) Warning in
      ret (add_error ("Project " +:+ pn +:+ ": " +:+ e) loc)
  end.

(** Lines 357-401. *)
Definition export_projects (loc : Locals) : M Locals :=
  let* go :=
    if do_projects then (let* c := read_cancelled in ret (negb c)) else ret false in
  if go then
    let* _ := emit (EvProgress (step loc) total "QGIS projects...") in
    match connect_error with
    | Some e =>
        let* _ := emit (EvConnect false) in
        let* _ := log_message ("Error connecting for projects: " +:+ e) Warning in
        ret (add_error ("Projects: " +:+ e) loc)
    | None =>
        let* _ := emit (EvConnect true) in
        let* loc1 :=
          match projects_in_db with
          | inl e =>
              let* _ := log_message ("Error connecting for projects: " +:+ e) Warning in
              ret (add_error ("Projects: " +:+ e) loc)
          | inr projects =>
              for_unless_cancelled read_cancelled export_project projects loc
          end in
        let* _ := emit EvClose in
        ret loc1
    end
  else ret loc.

(** Lines 403-411. *)
Definition finish (loc : Locals) : M ExportResult :=
  let* c := read_cancelled in
  let result :=
    mkExportResult (ok_count loc) (errors loc) (gpkg_count loc)
      (exported_projects loc) mode total c in
  let* _ := emit (EvFinished result) in
  ret result.

Definition initial_locals : Locals := mkLocals [] 0 0 ∅ ∅ None [] 0.

Definition run : M ExportResult :=
  let* loc1 := export_relations initial_locals in
  let* loc2 := export_projects loc1 in
  finish loc2.

End Worker.

(** ** Notions used by the statements *)


Definition ends_qgs (name : string) : bool := Py.endswith (Py.lower name) ".qgs".

(** The member [zip_target] picks: the first name ending in ".qgs", or
    the first name when no name ends so. *)
Definition preferred_member (names : list string) (target : string) : Prop :=
  (exists pre post, names = (pre ++ target :: post)%list
                    /\ ends_qgs target = true
                    /\ Forall (fun n => ends_qgs n = false) pre)
  \/ (Forall (fun n => ends_qgs n = false) names /\ head names = Some target).

(** A payload with the archive signature, for the examples. *)
Definition demo_archive : list byte := [x50; x4b; x03; x04; x14; x00].

(** A parser that rejects one text and reads any other as an empty
    [qgis] element, for the examples. *)
Definition demo_fromstring (s : string) : string + Element :=
  if String.eqb s "<qgis>" then inl "no element found: line 1, column 6"
  else inr (Elem "qgis" [] None [] None).

Definition demo_tostring (e : Element) : string := "<" +:+ e_tag e +:+ " />".

(** The layer of the round-trip example and a document around it. *)
Definition demo_datasource : string := "dbname='x' schema='s' table='t'".

Definition demo_layer : Element :=
  Elem "maplayer" [] None
    [ Elem "id" [] (Some "roads_1") [] None;
      Elem "datasource" [] (Some demo_datasource) [] None;
      Elem "provider" [("encoding", "UTF-8")] (Some "postgres") [] None ] None.

(** [within l d]: the element [l] occurs in the tree [d], and no element
    on the way from below [d] down to [l] is tagged [projectstorage]. *)
Inductive within (l : Element) : Element -> Prop :=
| within_here : within l l
| within_child (t : string) (a : list (string * string)) (x : option string)
    (cs : list Element) (tl : option string) (c : Element) :
    In c cs -> e_tag c <> "projectstorage" -> within l c ->
    within l (Elem t a x cs tl).

(** Nothing in [e] is a layer, a storage pointer or a home path: neither
    the layer loop nor the clean-up has anything to do in it. *)
Fixpoint inert (e : Element) : bool :=
  match e with
  | Elem t _ _ cs _ =>
      negb (String.eqb t "maplayer") && negb (String.eqb t "projectstorage")
      && negb (String.eqb t "homePath") && forallb inert cs
  end.

Section LayerImage.

Variable smap : gmap string string.
Variable tmap : gmap (string * string) string.
Variable pmap : option (gmap string string).

(** The new data source of a layer with children [cs], if the layer
    loop rewrites it. *)
Definition layer_update (cs : list Element) : option string :=
  (visit_maplayer smap tmap pmap cs (mkRwState 0 0 [])).1.

(** The tree that [rewrite_layers] returns, without the state. *)
Fixpoint rewrite_layers_tree (e : Element) : Element :=
  match e with
  | Elem t a x cs tl =>
      Elem t a x
        (apply_rewrite (if String.eqb t "maplayer" then layer_update cs else None)
           (List.map rewrite_layers_tree cs)) tl
  end.

(** What a layer of the document has become in the tree handed to the
    serialiser. *)
Definition layer_image (l : Element) : Element :=
  blank_home_paths (remove_projectstorage (rewrite_layers_tree l)).

(** No assignment matches the layer with children [cs]: whatever names
    are read from its data source, neither map has an entry for them. *)
Definition unassigned (cs : list Element) : Prop :=
  forall ds ds_text schema_name table_name,
    find_child "datasource" cs = Some ds -> e_text ds = Some ds_text ->
    parse_datasource ds_text = (Some schema_name, Some table_name) ->
    tmap !! (schema_name, table_name) = None /\ smap !! schema_name = None.

End LayerImage.

(** The children kept by the clean-up. *)
Definition keep : list Element -> list Element :=
  fix keep (l : list Element) : list Element :=
    match l with
    | [] => []
    | c :: l' =>
        if String.eqb (e_tag c) "projectstorage" then keep l'
        else remove_projectstorage c :: keep l'
    end.

(** The text of the first child of [e] tagged [tag]. *)
Definition child_text (tag : string) (e : Element) : option string :=
  match find_child tag (e_children e) with
  | Some c => e_text c
  | None => None
  end.

(** A layer for which the example has no assignment, with a storage
    pointer among its children. *)
Definition demo_other_layer : Element :=
  Elem "maplayer" [] None
    [ Elem "datasource" [] (Some "dbname='x' schema='u' table='v'") [] None;
      Elem "provider" [] (Some "postgres") [] None;
      Elem "projectstorage" [] None [] None ] None.

Definition demo_document : Element :=
  Elem "qgis" [("version", "3.34")] None
    [ Elem "projectlayers" [] None [demo_layer; demo_other_layer] None ] None.

(** ** Observations on a trace *)

(** The step indices of the progress notifications, in order. *)
Definition progress_steps (tr : list Event) : list nat :=
  omap (fun e => match e with EvProgress s _ _ => Some s | _ => None end) tr.

Definition is_call (e : Event) : bool :=
  match e with EvCall _ _ _ _ => true | _ => false end.

Definition is_return (e : Event) : bool :=
  match e with EvReturn _ _ => true | _ => false end.

Definition is_ok_return (e : Event) : bool :=
  match e with EvReturn true _ => true | _ => false end.

Definition is_finished (e : Event) : bool :=
  match e with EvFinished _ => true | _ => false end.

(** The events of the project phase other than its progress
    notifications. *)
Definition is_doc (e : Event) : bool :=
  match e with EvConnect _ | EvWriteFile _ _ _ | EvClose => true | _ => false end.

Definition is_seen (e : Event) : bool :=
  match e with EvCancelRead true => true | _ => false end.

Definition count (p : Event -> bool) (tr : list Event) : nat :=
  length (List.filter p tr).

(** Some read of the flag has found it set. *)
Definition has_seen (tr : list Event) : bool := existsb is_seen tr.

(** No relation is handed to the writer after a read of the flag that
    found it set. *)
Fixpoint quiet_after_seen (tr : list Event) : bool :=
  match tr with
  | [] => true
  | e :: tr' =>
      if is_seen e then forallb (fun e' => negb (is_call e')) tr'
      else quiet_after_seen tr'
  end.

(** On the trace read backwards: every call of the writer comes right
    after a look at its path that found nothing, or after a look that
    found a file and the removal of that file. *)
Fixpoint removed_before_call (rtr : list Event) : bool :=
  match rtr with
  | [] => true
  | EvCall _ _ p _ :: rest =>
      match rest with
      | EvExists p' false :: _ => String.eqb p p'
      | EvRemove p' :: EvExists p'' true :: _ => String.eqb p p' && String.eqb p p''
      | _ => false
      end && removed_before_call rest
  | _ :: rest => removed_before_call rest
  end.

Definition guarded (tr : list Event) : bool := removed_before_call (rev tr).

(** Events that touch none of the counts above. *)
Definition is_silent (e : Event) : bool :=
  match e with
  | EvExists _ _ | EvRemove _ | EvMakedirs _ | EvLog _ _
  | EvConnect _ | EvWriteFile _ _ _ | EvClose => true
  | _ => false
  end.

Section Invariant.

Variable cancel_at : option nat.
Variable selected : Selection.
Variable mode : nat.
Variable output_dir single_path : string.

(** The value of the flag when the trace holds [n] events. *)
Definition flag_at (n : nat) : bool :=
  match cancel_at with
  | Some c => bool_decide (c ≤ n)%nat
  | None => false
  end.

(** The request came before the last event of the trace. *)
Definition late (w : World) : Prop :=
  exists c, cancel_at = Some c /\ (c < length (trace w))%nat.

(** The request, if any, has not come yet. *)
Definition unseen (w : World) : Prop :=
  forall c, cancel_at = Some c -> (length (trace w) <= c)%nat.

(** Single mode: the container and the layer name given to the writer. *)
Definition single_layer_ok (e : Event) : Prop :=
  match e with
  | EvWriteLayer s t p ln _ =>
      p = single_path
      /\ ln = if bool_decide (1 < length selected)%nat
              then s +:+ "__" +:+ table t else table t
  | _ => True
  end.

(** PerTable mode: the container of a relation. *)
Definition per_table_call_ok (e : Event) : Prop :=
  match e with
  | EvCall s t p o =>
      p = os_path_join (os_path_join output_dir s) (table t +:+ ".gpkg") /\ o = None
  | _ => True
  end.

(** What holds of the local variables and the trace between two
    statements of [run], with [n] relations still to go and [j] progress
    notifications of the project phase sent. *)
Record Inv (n j : nat) (loc : Locals) (w : World) : Prop := mkInv {
  inv_progress :
    progress_steps (trace w) = (seq 1 (step loc) ++ repeat (step loc) j)%list;
  inv_calls : count is_call (trace w) = step loc;
  inv_returns : count is_return (trace w) = step loc;
  inv_bound : (step loc + n <= total_relations selected)%nat;
  inv_complete :
    has_seen (trace w) = true \/ (step loc + n = total_relations selected)%nat;
  inv_requested :
    forall c, cancel_at = Some c ->
              (step loc <= count is_return (firstn c (trace w)) + 1)%nat;
  inv_finished : count is_finished (trace w) = 0%nat;
  inv_relations_only :
    j = 0%nat -> count is_doc (trace w) = 0%nat /\ exported_projects loc = [];
  inv_quiet : quiet_after_seen (trace w) = true;
  inv_seen : has_seen (trace w) = true -> late w;
  inv_ok : ok_count loc = count is_ok_return (trace w);
  inv_single : mode = 1%nat -> Forall single_layer_ok (trace w);
  inv_per_table :
    mode = 2%nat ->
    gpkg_count loc = ok_count loc /\ guarded (trace w) = true
    /\ Forall per_table_call_ok (trace w)
}.

End Invariant.

Definition is_failed_return (e : Event) : bool :=
  match e with EvReturn false _ => true | _ => false end.

(** A selection of three relations in two schemas, for the examples. *)
Definition demo_roads : TableInfo :=
  mkTableInfo "roads" (Some "geom") (Some "LINESTRING") 4326 "BASE TABLE".

Definition demo_lakes : TableInfo :=
  mkTableInfo "lakes" (Some "geom") (Some "POLYGON") 4326 "VIEW".

Definition demo_selection : Selection :=
  [("a", [demo_roads; demo_lakes]); ("b", [demo_lakes])].

Definition demo_one_relation : Selection := [("a", [demo_roads])].

(** A run of the worker in an environment where the database holds no
    project, every write succeeds and the output directory is "/out". *)
Definition demo_run (cancel_at : option nat) (layer_is_valid : string -> TableInfo -> bool)
    (selected : Selection) (mode : nat) (do_projects : bool) : ExportResult * World :=
  run cancel_at layer_is_valid (fun _ _ _ _ => None) None (inr []) (fun _ _ => None)
    demo_fromstring demo_tostring selected mode "/out" "/out/all.gpkg" do_projects
    (mkWorld [] ∅).

(** * Further code of the repository *)

(** ** export_engine.py: the SSL mode given to the data source URI *)

(** [ssl_map] of [export_table_to_gpkg]. *)
Definition ssl_map : gmap string nat :=
  list_to_map
    [ ("disable", 0%nat); ("allow", 1%nat); ("prefer", 2%nat);
      ("require", 3%nat); ("verify-ca", 4%nat); ("verify-full", 5%nat) ].

(** [ssl_map.get(normalize_sslmode(conn_params.get("sslmode")), 2)] *)
Definition uri_ssl_mode (sslmode : Py.value) : nat :=
  default 2%nat (ssl_map !! normalize_sslmode sslmode).

(** ** db_utils.py: resolve_auth_params *)

(** [d.get(k, "")] and [d.get(k)] for a dict of strings; [None] and the
    empty string are both false. *)
Definition dict_get (d : gmap string string) (k : string) : string :=
  default "" (d !! k).

(** [a or b] on strings. *)
Definition str_or (a b : string) : string := if Py.truthy a then a else b.

Section Auth.

(** [QgsApplication.authManager().loadAuthenticationConfig(authcfg, conf,
    True)]: [None] when something in the [try] raises, [Some None] when
    the call returns false, else [conf.config("username")] and
    [conf.config("password")]. *)
Variable load_auth : string -> option (option (string * string)).

Definition resolve_auth_params (params : gmap string string) : gmap string string :=
  let authcfg := dict_get params "authcfg" in
  if negb (Py.truthy authcfg)
     || (Py.truthy (dict_get params "username") && Py.truthy (dict_get params "password"))
  then params
  else
    match load_auth authcfg with
    | Some (Some (u, p)) =>
        let params1 := <["username" := str_or u (dict_get params "username")]> params in
        <["password" := str_or p (dict_get params1 "password")]> params1
    | Some None => params
    | None => params
    end.

End Auth.

(** ** db_utils.py: get_tables_and_views *)

Definition SYSTEM_TABLES : list string :=
  [ "geography_columns"; "geometry_columns"; "spatial_ref_sys";
    "raster_columns"; "raster_overviews"; "qgis_projects" ].

(** A row of [geometry_columns]: table, geometry column, type, srid. *)
Record GeomRow : Type := mkGeomRow {
  g_table : string;
  g_column : option string;
  g_type : option string;
  g_srid : Z
}.

(** [spatial.setdefault(tname, []).append(...)] over the rows. *)
Fixpoint spatial_index (rows : list GeomRow) (spatial : gmap string (list GeomRow))
    : gmap string (list GeomRow) :=
  match rows with
  | [] => spatial
  | r :: rows' =>
      spatial_index rows'
        (<[g_table r := (default [] (spatial !! g_table r) ++ [r])%list]> spatial)
  end.

(** The loop over the rows of [information_schema.tables]. *)
Fixpoint table_entries (spatial : gmap string (list GeomRow))
    (rows : list (string * string)) : list TableInfo :=
  match rows with
  | [] => []
  | (tname, ttype) :: rows' =>
      if str_in tname SYSTEM_TABLES then table_entries spatial rows'
      else
        match spatial !! tname with
        | Some gis =>
            (List.map (fun gi => mkTableInfo tname (g_column gi) (g_type gi) (g_srid gi) ttype)
               gis ++ table_entries spatial rows')%list
        | None => mkTableInfo tname None None 0 ttype :: table_entries spatial rows'
        end
  end.

Section Discovery.

(** The two queries, for a schema: the rows, or the text of the
    exception raised. *)
Variable query_geometry_columns : string -> string + list GeomRow.
Variable query_tables : string -> string + list (string * string).

Definition get_tables_and_views (schema : string) : string + list TableInfo :=
  match query_geometry_columns schema with
  | inl e => inl e
  | inr geom_rows =>
      let spatial := spatial_index geom_rows ∅ in
      match query_tables schema with
      | inl e => inl e
      | inr rows => inr (table_entries spatial rows)
      end
  end.

End Discovery.

(** ** db_utils.py: get_qgis_projects_in_db *)

(** ["content" if "content" in columns else ("metadata" if "metadata" in
    columns else None)] *)
Definition xml_col (columns : list string) : option string :=
  if str_in "content" columns then Some "content"
  else if str_in "metadata" columns then Some "metadata" else None.

Section ProjectScan.

Variable zip_namelist : list byte -> option (list string).
Variable zip_read : list byte -> string -> option (list byte).
Variable zlib_decompress : list byte -> option (list byte).
Variable decode_utf8 : list byte -> option string.
(** The columns of a table, in ordinal order, or the exception. *)
Variable query_columns : string -> string -> string + list string.
(** [SELECT name, <column> FROM <schema>.<table>]: the rows, with [None]
    for a NULL payload, or the exception. *)
Variable query_rows : string -> string -> string -> string + list (string * option Payload).

(** The loop over the rows of one table. *)
Fixpoint collect_projects (pschema : string) (rows : list (string * option Payload))
    (projects : list Project) : list Project :=
  match rows with
  | [] => projects
  | (name, None) :: rows' => collect_projects pschema rows' projects
  | (name, Some raw) :: rows' =>
      match (_extract_qgs_xml zip_namelist zip_read zlib_decompress decode_utf8 raw).1 with
      | Some xml =>
          if Py.truthy xml
          then collect_projects pschema rows'
                 (projects ++ [mkProject pschema name xml])%list
          else collect_projects pschema rows' projects
      | None => collect_projects pschema rows' projects
      end
  end.

(** The body of the loop over the storage tables: the [try] with its
    [except], which logs, rolls back and goes on to the next table. *)
Definition scan_project_table (item : string * string) (projects : list Project)
    : list Project :=
  let '(pschema, ptable) := item in
  match query_columns pschema ptable with
  | inl _ => projects
  | inr columns =>
      match xml_col columns with
      | None => projects
      | Some col =>
          match query_rows col pschema ptable with
          | inl _ => projects
          | inr rows => collect_projects pschema rows projects
          end
      end
  end.

Fixpoint scan_project_tables (tables : list (string * string)) (projects : list Project)
    : list Project :=
  match tables with
  | [] => projects
  | item :: tables' => scan_project_tables tables' (scan_project_table item projects)
  end.

(** [project_tables] is the result of the first query, which is outside
    any [try]. *)
Definition get_qgis_projects_in_db (project_tables : string + list (string * string))
    : string + list Project :=
  match project_tables with
  | inl e => inl e
  | inr tables => inr (scan_project_tables tables [])
  end.

End ProjectScan.

(** ** pg2gpkg_dialog.py: the selection and the single container *)

(** A child of the table tree: its check box, the table info stored
    under [Qt.UserRole] and the schema stored under [Qt.UserRole + 1]. *)
Record TreeItem : Type := mkTreeItem {
  item_checked : bool;
  item_info : option TableInfo;
  item_schema : option string
}.

(** The tree: the children of each top-level item. *)
Definition Tree : Type := list (list TreeItem).

(** [result.setdefault(schema, []).append(info)] on a dict in insertion
    order. *)
Fixpoint dict_append (schema : string) (info : TableInfo) (result : Selection) : Selection :=
  match result with
  | [] => [(schema, [info])]
  | (k, v) :: result' =>
      if String.eqb k schema then (k, (v ++ [info])%list) :: result'
      else (k, v) :: dict_append schema info result'
  end.

Definition select_item (ci : TreeItem) (result : Selection) : Selection :=
  if item_checked ci then
    match item_schema ci, item_info ci with
    | Some schema, Some info =>
        if Py.truthy schema then dict_append schema info result else result
    | _, _ => result
    end
  else result.

(** [_selected_tables] *)
Definition _selected_tables (tree : Tree) : Selection :=
  fold_left (fun result si => fold_left (fun r ci => select_item ci r) si result) tree [].

(** [_check_spatial_only]: the check state given to each child. *)
Definition _check_spatial_only (tree : Tree) : Tree :=
  List.map
    (List.map (fun ci =>
       mkTreeItem
         (match item_info ci with
          | Some info => opt_truthy (geom_column info)
          | None => false
          end)
         (item_info ci) (item_schema ci))) tree.


(** The decoders that apply to a byte string, in the order in which
    they are tried. *)
Definition decoder_chain (raw : list byte) : list Decoder :=
  ((if bool_decide (firstn 4 raw = zip_signature) then [ZipArchive] else [])
   ++ (if bool_decide (firstn 1 raw = [x78]) then [Inflate] else [])
   ++ [Utf8; Inflate])%list.


(** The rows of [geometry_columns] for the table [k], in order. *)
Definition geoms_of (k : string) (rows : list GeomRow) : list GeomRow :=
  List.filter (fun r => String.eqb (g_table r) k) rows.

(** The entries of a result that are about the table [k]. *)
Definition entries_of (k : string) (result : list TableInfo) : list TableInfo :=
  List.filter (fun t => String.eqb (table t) k) result.

(** ** pg2gpkg_dialog.py: _load_all, the tree it builds *)

(** The children added under the item of a schema: all checked, each
    with its table info and the schema. *)
Definition tree_children (schema : string) (tables : list TableInfo) : list TreeItem :=
  List.map (fun t => mkTreeItem true (Some t) (Some schema)) tables.

(** [d[k] = v] on a dict in insertion order. *)
Fixpoint dict_set (k : string) (v : list TableInfo) (d : Selection) : Selection :=
  match d with
  | [] => [(k, v)]
  | (k', v') :: d' =>
      if String.eqb k' k then (k', v) :: d' else (k', v') :: dict_set k v d'
  end.

(** What the loop of [_load_all] builds: the tree, [self._all_tables]
    and the count [n]. *)
Record Loaded : Type := mkLoaded {
  ld_tree : Tree;
  ld_all_tables : Selection;
  ld_n : nat
}.

Section Load.

(** [get_tables_and_views(self.conn, schema)] *)
Variable tables_of : string -> string + list TableInfo.

(** The loop over the schemas: what is built, and the exception that
    ended the loop, if any. *)
Fixpoint load_schemas (schemas : list string) (st : Loaded) : Loaded * option string :=
  match schemas with
  | [] => (st, None)
  | schema :: schemas' =>
      match tables_of schema with
      | inl e => (st, Some e)
      | inr [] => load_schemas schemas' st
      | inr tables =>
          load_schemas schemas'
            (mkLoaded (ld_tree st ++ [tree_children schema tables])%list
                      (dict_set schema tables (ld_all_tables st))
                      (ld_n st + length tables))
      end
  end.

(** After [self.table_tree.clear()] and [self._all_tables = {}]. *)
Definition _load_all (schemas : list string) : Loaded * option string :=
  load_schemas schemas (mkLoaded [] [] 0).

End Load.

(** The children that [_selected_tables] takes: checked, with a schema
    that is not empty and a table info. *)
Definition selectable (ci : TreeItem) : bool :=
  item_checked ci
  && match item_schema ci, item_info ci with
     | Some schema, Some _ => Py.truthy schema
     | _, _ => false
     end.

(** The table infos of the selectable children of the schema [k], in
    the order of the tree. *)
Definition infos_of (k : string) (items : list TreeItem) : list TableInfo :=
  omap item_info
    (List.filter (fun ci => selectable ci
                            && match item_schema ci with
                               | Some s => String.eqb s k
                               | None => false
                               end) items).

(** [selected.get(k, [])] *)
Definition sel_get (k : string) (sel : Selection) : list TableInfo :=
  match List.find (fun kv => String.eqb kv.1 k) sel with
  | Some kv => kv.2
  | None => []
  end.

(** The keys are schemas that are not empty, the lists are not empty. *)
Definition entry_ok (kv : string * list TableInfo) : Prop :=
  Py.truthy kv.1 = true /\ kv.2 <> [].


(** ** Notions for the trees of the rewriter *)

(** [root.iter()]: the element and all that is below it, in document
    order. *)
Fixpoint iter (e : Element) : list Element :=
  match e with
  | Elem _ _ _ cs _ => e :: flat_map iter cs
  end.

(** The tree with the text of every [provider] and [datasource] element
    forgotten. *)
Fixpoint forget_layer_texts (e : Element) : Element :=
  match e with
  | Elem t a x cs tl =>
      Elem t a
        (if String.eqb t "provider" || String.eqb t "datasource" then None else x)
        (List.map forget_layer_texts cs) tl
  end.

(** The number of [maplayer] elements of a tree. *)
Definition layer_count (root : Element) : nat :=
  length (List.filter (fun e => String.eqb (e_tag e) "maplayer") (iter root)).

(** The messages of a given level. *)
Definition at_level (lv : Level) (log : list LogEntry) : list LogEntry :=
  List.filter (fun m => match m.1, lv with
                        | Info, Info | Warning, Warning => true
                        | _, _ => false
                        end) log.

(** From [st] to [st'] the messages [msgs] were logged, and the
    counters went up by the number of those that are informations and
    warnings. *)
Definition logged (st st' : RwState) (msgs : list LogEntry) : Prop :=
  messages st' = (messages st ++ msgs)%list
  /\ rewritten st' = (rewritten st + length (at_level Info msgs))%nat
  /\ skipped st' = (skipped st + length (at_level Warning msgs))%nat.

(** ** Further notions for the runs of the worker *)

(** The messages of the relations that failed, in the order of the
    run. *)
Definition failed_msgs (tr : list Event) : list string :=
  omap (fun e => match e with EvReturn false msg => Some msg | _ => None end) tr.

(** The paths of the project files written with success, in the order
    of the run. *)
Definition written_files (tr : list Event) : list string :=
  omap (fun e => match e with EvWriteFile pp _ true => Some pp | _ => None end) tr.

Definition is_connect_ok (e : Event) : bool :=
  match e with EvConnect true => true | _ => false end.

Definition is_close (e : Event) : bool :=
  match e with EvClose => true | _ => false end.

(** An error of the project phase. *)
Definition project_error (msg : string) : Prop := Py.startswith msg "Project" = true.

Section Accounting.

Variable selected : Selection.
Variable mode : nat.
Variable output_dir : string.

(** What holds of each event of a run: the total of a progress
    notification, the container and the layer name of a relation in
    PerSchema mode, the layer name and the action in PerTable mode, and
    the path of a project file. *)
Definition event_ok (e : Event) : Prop :=
  match e with
  | EvProgress _ tot _ => tot = total_relations selected
  | EvCall s _ p o =>
      mode = 0%nat -> p = os_path_join output_dir (s +:+ ".gpkg") /\ o = None
  | EvWriteLayer s t p ln a =>
      (mode = 0%nat -> p = os_path_join output_dir (s +:+ ".gpkg") /\ ln = table t)
      /\ (mode = 2%nat -> ln = table t /\ a = CreateOrOverwriteFile)
  | EvWriteFile pp _ _ =>
      exists pn, pp = os_path_join output_dir pn /\ ends_qgs pn = true
  | _ => True
  end.

(** What holds of the local variables and the trace between two
    statements of [run]; [projects] tells the project phase from the
    relation phase and [opened] is the number of connections open. *)
Record Inv2 (projects : bool) (opened : nat) (loc : Locals) (w : World) : Prop := mkInv2 {
  inv2_events : Forall event_ok (trace w);
  inv2_errors :
    exists pe, errors loc = (failed_msgs (trace w) ++ pe)%list
               /\ Forall project_error pe /\ (projects = false -> pe = []);
  inv2_written :
    List.map (os_path_join output_dir) (exported_projects loc) = written_files (trace w);
  inv2_names : Forall (fun pn => ends_qgs pn = true) (exported_projects loc);
  inv2_opened :
    count is_connect_ok (trace w) = (count is_close (trace w) + opened)%nat
}.

End Accounting.

(** ** Notions for the data sources *)

(** Every character of [s] is in the class [cls]. *)
Fixpoint all_chars (cls : ascii -> bool) (s : string) : bool :=
  match s with
  | EmptyString => true
  | String c s' => cls c && all_chars cls s'
  end.

(** The table reference of a data source as QGIS writes it: the schema
    and the table in double quotes, with a dot between them. *)
Definition table_reference (schema_name table_name rest : string) : string :=
  "table=" +:+ String dquote (schema_name +:+ String dquote
    ("." +:+ String dquote (table_name +:+ String dquote rest))).

(** ** Examples for the further code *)

Definition demo_notes : TableInfo := mkTableInfo "notes" None None 0 "BASE TABLE".

(** A tree with two schemas: both relations of the first are checked,
    the relation of the second is not. *)
Definition demo_tree : Tree :=
  [ [ mkTreeItem true (Some demo_roads) (Some "a");
      mkTreeItem true (Some demo_notes) (Some "a") ];
    [ mkTreeItem false (Some demo_lakes) (Some "b") ] ].

(** A catalog with a table that has two geometry columns, a table
    without geometry and a system table. *)
Definition demo_geometry_columns (schema : string) : string + list GeomRow :=
  inr [ mkGeomRow "roads" (Some "geom") (Some "LINESTRING") 4326;
        mkGeomRow "roads" (Some "centre") (Some "POINT") 4326 ].

Definition demo_tables (schema : string) : string + list (string * string) :=
  inr [ ("notes", "BASE TABLE"); ("roads", "BASE TABLE");
        ("spatial_ref_sys", "BASE TABLE") ].

(** Storage tables: the one of schema "b" cannot be read. *)
Definition demo_columns (pschema ptable : string) : string + list string :=
  if String.eqb pschema "b" then inl "permission denied"
  else inr ["name"; "metadata"; "content"].

Definition demo_rows (col pschema ptable : string)
    : string + list (string * option Payload) :=
  inr [ ("town", Some (RawStr "<qgis/>")); ("draft", None) ].

Definition no_bytes : list byte -> option (list byte) := fun _ => None.

Definition no_text : list byte -> option string := fun _ => None.

Definition no_names : list byte -> option (list string) := fun _ => None.

Definition no_member : list byte -> string -> option (list byte) := fun _ _ => None.

(** Connection settings with an authentication configuration and a
    user name but no password, and a store that knows the
    configuration. *)
Definition demo_params : gmap string string :=
  <["authcfg" := "cfg1"]> (<["host" := "db"]> (<["username" := "bob"]> ∅)).

Definition demo_load_auth (authcfg : string) : option (option (string * string)) :=
  Some (Some ("alice", "secret")).

(** Schema "a" has one relation, schema "b" has none. *)
Definition demo_tables_of (schema : string) : string + list TableInfo :=
  if String.eqb schema "a" then inr [demo_roads] else inr [].

(** A document with a storage pointer and a home path into the
    database. *)
Definition demo_stored_document : Element :=
  Elem "qgis" [] None
    [ Elem "projectstorage" [] None [] None;
      Elem "homePath" [("path", "postgresql://db/x")] None [] None;
      Elem "title" [] (Some "Town") [] None ] None.

(** A run over three relations with one project in the database, whose
    name ends in ".QGZ", and a container left by an earlier run. *)
Definition demo_project_run (layer_is_valid : string -> TableInfo -> bool) (mode : nat)
    : ExportResult * World :=
  run None layer_is_valid (fun _ _ _ _ => None) None
    (inr [mkProject "public" "Town.QGZ" "<x/>"]) (fun _ _ => None)
    demo_fromstring demo_tostring demo_selection mode "/out" "/out/all.gpkg" true
    (mkWorld [] {["/out/a/roads.gpkg"]}).
(** * Properties *)

(** ** The definitions at concrete inputs *)

Example normalize_sslmode_padded :
  normalize_sslmode (Py.Str " Verify-CA ") = "verify-ca".
Proof. vm_compute. reflexivity. Qed.

Example normalize_sslmode_code : normalize_sslmode (Py.Int 3) = "require".
Proof. vm_compute. reflexivity. Qed.

Example project_file_name_archive : project_file_name "town.QGZ" = "town.qgs".
Proof. vm_compute. reflexivity. Qed.

Example parse_datasource_quoted :
  parse_datasource demo_datasource = (Some "s", Some "t").
Proof. vm_compute. reflexivity. Qed.

Example parse_datasource_dotted :
  parse_datasource
    ("dbname='gis' host=db port=5432 key='id' srid=4326 type=Point table="
     +:+ String dquote "public" +:+ String dquote "." +:+ String dquote "roads"
     +:+ String dquote " (geom)")
  = (Some "public", Some "roads").
Proof. vm_compute. reflexivity. Qed.

Example parse_datasource_empty_schema :
  parse_datasource "dbname='x' schema='' table='t'" = (Some "", Some "t").
Proof. vm_compute. reflexivity. Qed.

Example os_path_join_relative : os_path_join "/out" "a.gpkg" = "/out/a.gpkg".
Proof. vm_compute. reflexivity. Qed.

Example os_path_join_absolute : os_path_join "/out" "/etc/x" = "/etc/x".
Proof. vm_compute. reflexivity. Qed.

Example extract_plain_text :
  _extract_qgs_xml (fun _ => None) (fun _ _ => None) (fun _ => None)
    (fun _ => Some "  <qgis version='3'/>") (RawBytes [x3c; x71])
  = (Some "  <qgis version='3'/>", [Utf8]).
Proof. vm_compute. reflexivity. Qed.

Example per_table_run :
  progress_steps (trace (demo_run None (fun _ _ => true) demo_selection 2 false).2)
  = [1; 2; 3]%nat.
Proof. vm_compute. reflexivity. Qed.

(** ** Strings *)

Section StringFacts.

Lemma sapp_cons (c : ascii) (a b : string) : String c a +:+ b = String c (a +:+ b).
Proof. reflexivity. Qed.

Lemma sapp_empty_l (b : string) : "" +:+ b = b.
Proof. reflexivity. Qed.

Lemma sapp_empty_r (a : string) : a +:+ "" = a.
Proof. induction a as [|c a IH]; [reflexivity|]. rewrite sapp_cons, IH. reflexivity. Qed.

Lemma sapp_assoc (a b c : string) : (a +:+ b) +:+ c = a +:+ (b +:+ c).
Proof. induction a as [|x a IH]; [reflexivity|]. rewrite !sapp_cons, IH. reflexivity. Qed.

Lemma slength_app (a b : string) :
  String.length (a +:+ b) = (String.length a + String.length b)%nat.
Proof. induction a as [|x a IH]; [reflexivity|]. rewrite sapp_cons. simpl. rewrite IH. reflexivity. Qed.

Lemma lower_app (a b : string) : Py.lower (a +:+ b) = Py.lower a +:+ Py.lower b.
Proof. induction a as [|x a IH]; [reflexivity|]. rewrite sapp_cons. simpl. rewrite IH. reflexivity. Qed.

Lemma lower_length (s : string) : String.length (Py.lower s) = String.length s.
Proof. induction s as [|x s IH]; [reflexivity|]. simpl. rewrite IH. reflexivity. Qed.

Lemma endswith_refl (p : string) : Py.endswith p p = true.
Proof. destruct p; cbn [Py.endswith]; rewrite String.eqb_refl; reflexivity. Qed.

Lemma endswith_app (a p : string) : Py.endswith (a +:+ p) p = true.
Proof.
  induction a as [|x a IH]; [apply endswith_refl|].
  rewrite sapp_cons. cbn [Py.endswith]. rewrite IH.
  destruct (String.eqb _ _); reflexivity.
Qed.

Lemma endswith_split (s p : string) :
  Py.endswith s p = true -> exists a, s = a +:+ p.
Proof.
  induction s as [|x s IH]; cbn [Py.endswith].
  - destruct (String.eqb "" p) eqn:E; [|discriminate].
    apply String.eqb_eq in E. subst. exists "". reflexivity.
  - destruct (String.eqb (String x s) p) eqn:E.
    + apply String.eqb_eq in E. subst. exists "". reflexivity.
    + intros H. destruct (IH H) as [a ->]. exists (String x a). reflexivity.
Qed.

Lemma endswith_length (s p : string) :
  Py.endswith s p = true -> (String.length p <= String.length s)%nat.
Proof. intros H. destruct (endswith_split _ _ H) as [a ->]. rewrite slength_app. lia. Qed.

Lemma substring_split (n : nat) (s : string) :
  (n <= String.length s)%nat ->
  s = String.substring 0 n s +:+ String.substring n (String.length s - n) s.
Proof.
  revert s. induction n as [|n IH]; intros s Hn.
  - rewrite Nat.sub_0_r. destruct s; simpl.
    + reflexivity.
    + rewrite sapp_empty_l. f_equal.
      clear Hn. induction s as [|y s IHs]; simpl; [reflexivity|]. f_equal. exact IHs.
  - destruct s as [|x s]; simpl in Hn; [lia|].
    simpl. rewrite sapp_cons. f_equal. apply IH. lia.
Qed.

Lemma substring_length (n m : nat) (s : string) :
  (n + m <= String.length s)%nat -> String.length (String.substring n m s) = m.
Proof.
  revert m s. induction n as [|n IH]; intros m s H.
  - revert s H. induction m as [|m IHm]; intros s H; destruct s as [|x s]; simpl in *;
      try reflexivity; try lia.
    f_equal. apply IHm. lia.
  - destruct s as [|x s]; simpl in *; [lia|]. apply IH. lia.
Qed.

(** [s[:-n]] leaves out exactly the last [n] characters. *)
Lemma drop_last_split (n : nat) (s : string) :
  (n <= String.length s)%nat ->
  exists ext, s = Py.drop_last n s +:+ ext /\ String.length ext = n.
Proof.
  intros H. exists (String.substring (String.length s - n) n s). split.
  - unfold Py.drop_last.
    rewrite (substring_split (String.length s - n) s) at 1 by lia.
    do 2 f_equal. lia.
  - apply substring_length. lia.
Qed.

End StringFacts.

(** ** normalize_sslmode *)

Section SslMode.






Lemma str_in_In (s : string) (l : list string) : str_in s l = true <-> In s l.
Proof.
  unfold str_in. rewrite existsb_exists. split.
  - intros [x [Hx E]]. apply String.eqb_eq in E. subst. exact Hx.
  - intros H. exists s. split; [exact H|apply String.eqb_refl].
Qed.

Lemma sslmode_mapping_pairs (k m : string) :
  sslmode_mapping !! k = Some m ->
  In (k, m)
    [ ("SslPrefer", "prefer"); ("SslDisable", "disable"); ("SslAllow", "allow");
      ("SslRequire", "require"); ("SslVerifyCa", "verify-ca");
      ("SslVerifyFull", "verify-full");
      ("0", "prefer"); ("1", "disable"); ("2", "allow");
      ("3", "require"); ("4", "verify-ca"); ("5", "verify-full") ].
Proof.
  intros H. apply list_elem_of_In.
  unfold sslmode_mapping in H. apply elem_of_list_to_map_2 in H. exact H.
Qed.

Lemma sslmode_mapping_valid (k m : string) :
  sslmode_mapping !! k = Some m -> In m sslmode_valid.
Proof.
  intros H%sslmode_mapping_pairs. unfold sslmode_valid.
  repeat (destruct H as [H|H]; [inversion H; subst; simpl; tauto|]).
  destruct H.
Qed.



End SslMode.



(** ** The file name of an exported project *)

(** C10. The name given to an exported project always ends in ".qgs",
    whatever the letter case: a name ending in ".qgz" has its last four
    characters replaced, a name ending in ".qgs" is kept, and any other
    name gets ".qgs" appended. *)
Theorem project_file_name_qgs (pn : string) :
  Py.endswith (Py.lower (project_file_name pn)) ".qgs" = true
  /\ (Py.endswith (Py.lower pn) ".qgz" = true ->
      exists stem ext, pn = stem +:+ ext /\ String.length ext = 4
                       /\ project_file_name pn = stem +:+ ".qgs")
  /\ (Py.endswith (Py.lower pn) ".qgz" = false ->
      Py.endswith (Py.lower pn) ".qgs" = true -> project_file_name pn = pn)
  /\ (Py.endswith (Py.lower pn) ".qgz" = false ->
      Py.endswith (Py.lower pn) ".qgs" = false -> project_file_name pn = pn +:+ ".qgs").
Proof.
  unfold project_file_name.
  destruct (Py.endswith (Py.lower pn) ".qgz") eqn:Ez;
    [|destruct (Py.endswith (Py.lower pn) ".qgs") eqn:Es]; simpl negb; cbv iota.
  - split; [|split; [|split]]; try discriminate.
    + rewrite lower_app. apply endswith_app.
    + intros _. apply endswith_length in Ez. rewrite lower_length in Ez.
      destruct (drop_last_split 4 pn Ez) as [ext [H1 H2]].
      exists (Py.drop_last 4 pn), ext. auto.
  - split; [exact Es|]. split; [discriminate|]. split; [reflexivity|discriminate].
  - split; [rewrite lower_app; apply endswith_app|].
    split; [discriminate|]. split; [discriminate|reflexivity].
Qed.

(** C10 at concrete names, one for each case. *)
Lemma project_file_name_qgs_witness :
  (exists stem ext, "Town.QGZ" = stem +:+ ext /\ String.length ext = 4
                    /\ project_file_name "Town.QGZ" = stem +:+ ".qgs")
  /\ project_file_name "town.Qgs" = "town.Qgs"
  /\ project_file_name "town" = "town.qgs".
Proof.
  split; [|split].
  - apply (project_file_name_qgs "Town.QGZ"). reflexivity.
  - apply (project_file_name_qgs "town.Qgs"); reflexivity.
  - apply (project_file_name_qgs "town"); reflexivity.
Defined.

(** ** The extractor *)

Section ExtractorFacts.

Variable zip_namelist : list byte -> option (list string).
Variable zip_read : list byte -> string -> option (list byte).
Variable zlib_decompress : list byte -> option (list byte).
Variable decode_utf8 : list byte -> option string.

Let extract := extract_bytes zip_namelist zip_read zlib_decompress decode_utf8.
Let from_zip := try_zip zip_namelist zip_read decode_utf8.


Lemma filter_skip (pre : list string) (q : string) (post : list string) :
  Forall (fun n => ends_qgs n = false) pre -> ends_qgs q = true ->
  List.filter ends_qgs (pre ++ q :: post) = q :: List.filter ends_qgs post.
Proof.
  intros Hpre Hq. induction Hpre as [|n pre Hn _ IH]; simpl.
  - rewrite Hq. reflexivity.
  - rewrite Hn. exact IH.
Qed.

Lemma filter_none (names : list string) :
  Forall (fun n => ends_qgs n = false) names -> List.filter ends_qgs names = [].
Proof.
  intros Hall. induction Hall as [|n l Hn _ IH]; simpl; [reflexivity|].
  rewrite Hn. exact IH.
Qed.

Lemma first_qgs (names : list string) :
  Forall (fun n => ends_qgs n = false) names
  \/ exists pre q post, names = (pre ++ q :: post)%list /\ ends_qgs q = true
                        /\ Forall (fun n => ends_qgs n = false) pre.
Proof.
  induction names as [|n names IH]; [left; constructor|].
  destruct (ends_qgs n) eqn:En.
  - right. exists [], n, names. simpl. auto.
  - destruct IH as [Hall|[pre [q [post [-> [Hq Hpre]]]]]].
    + left. constructor; assumption.
    + right. exists (n :: pre), q, post. simpl. auto.
Qed.

Lemma zip_target_preferred (names : list string) (target : string) :
  preferred_member names target -> zip_target names = Some target.
Proof.
  unfold zip_target. fold ends_qgs. intros [[pre [post [-> [Ht Hpre]]]]|[Hall Hhd]].
  - rewrite (filter_skip _ _ _ Hpre Ht). reflexivity.
  - rewrite (filter_none _ Hall). destruct names; simpl in Hhd; congruence.
Qed.

Lemma zip_target_inv (names : list string) (target : string) :
  zip_target names = Some target -> preferred_member names target.
Proof.
  unfold zip_target. fold ends_qgs.
  destruct (first_qgs names) as [Hall|[pre [q [post [-> [Hq Hpre]]]]]].
  - rewrite (filter_none _ Hall). intros H. right. split; [exact Hall|].
    destruct names; simpl; congruence.
  - rewrite (filter_skip _ _ _ Hpre Hq). intros [= <-].
    left. exists pre, post. auto.
Qed.

(** C8. A payload that starts with the archive signature is given to the
    archive decoder before any other decoder; the member read is the first
    one whose name ends in ".qgs", else the first member; and when that
    member holds a project, it is the result, whatever the inflate and
    UTF-8 decoders would make of the payload itself. *)
Theorem archive_attempted_first (raw : list byte) :
  firstn 4 raw = zip_signature ->
  (exists rest, (extract raw).2 = ZipArchive :: rest)
  /\ (forall names target,
        zip_namelist raw = Some names -> zip_target names = Some target ->
        preferred_member names target
        /\ (forall member text,
              target <> "" -> zip_read raw target = Some member ->
              decode_utf8 member = Some text -> _is_qgs text = true ->
              from_zip raw = Some text))
  /\ (forall text, from_zip raw = Some text -> extract raw = (Some text, [ZipArchive])).
Proof.
  intros Hsig. subst extract from_zip. unfold extract_bytes. rewrite Hsig.
  rewrite bool_decide_eq_true_2 by reflexivity. unfold stage at 1.
  split; [|split].
  - destruct (try_zip _ _ _ raw); eauto.
  - intros names target Hn Ht. split; [apply zip_target_inv, Ht|].
    intros member text Hne Hr Hd Hq. unfold try_zip. rewrite Hn. simpl.
    rewrite Ht. simpl. destruct target; [congruence|]. simpl.
    rewrite Hr. simpl. rewrite Hd. simpl. unfold accept. rewrite Hq. reflexivity.
  - intros text ->. reflexivity.
Qed.

End ExtractorFacts.

(** C8 at a payload whose own bytes the UTF-8 decoder would also read as
    a project: the member of the archive is what is returned. *)
Lemma archive_attempted_first_witness :
  extract_bytes (fun _ => Some ["notes.txt"; "Town.QGS"]) (fun _ _ => Some [])
    (fun _ => None) (fun _ => Some "<qgis/>") demo_archive
  = (Some "<qgis/>", [ZipArchive]).
Proof.
  apply (archive_attempted_first
           (fun _ => Some ["notes.txt"; "Town.QGS"]) (fun _ _ => Some [])
           (fun _ => None) (fun _ => Some "<qgis/>") demo_archive).
  - reflexivity.
  - vm_compute. reflexivity.
Defined.

(** ** The rewriter *)



Section Resolution.

Variable smap : gmap string string.
Variable tmap : gmap (string * string) string.
Variable pmap : option (gmap string string).

Lemma truthy_ne (s : string) : s <> "" -> Py.truthy s = true.
Proof. destruct s; [congruence|reflexivity]. Qed.


End Resolution.


(** *** The tree passes, one element at a time *)

Lemma Element_ind_nested (P : Element -> Prop) :
  (forall t a x cs tl, Forall P cs -> P (Elem t a x cs tl)) -> forall e, P e.
Proof.
  intros H. fix IH 1. intros [t a x cs tl]. apply H.
  induction cs as [|c cs IHcs]; constructor; [apply IH|exact IHcs].
Qed.

Section TreePasses.

Variable smap : gmap string string.
Variable tmap : gmap (string * string) string.
Variable pmap : option (gmap string string).

Local Abbreviation RL := (rewrite_layers_tree smap tmap pmap).
Local Abbreviation RP := remove_projectstorage.
Local Abbreviation BH := blank_home_paths.

Lemma visit_maplayer_update (cs : list Element) (st : RwState) :
  (visit_maplayer smap tmap pmap cs st).1 = layer_update smap tmap pmap cs.
Proof.
  unfold layer_update, visit_maplayer.
  destruct (find_child "provider" cs), (find_child "datasource" cs); try reflexivity.
  destruct (e_text _); [|reflexivity].
  destruct (negb _); [reflexivity|].
  destruct (parse_datasource _) as [[sn|] [tn|]]; try reflexivity.
  destruct (_ && _); [|reflexivity].
  destruct (resolve_gpkg _ _ _ _ _) as [[p|] n]; [|reflexivity].
  destruct (Py.truthy p); reflexivity.
Qed.

(** The tree returned by the walk does not depend on the counters. *)
Lemma rewrite_layers_fst (e : Element) (st : RwState) :
  (rewrite_layers smap tmap pmap e st).1 = RL e.
Proof.
  revert st. induction e as [t a x cs tl IH] using Element_ind_nested. intros st.
  cbn [rewrite_layers rewrite_layers_tree].
  set (walk := fix walk (l : list Element) (s : RwState) {struct l} :
                 list Element * RwState :=
                 match l with
                 | [] => ([], s)
                 | c :: l' =>
                     let '(c', s1) := rewrite_layers smap tmap pmap c s in
                     let '(r, s2) := walk l' s1 in (c' :: r, s2)
                 end).
  assert (Hwalk : forall s, (walk cs s).1 = List.map RL cs).
  { induction IH as [|c cs Hc _ IHcs]; intros s; [reflexivity|].
    cbn [walk List.map]. fold walk.
    specialize (Hc s). destruct (rewrite_layers smap tmap pmap c s) as [c' s1].
    specialize (IHcs s1). destruct (walk cs s1) as [r s2].
    simpl in *. congruence. }
  destruct (String.eqb t "maplayer").
  - pose proof (visit_maplayer_update cs st) as Hu.
    destruct (visit_maplayer smap tmap pmap cs st) as [upd st1].
    specialize (Hwalk st1). destruct (walk cs st1) as [cs' st2].
    simpl in *. subst. reflexivity.
  - specialize (Hwalk st). destruct (walk cs st) as [cs' st2].
    simpl in *. subst. reflexivity.
Qed.

Lemma RL_tag (e : Element) : e_tag (RL e) = e_tag e.
Proof. destruct e; reflexivity. Qed.

Lemma RL_text (e : Element) : e_text (RL e) = e_text e.
Proof. destruct e; reflexivity. Qed.

Lemma RP_tag (e : Element) : e_tag (RP e) = e_tag e.
Proof. destruct e; reflexivity. Qed.

Lemma RP_text (e : Element) : e_text (RP e) = e_text e.
Proof. destruct e; reflexivity. Qed.

Lemma BH_tag (e : Element) : e_tag (BH e) = e_tag e.
Proof. destruct e; reflexivity. Qed.

Lemma BH_text (e : Element) : e_text (BH e) = e_text e.
Proof. destruct e; reflexivity. Qed.

Lemma set_text_tag (x : string) (e : Element) : e_tag (set_text x e) = e_tag e.
Proof. destruct e; reflexivity. Qed.

Lemma RP_children (e : Element) : e_children (RP e) = keep (e_children e).
Proof. destruct e; reflexivity. Qed.

Lemma keep_in (c : Element) (cs : list Element) :
  In c cs -> e_tag c <> "projectstorage" -> In (RP c) (keep cs).
Proof.
  induction cs as [|d cs IH]; simpl; [tauto|].
  intros [->|Hin] Hc.
  - apply String.eqb_neq in Hc. rewrite Hc. left. reflexivity.
  - destruct (String.eqb (e_tag d) "projectstorage"); [|right]; auto.
Qed.

Lemma find_child_map (F : Element -> Element) (tag : string) (cs : list Element) :
  (forall e, e_tag (F e) = e_tag e) ->
  find_child tag (List.map F cs) = F <$> find_child tag cs.
Proof.
  intros HF. unfold find_child.
  induction cs as [|c cs IH]; simpl; [reflexivity|].
  rewrite HF. destruct (String.eqb (e_tag c) tag); [reflexivity|exact IH].
Qed.

Lemma find_child_keep (tag : string) (cs : list Element) :
  tag <> "projectstorage" -> find_child tag (keep cs) = RP <$> find_child tag cs.
Proof.
  intros Ht. unfold find_child.
  induction cs as [|c cs IH]; simpl; [reflexivity|].
  destruct (String.eqb (e_tag c) "projectstorage") eqn:E.
  - apply String.eqb_eq in E.
    destruct (String.eqb (e_tag c) tag) eqn:E2; [|exact IH].
    apply String.eqb_eq in E2. congruence.
  - simpl. rewrite RP_tag.
    destruct (String.eqb (e_tag c) tag); [reflexivity|exact IH].
Qed.

Lemma find_child_set_same (tag x : string) (cs : list Element) :
  find_child tag (set_child_text tag x cs) = set_text x <$> find_child tag cs.
Proof.
  unfold find_child. induction cs as [|c cs IH]; simpl; [reflexivity|].
  destruct (String.eqb (e_tag c) tag) eqn:E; simpl.
  - rewrite set_text_tag, E. reflexivity.
  - rewrite E. exact IH.
Qed.

Lemma find_child_set_other (tag tag' x : string) (cs : list Element) :
  tag <> tag' -> find_child tag (set_child_text tag' x cs) = find_child tag cs.
Proof.
  intros Hne. unfold find_child. induction cs as [|c cs IH]; simpl; [reflexivity|].
  destruct (String.eqb (e_tag c) tag') eqn:E; simpl.
  - rewrite set_text_tag. apply String.eqb_eq in E.
    assert (String.eqb (e_tag c) tag = false) as ->; [|reflexivity].
    apply String.eqb_neq. congruence.
  - destruct (String.eqb (e_tag c) tag); [reflexivity|exact IH].
Qed.

Lemma set_child_text_in (tag x : string) (c : Element) (cs : list Element) :
  In c cs ->
  In c (set_child_text tag x cs)
  \/ (e_tag c = tag /\ In (set_text x c) (set_child_text tag x cs)).
Proof.
  induction cs as [|d cs IH]; simpl; [tauto|].
  intros [->|Hin].
  - destruct (String.eqb (e_tag c) tag) eqn:E.
    + right. apply String.eqb_eq in E. split; [exact E|left; reflexivity].
    + left. left. reflexivity.
  - destruct (String.eqb (e_tag d) tag).
    + left. right. exact Hin.
    + destruct (IH Hin) as [H|[H1 H2]]; [left; right; exact H|right; split; [exact H1|right; exact H2]].
Qed.

(** A child survives the assignment of the layer loop, up to its text. *)
Lemma apply_rewrite_in (upd : option string) (c : Element) (cs : list Element) :
  In c cs ->
  In c (apply_rewrite upd cs)
  \/ exists x, (e_tag c = "provider" \/ e_tag c = "datasource")
               /\ In (set_text x c) (apply_rewrite upd cs).
Proof.
  intros Hin. destruct upd as [new_ds|]; [|left; exact Hin]. simpl.
  destruct (set_child_text_in "datasource" new_ds c cs Hin) as [H|[Ht H]].
  - destruct (set_child_text_in "provider" "ogr" c _ H) as [H'|[Ht' H']].
    + left. exact H'.
    + right. exists "ogr". auto.
  - destruct (set_child_text_in "provider" "ogr" _ _ H) as [H'|[Ht' H']].
    + right. exists new_ds. auto.
    + rewrite set_text_tag in Ht'. congruence.
Qed.

Lemma within_tag_child (l c : Element) (x : string) :
  within l c -> e_tag l <> e_tag c -> within l (set_text x c).
Proof.
  intros H Hne. destruct H as [|t a y cs tl c' Hin Hc Hw]; [congruence|].
  simpl. eapply within_child; eauto.
Qed.

Lemma within_RL (l d : Element) :
  within l d -> e_tag l <> "provider" -> e_tag l <> "datasource" ->
  within (RL l) (RL d).
Proof.
  intros H Hp Hd. induction H as [|t a x cs tl c Hin Hc Hw IH]; [constructor|].
  cbn [rewrite_layers_tree].
  set (upd := if String.eqb t "maplayer" then _ else _).
  assert (Hin' : In (RL c) (List.map RL cs)) by (apply in_map, Hin).
  destruct (apply_rewrite_in upd _ _ Hin') as [H|[y [Ht H]]].
  - eapply within_child; [exact H| |exact IH]. rewrite RL_tag. exact Hc.
  - eapply within_child; [exact H| |].
    + rewrite set_text_tag, RL_tag. exact Hc.
    + apply within_tag_child; [exact IH|].
      rewrite !RL_tag in *. destruct Ht; congruence.
Qed.

Lemma within_RP (l d : Element) : within l d -> within (RP l) (RP d).
Proof.
  induction 1 as [|t a x cs tl c Hin Hc Hw IH]; [constructor|].
  change (RP (Elem t a x cs tl)) with (Elem t a x (keep cs) tl).
  eapply within_child; [apply keep_in; eassumption| |exact IH].
  rewrite RP_tag. exact Hc.
Qed.

Lemma within_BH (l d : Element) : within l d -> within (BH l) (BH d).
Proof.
  induction 1 as [|t a x cs tl c Hin Hc Hw IH]; [constructor|].
  cbn [blank_home_paths].
  eapply within_child; [apply in_map; eassumption| |exact IH].
  rewrite BH_tag. exact Hc.
Qed.

Lemma within_default_projectname (l d : Element) :
  within l d -> e_tag l <> "qgis" -> within l (default_projectname d).
Proof.
  intros H Hne. destruct H as [|t a x cs tl c Hin Hc Hw].
  - destruct l as [t a x cs tl]. simpl in *.
    apply String.eqb_neq in Hne. rewrite Hne. constructor.
  - simpl. destruct (String.eqb t "qgis"); eapply within_child; eauto.
Qed.

Lemma rewrite_tree_fst (root : Element) :
  (rewrite_tree root (Some smap) (Some tmap) pmap).1
  = BH (default_projectname (RP (RL root))).
Proof.
  unfold rewrite_tree.
  change (default ∅ (Some smap)) with smap. change (default ∅ (Some tmap)) with tmap.
  pose proof (rewrite_layers_fst root (mkRwState 0 0 [])) as Hfst.
  destruct (rewrite_layers smap tmap pmap root _) as [root1 st].
  simpl in Hfst. subst root1. reflexivity.
Qed.

(** Every layer that is not below a storage pointer is found again, as
    its image, in the tree handed to the serialiser. *)
Lemma within_rewrite_tree (l root : Element) :
  within l root -> e_tag l = "maplayer" ->
  within (layer_image smap tmap pmap l)
         (rewrite_tree root (Some smap) (Some tmap) pmap).1.
Proof.
  intros H Ht. rewrite rewrite_tree_fst. unfold layer_image. apply within_BH.
  apply within_default_projectname.
  - apply within_RP, within_RL; [exact H|rewrite Ht; discriminate..].
  - rewrite RP_tag, RL_tag, Ht. discriminate.
Qed.

Lemma set_text_text (x : string) (e : Element) : e_text (set_text x e) = Some x.
Proof. destruct e; reflexivity. Qed.

Lemma image_children (t : string) (a : list (string * string)) (x : option string)
    (cs : list Element) (tl : option string) :
  e_children (layer_image smap tmap pmap (Elem t a x cs tl))
  = List.map BH
      (keep (apply_rewrite (if String.eqb t "maplayer"
                            then layer_update smap tmap pmap cs else None)
               (List.map RL cs))).
Proof. reflexivity. Qed.

Lemma child_text_image (tag : string) (l : Element) :
  tag <> "projectstorage" ->
  child_text tag (layer_image smap tmap pmap l)
  = child_text tag
      (Elem (e_tag l) [] None
         (apply_rewrite (if String.eqb (e_tag l) "maplayer"
                         then layer_update smap tmap pmap (e_children l) else None)
            (List.map RL (e_children l))) None).
Proof.
  intros Ht. destruct l as [t a x cs tl]. unfold child_text.
  rewrite image_children. cbn [e_children e_tag].
  rewrite (find_child_map BH) by apply BH_tag.
  rewrite find_child_keep by exact Ht.
  destruct (find_child tag _) as [c|]; [|reflexivity].
  simpl. rewrite BH_text, RP_text. reflexivity.
Qed.

Lemma layer_update_hit (cs : list Element) (prov ds : Element)
    (ds_text schema_name table_name p : string) :
  find_child "provider" cs = Some prov ->
  find_child "datasource" cs = Some ds ->
  e_text ds = Some ds_text ->
  is_pg (e_text prov) ds_text = true ->
  parse_datasource ds_text = (Some schema_name, Some table_name) ->
  schema_name <> "" -> table_name <> "" ->
  tmap !! (schema_name, table_name) = Some p -> p <> "" ->
  layer_update smap tmap pmap cs = Some (p +:+ "|layername=" +:+ table_name).
Proof.
  intros Hp Hd Ht Hpg Hparse Hs Htn Hl Hne.
  unfold layer_update, visit_maplayer. rewrite Hp, Hd. cbv beta iota. rewrite Ht. cbv beta iota.
  rewrite Hpg. cbn [negb]. cbv beta iota. rewrite Hparse. cbv beta iota.
  rewrite (truthy_ne _ Hs), (truthy_ne _ Htn). cbn [negb andb]. cbv beta iota.
  unfold resolve_gpkg. rewrite Hl, (truthy_ne _ Hne). reflexivity.
Qed.

Lemma layer_update_unassigned (cs : list Element) :
  unassigned smap tmap cs -> layer_update smap tmap pmap cs = None.
Proof.
  intros Hun. unfold layer_update, visit_maplayer.
  destruct (find_child "provider" cs) as [prov|]; [|reflexivity].
  destruct (find_child "datasource" cs) as [ds|] eqn:Hd; [|reflexivity].
  destruct (e_text ds) as [ds_text|] eqn:Ht; [|reflexivity].
  destruct (negb _); [reflexivity|].
  destruct (parse_datasource ds_text) as [[sn|] [tn|]] eqn:Hparse; try reflexivity.
  destruct (_ && _); [|reflexivity].
  destruct (Hun ds ds_text sn tn Hd Ht Hparse) as [H1 H2].
  unfold resolve_gpkg. rewrite H1, H2. reflexivity.
Qed.

(** The passes leave an inert element as it is. *)
Lemma inert_fixed (e : Element) :
  inert e = true -> RL e = e /\ RP e = e /\ BH e = e.
Proof.
  induction e as [t a x cs tl IH] using Element_ind_nested.
  cbn [inert]. intros H.
  apply andb_prop in H as [H Hcs]. apply andb_prop in H as [H Hh].
  apply andb_prop in H as [Hm Hps].
  assert (Hall : List.map RL cs = cs /\ keep cs = cs /\ List.map BH cs = cs).
  { induction IH as [|c cs Hc _ IHcs]; [auto|].
    cbn [forallb] in Hcs. apply andb_prop in Hcs as [Hc1 Hcs].
    destruct (Hc Hc1) as [E1 [E2 E3]]. destruct (IHcs Hcs) as [F1 [F2 F3]].
    assert (String.eqb (e_tag c) "projectstorage" = false) as Etag.
    { destruct c as [tc ? ? ? ?]. cbn [inert] in Hc1. cbn [e_tag].
      destruct (String.eqb tc "projectstorage"); [|reflexivity].
      rewrite andb_false_r in Hc1. simpl in Hc1. discriminate. }
    cbn [List.map keep]. rewrite Etag, E1, E2, E3, F1, F2, F3. auto. }
  destruct Hall as [F1 [F2 F3]].
  cbn [rewrite_layers_tree remove_projectstorage blank_home_paths].
  fold keep.
  destruct (String.eqb t "maplayer"); [discriminate|].
  destruct (String.eqb t "homePath"); [discriminate|].
  cbn [apply_rewrite]. rewrite F1, F2, F3. auto.
Qed.

Lemma inert_children_fixed (cs : list Element) :
  forallb inert cs = true ->
  List.map RL cs = cs /\ keep cs = cs /\ List.map BH cs = cs.
Proof.
  induction cs as [|c cs IH]; [auto|].
  cbn [forallb]. intros [Hc Hcs]%andb_prop.
  destruct (inert_fixed c Hc) as [E1 [E2 E3]]. destruct (IH Hcs) as [F1 [F2 F3]].
  assert (String.eqb (e_tag c) "projectstorage" = false) as Etag.
  { destruct c as [tc ? ? ? ?]. cbn [inert] in Hc. cbn [e_tag].
    destruct (String.eqb tc "projectstorage"); [|reflexivity].
    rewrite andb_false_r in Hc. simpl in Hc. discriminate. }
  cbn [List.map keep]. rewrite Etag, E1, E2, E3, F1, F2, F3. auto.
Qed.

(** A layer that is not rewritten and has only inert children is its
    own image. *)
Lemma layer_image_inert (l : Element) :
  e_tag l = "maplayer" -> layer_update smap tmap pmap (e_children l) = None ->
  forallb inert (e_children l) = true -> layer_image smap tmap pmap l = l.
Proof.
  destruct l as [t a x cs tl]. cbn [e_tag e_children]. intros -> Hu Hin.
  destruct (inert_children_fixed cs Hin) as [F1 [F2 F3]].
  unfold layer_image. cbn [rewrite_layers_tree remove_projectstorage blank_home_paths].
  fold keep. cbn [String.eqb Ascii.eqb Bool.eqb]. cbv beta iota.
  rewrite Hu. cbn [apply_rewrite]. rewrite F1, F2, F3. reflexivity.
Qed.

End TreePasses.

(** C3 as stated fails on a layer that has no assignment but holds a
    storage pointer: the clean-up removes the pointer, so the layer is not
    found unchanged in the tree that is serialised. *)
Lemma rewrite_round_trip_counterexample :
  let tm : gmap (string * string) string := {[ ("s", "t") := "/out/s/t.gpkg" ]} in
  within demo_other_layer demo_document
  /\ unassigned ∅ tm (e_children demo_other_layer)
  /\ ~ within demo_other_layer (rewrite_tree demo_document None (Some tm) None).1.
Proof.
  intros tm. split; [|split].
  - unfold demo_document.
    eapply within_child; [left; reflexivity|discriminate|].
    eapply within_child; [right; left; reflexivity|discriminate|constructor].
  - intros ds ds_text sn tn Hd Ht Hp.
    vm_compute in Hd. injection Hd as <-. vm_compute in Ht. injection Ht as <-.
    vm_compute in Hp. injection Hp as <- <-. split; reflexivity.
  - assert (E : (rewrite_tree demo_document None (Some tm) None).1
                = Elem "qgis" [("version", "3.34"); ("projectname", "")] None
                    [ Elem "projectlayers" [] None
                        [ Elem "maplayer" [] None
                            [ Elem "id" [] (Some "roads_1") [] None;
                              Elem "datasource" [] (Some "/out/s/t.gpkg|layername=t") [] None;
                              Elem "provider" [("encoding", "UTF-8")] (Some "ogr") [] None ] None;
                          Elem "maplayer" [] None
                            [ Elem "datasource" [] (Some "dbname='x' schema='u' table='v'") [] None;
                              Elem "provider" [] (Some "postgres") [] None ] None ] None ] None)
      by (vm_compute; reflexivity).
    rewrite E. clear E. unfold demo_other_layer. intros H.
    repeat match goal with
           | H : within _ (Elem _ _ _ _ _) |- _ => inversion H; subst; clear H
           | H : In _ (_ :: _) |- _ => destruct H as [H|H]; [subst|]
           | H : In _ [] |- _ => destruct H
           end.
Qed.

(** C3, amended. In the tree handed to the serialiser, the layer whose
    data source is dbname='x' schema='s' table='t' has the data source
    "/out/s/t.gpkg|layername=t" and the provider "ogr", for every document
    in which the layer does not lie below a storage pointer; a layer that
    no assignment matches keeps its data source and its provider, and is
    found unchanged as a whole when none of its descendants is a layer, a
    storage pointer or a home path. *)
Theorem rewrite_round_trip
    (ET_fromstring : string -> string + Element) (ET_tostring : Element -> string)
    (xml_content : string) (root layer : Element)
    (schema_gpkg_map : option (gmap string string))
    (table_gpkg_map : gmap (string * string) string)
    (layer_prefix_map : option (gmap string string)) :
  ET_fromstring xml_content = inr root ->
  table_gpkg_map !! ("s", "t") = Some "/out/s/t.gpkg" ->
  within layer root -> e_tag layer = "maplayer" ->
  is_Some (find_child "provider" (e_children layer)) ->
  child_text "datasource" layer = Some "dbname='x' schema='s' table='t'" ->
  let smap := default ∅ schema_gpkg_map in
  let image := layer_image smap table_gpkg_map layer_prefix_map in
  exists root',
    (rewrite_qgis_project_datasources ET_fromstring ET_tostring xml_content
       schema_gpkg_map (Some table_gpkg_map) layer_prefix_map).1 = ET_tostring root'
    /\ within (image layer) root'
    /\ child_text "datasource" (image layer) = Some "/out/s/t.gpkg|layername=t"
    /\ child_text "provider" (image layer) = Some "ogr"
    /\ (forall other,
          within other root -> e_tag other = "maplayer" ->
          unassigned smap table_gpkg_map (e_children other) ->
          within (image other) root'
          /\ child_text "datasource" (image other) = child_text "datasource" other
          /\ child_text "provider" (image other) = child_text "provider" other
          /\ (forallb inert (e_children other) = true -> image other = other)).
Proof.
  intros Hparse Hmap Hin Htag [prov Hprov] Hds smap image.
  exists (rewrite_tree root (Some smap) (Some table_gpkg_map) layer_prefix_map).1.
  assert (Hsame : rewrite_tree root schema_gpkg_map (Some table_gpkg_map) layer_prefix_map
                  = rewrite_tree root (Some smap) (Some table_gpkg_map) layer_prefix_map)
    by reflexivity.
  split; [|split; [|split; [|split]]].
  - unfold rewrite_qgis_project_datasources. rewrite Hparse, Hsame.
    destruct (rewrite_tree _ _ _ _) as [r lg]. reflexivity.
  - apply within_rewrite_tree; assumption.
  - unfold child_text in Hds.
    destruct (find_child "datasource" (e_children layer)) as [ds|] eqn:Hd; [|discriminate].
    assert (Hu : layer_update smap table_gpkg_map layer_prefix_map (e_children layer)
                 = Some ("/out/s/t.gpkg" +:+ "|layername=" +:+ "t")).
    { eapply (layer_update_hit smap table_gpkg_map layer_prefix_map _ prov ds
                "dbname='x' schema='s' table='t'" "s" "t");
        try eassumption; try discriminate; try reflexivity.
      unfold is_pg. destruct (match e_text prov with Some _ => _ | None => _ end); reflexivity. }
    subst image. rewrite child_text_image by discriminate.
    rewrite Htag, Hu. unfold child_text. cbn [e_children String.eqb Ascii.eqb Bool.eqb apply_rewrite].
    rewrite find_child_set_other by discriminate.
    rewrite find_child_set_same.
    rewrite (find_child_map _ _ _ (RL_tag smap table_gpkg_map layer_prefix_map)).
    rewrite Hd. simpl. rewrite set_text_text. reflexivity.
  - unfold child_text in Hds.
    destruct (find_child "datasource" (e_children layer)) as [ds|] eqn:Hd; [|discriminate].
    assert (Hu : layer_update smap table_gpkg_map layer_prefix_map (e_children layer)
                 = Some ("/out/s/t.gpkg" +:+ "|layername=" +:+ "t")).
    { eapply (layer_update_hit smap table_gpkg_map layer_prefix_map _ prov ds
                "dbname='x' schema='s' table='t'" "s" "t");
        try eassumption; try discriminate; try reflexivity.
      unfold is_pg. destruct (match e_text prov with Some _ => _ | None => _ end); reflexivity. }
    subst image. rewrite child_text_image by discriminate.
    rewrite Htag, Hu. unfold child_text. cbn [e_children String.eqb Ascii.eqb Bool.eqb apply_rewrite].
    rewrite find_child_set_same.
    rewrite find_child_set_other by discriminate.
    rewrite (find_child_map _ _ _ (RL_tag smap table_gpkg_map layer_prefix_map)).
    rewrite Hprov. simpl. rewrite set_text_text. reflexivity.
  - intros other Ho Hto Hun.
    pose proof (layer_update_unassigned smap table_gpkg_map layer_prefix_map _ Hun) as Hu.
    split; [apply within_rewrite_tree; assumption|].
    subst image. rewrite !child_text_image by discriminate.
    rewrite Hto, Hu. unfold child_text.
    cbn [e_children String.eqb Ascii.eqb Bool.eqb apply_rewrite].
    rewrite !(find_child_map _ _ _ (RL_tag smap table_gpkg_map layer_prefix_map)).
    split; [|split].
    + destruct (find_child "datasource" (e_children other));
        [simpl; apply RL_text|reflexivity].
    + destruct (find_child "provider" (e_children other));
        [simpl; apply RL_text|reflexivity].
    + intros Hinert. apply layer_image_inert; assumption.
Qed.

(** C3 at the example document: the layer of the example is rewritten,
    the other layer keeps its data source. *)
Lemma rewrite_round_trip_witness :
  exists root',
    (rewrite_qgis_project_datasources (fun _ => inr demo_document) demo_tostring
       "<qgis/>" None (Some {[ ("s", "t") := "/out/s/t.gpkg" ]}) None).1
    = demo_tostring root'
    /\ within (layer_image ∅ {[ ("s", "t") := "/out/s/t.gpkg" ]} None demo_layer) root'
    /\ child_text "datasource"
         (layer_image ∅ {[ ("s", "t") := "/out/s/t.gpkg" ]} None demo_layer)
       = Some "/out/s/t.gpkg|layername=t".
Proof.
  destruct (rewrite_round_trip (fun _ => inr demo_document) demo_tostring "<qgis/>"
              demo_document demo_layer None {[ ("s", "t") := "/out/s/t.gpkg" ]} None)
    as [root' [H1 [H2 [H3 _]]]].
  - reflexivity.
  - reflexivity.
  - unfold demo_document.
    eapply within_child; [left; reflexivity|discriminate|].
    eapply within_child; [left; reflexivity|discriminate|constructor].
  - reflexivity.
  - eexists. reflexivity.
  - reflexivity.
  - exists root'. auto.
Defined.

(** ** The worker *)

Section TraceFacts.

Lemma progress_steps_app (a b : list Event) :
  progress_steps (a ++ b) = (progress_steps a ++ progress_steps b)%list.
Proof. unfold progress_steps. apply omap_app. Qed.

Lemma count_app (p : Event -> bool) (a b : list Event) :
  count p (a ++ b) = (count p a + count p b)%nat.
Proof. unfold count. rewrite List.filter_app, List.length_app. reflexivity. Qed.

Lemma count_firstn_mono (p : Event -> bool) (c : nat) (a b : list Event) :
  (count p (firstn c a) <= count p (firstn c (a ++ b)))%nat.
Proof. rewrite firstn_app, count_app. lia. Qed.

Lemma count_firstn_all (p : Event -> bool) (c : nat) (a b : list Event) :
  (length a <= c)%nat -> (count p a <= count p (firstn c (a ++ b)))%nat.
Proof.
  intros H. rewrite firstn_app, count_app, firstn_all2 by exact H. lia.
Qed.

Lemma has_seen_app (a b : list Event) :
  has_seen (a ++ b) = has_seen a || has_seen b.
Proof. unfold has_seen. apply existsb_app. Qed.

Lemma quiet_after_seen_app (a b : list Event) :
  quiet_after_seen (a ++ b)
  = quiet_after_seen a
    && (if has_seen a then forallb (fun e => negb (is_call e)) b
        else quiet_after_seen b).
Proof.
  induction a as [|e a IH]; [reflexivity|].
  cbn [app quiet_after_seen has_seen existsb].
  destruct (is_seen e); cbn [orb].
  - rewrite forallb_app. reflexivity.
  - exact IH.
Qed.

Lemma removed_before_call_app (x y : list Event) :
  removed_before_call x = true -> removed_before_call y = true ->
  removed_before_call (x ++ y) = true.
Proof.
  intros Hx Hy. induction x as [|e x IH]; [exact Hy|].
  destruct e; cbn [app removed_before_call] in *; auto.
  apply andb_prop in Hx as [H1 H2]. rewrite (IH H2), andb_true_r.
  destruct x as [|e1 x]; [discriminate|].
  destruct e1; try discriminate; cbn [app].
  - destruct found; [discriminate|exact H1].
  - destruct x as [|e2 x]; [discriminate|].
    destruct e2; try discriminate. cbn [app]. exact H1.
Qed.

Lemma guarded_app (a b : list Event) :
  guarded a = true -> guarded b = true -> guarded (a ++ b) = true.
Proof.
  unfold guarded. intros Ha Hb. rewrite rev_app_distr.
  apply removed_before_call_app; assumption.
Qed.

Lemma silent_facts (b : list Event) :
  forallb is_silent b = true ->
  progress_steps b = [] /\ count is_call b = 0%nat /\ count is_return b = 0%nat
  /\ count is_finished b = 0%nat /\ has_seen b = false
  /\ count is_ok_return b = 0%nat
  /\ forallb (fun e => negb (is_call e)) b = true
  /\ quiet_after_seen b = true.
Proof.
  induction b as [|e b IH]; [repeat split; reflexivity|].
  cbn [forallb]. intros [He Hb]%andb_prop.
  destruct (IH Hb) as (H1 & H2 & H3 & H4 & H5 & H6 & H7 & H8).
  unfold count in *.
  destruct e; try discriminate; cbn; repeat split; assumption.
Qed.

Lemma silent_guarded (b : list Event) :
  forallb is_silent b = true -> guarded b = true.
Proof.
  unfold guarded. intros H.
  assert (Hr : forallb is_silent (rev b) = true).
  { rewrite forallb_forall in *. intros e He. apply H. apply in_rev. exact He. }
  induction (rev b) as [|e r IH]; [reflexivity|].
  cbn [forallb] in Hr. apply andb_prop in Hr as [He Hr].
  destruct e; try discriminate; cbn [removed_before_call]; auto.
Qed.

End TraceFacts.

Section WorkerFacts.

Variable cancel_at : option nat.
Variable layer_is_valid : string -> TableInfo -> bool.
Variable write_layer : string -> TableInfo -> string -> string -> option string.
Variable connect_error : option string.
Variable projects_in_db : string + list Project.
Variable write_error : string -> string -> option string.
Variable ET_fromstring : string -> string + Element.
Variable ET_tostring : Element -> string.
Variable selected : Selection.
Variable mode : nat.
Variable output_dir single_path : string.
Variable do_projects : bool.

Local Abbreviation INV := (Inv cancel_at selected mode output_dir single_path).
Local Abbreviation READ := (read_cancelled cancel_at).
Local Abbreviation LATE := (late cancel_at).
Local Abbreviation UNSEEN := (unseen cancel_at).
Local Abbreviation SINGLE_OK := (single_layer_ok selected single_path).
Local Abbreviation TABLE_OK := (per_table_call_ok output_dir).

Lemma late_app (w w' : World) (b : list Event) :
  trace w' = (trace w ++ b)%list -> LATE w -> LATE w'.
Proof.
  intros E [c [Hc Hlt]]. exists c. split; [exact Hc|].
  rewrite E, List.length_app. lia.
Qed.

Lemma unseen_not_seen (n j : nat) (loc : Locals) (w : World) :
  INV n j loc w -> UNSEEN w -> has_seen (trace w) = false.
Proof.
  intros HI Hu. destruct (has_seen (trace w)) eqn:E; [|reflexivity].
  destruct (inv_seen _ _ _ _ _ _ _ _ _ HI E) as [c [Hc Hlt]].
  specialize (Hu c Hc). lia.
Qed.

Lemma not_seen_quiet (b : list Event) :
  has_seen b = false -> quiet_after_seen b = true.
Proof.
  induction b as [|e b IH]; [reflexivity|].
  cbn [has_seen existsb quiet_after_seen].
  destruct (is_seen e); [discriminate|]. exact IH.
Qed.

Lemma silent_single (b : list Event) :
  forallb is_silent b = true -> Forall SINGLE_OK b /\ Forall TABLE_OK b.
Proof.
  induction b as [|e b IH]; [split; constructor|].
  cbn [forallb]. intros [He Hb]%andb_prop. destruct (IH Hb) as [H1 H2].
  split; constructor; try assumption; destruct e; try discriminate; exact I.
Qed.

(** Events that touch no count keep the invariant. *)
Lemma Inv_silent (n j : nat) (loc loc' : Locals) (w w' : World) (b : list Event) :
  INV n j loc w ->
  trace w' = (trace w ++ b)%list ->
  forallb is_silent b = true ->
  (j = 0%nat -> count is_doc b = 0%nat /\ exported_projects loc' = exported_projects loc) ->
  step loc' = step loc -> ok_count loc' = ok_count loc ->
  gpkg_count loc' = gpkg_count loc ->
  INV n j loc' w'.
Proof.
  intros HI E Hs Hdoc Hst Hok Hg.
  destruct (silent_facts b Hs) as (B1 & B2 & B3 & B4 & B5 & B6 & B7 & B8).
  destruct (silent_single b Hs) as [S1 S2].
  destruct HI as [I1 I2 I3 I4 I5 I6 I7 I8 I9 I10 I11 I12 I13].
  constructor; rewrite ?E, ?Hst, ?Hok, ?Hg.
  - rewrite progress_steps_app, B1, app_nil_r. exact I1.
  - rewrite count_app, B2. lia.
  - rewrite count_app, B3. lia.
  - exact I4.
  - rewrite has_seen_app, B5, orb_false_r. exact I5.
  - intros c Hc. specialize (I6 c Hc).
    pose proof (count_firstn_mono is_return c (trace w) b). lia.
  - rewrite count_app, B4, I7. reflexivity.
  - intros Hj. destruct (I8 Hj) as [D1 D2]. destruct (Hdoc Hj) as [D3 D4].
    rewrite count_app, D1, D3, D4. auto.
  - rewrite quiet_after_seen_app, I9, B7, B8. destruct (has_seen (trace w)); reflexivity.
  - rewrite has_seen_app, B5, orb_false_r. intros H. eapply late_app; eauto.
  - rewrite count_app, B6. lia.
  - intros Hm. apply Forall_app. split; [apply I12, Hm|exact S1].
  - intros Hm. destruct (I13 Hm) as (G1 & G2 & G3).
    split; [exact G1|]. split; [apply guarded_app; [exact G2|apply silent_guarded, Hs]|].
    apply Forall_app. split; [exact G3|exact S2].
Qed.

(** A read of the flag keeps the invariant. *)
Lemma Inv_read (n j : nat) (loc : Locals) (w : World) :
  INV n j loc w -> INV n j loc (READ w).2.
Proof.
  intros HI. unfold read_cancelled. cbn [snd].
  remember (match cancel_at with
            | Some c => bool_decide (c ≤ length (trace w))%nat
            | None => false
            end) as b eqn:Eb.
  destruct HI as [I1 I2 I3 I4 I5 I6 I7 I8 I9 I10 I11 I12 I13].
  constructor; cbn [trace].
  - rewrite progress_steps_app. cbn. rewrite app_nil_r. exact I1.
  - rewrite count_app. cbn. lia.
  - rewrite count_app. cbn. lia.
  - exact I4.
  - rewrite has_seen_app. destruct I5 as [H|H]; [left; rewrite H; reflexivity|right; exact H].
  - intros c Hc. specialize (I6 c Hc).
    pose proof (count_firstn_mono is_return c (trace w) [EvCancelRead b]). lia.
  - rewrite count_app, I7. reflexivity.
  - intros Hj. destruct (I8 Hj) as [D1 D2]. rewrite count_app, D1. auto.
  - rewrite quiet_after_seen_app, I9. destruct (has_seen (trace w)); [reflexivity|].
    cbn. destruct b; reflexivity.
  - rewrite has_seen_app. intros H. apply orb_prop in H as [H|H].
    + eapply (late_app w); [reflexivity|]. apply I10, H.
    + destruct b; [|discriminate].
      destruct cancel_at as [c|] eqn:Ec; [|discriminate].
      symmetry in Eb. apply bool_decide_eq_true_1 in Eb.
      exists c. split; [reflexivity|]. cbn [trace]. rewrite List.length_app. simpl. lia.
  - rewrite count_app. cbn. lia.
  - intros Hm. apply Forall_app. split; [apply I12, Hm|repeat constructor].
  - intros Hm. destruct (I13 Hm) as (G1 & G2 & G3).
    split; [exact G1|]. split; [apply guarded_app; [exact G2|reflexivity]|].
    apply Forall_app. split; [exact G3|repeat constructor].
Qed.

(** One relation: its progress notification, the call of the writer and
    its return. *)
Lemma Inv_relation (n k : nat) (loc loc' : Locals) (w w' : World) (b : list Event) :
  INV (S n) 0 loc w -> UNSEEN w ->
  trace w' = (trace w ++ b)%list ->
  progress_steps b = [S (step loc)] ->
  count is_call b = 1%nat -> count is_return b = 1%nat ->
  count is_finished b = 0%nat -> count is_doc b = 0%nat ->
  has_seen b = false -> count is_ok_return b = k ->
  (mode = 1%nat -> Forall SINGLE_OK b) ->
  (mode = 2%nat -> guarded b = true /\ Forall TABLE_OK b) ->
  step loc' = S (step loc) -> ok_count loc' = (ok_count loc + k)%nat ->
  (mode = 2%nat -> gpkg_count loc' = (gpkg_count loc + k)%nat) ->
  exported_projects loc' = exported_projects loc ->
  INV n 0 loc' w'.
Proof.
  intros HI Hu E B1 B2 B3 B4 B5 B6 B7 B9 B10 Hst Hok Hg Hex.
  pose proof (unseen_not_seen _ _ _ _ HI Hu) as Hns.
  destruct HI as [I1 I2 I3 I4 I5 I6 I7 I8 I9 I10 I11 I12 I13].
  constructor; rewrite ?E, ?Hst, ?Hok, ?Hex.
  - rewrite progress_steps_app, B1, I1. cbn [repeat]. rewrite !app_nil_r.
    rewrite seq_S. reflexivity.
  - rewrite count_app, B2. lia.
  - rewrite count_app, B3. lia.
  - lia.
  - right. rewrite Hns in I5. destruct I5 as [H|H]; [discriminate|lia].
  - intros c Hc. pose proof (count_firstn_all is_return c (trace w) b (Hu c Hc)). lia.
  - rewrite count_app, B4, I7. reflexivity.
  - intros _. destruct (I8 eq_refl) as [D1 D2]. rewrite count_app, D1, B5. auto.
  - rewrite quiet_after_seen_app, I9, Hns. apply not_seen_quiet in B6. rewrite B6. reflexivity.
  - rewrite has_seen_app, Hns, B6. discriminate.
  - rewrite count_app, B7. lia.
  - intros Hm. apply Forall_app. split; [apply I12, Hm|apply B9, Hm].
  - intros Hm. destruct (I13 Hm) as (G1 & G2 & G3).
    destruct (B10 Hm) as [B8 B11].
    split; [rewrite (Hg Hm); lia|].
    split; [apply guarded_app; assumption|].
    apply Forall_app. split; [exact G3|exact B11].
Qed.

(** Relations that a break leaves out. *)
Lemma Inv_weaken (k n j : nat) (loc : Locals) (w : World) :
  INV (k + n) j loc w -> k = 0%nat \/ has_seen (trace w) = true -> INV n j loc w.
Proof.
  intros HI H. destruct HI as [I1 I2 I3 I4 I5 I6 I7 I8 I9 I10 I11 I12 I13].
  constructor; try assumption; [lia|].
  destruct H as [->|H]; [exact I5|left; exact H].
Qed.

Lemma read_value (w : World) : (READ w).1 = flag_at cancel_at (length (trace w)).
Proof. reflexivity. Qed.

Lemma read_trace (w : World) :
  trace (READ w).2 = (trace w ++ [EvCancelRead (READ w).1])%list.
Proof. reflexivity. Qed.

Lemma read_false_unseen (w : World) : (READ w).1 = false -> UNSEEN (READ w).2.
Proof.
  rewrite read_value. unfold flag_at. intros H c Hc. rewrite Hc in H.
  apply bool_decide_eq_false_1 in H.
  rewrite read_trace, List.length_app. simpl. lia.
Qed.

(** The loop that stops when the flag is set: an invariant that reads of
    the flag keep, and that the body re-establishes for the rest of the
    list, holds at the end for what is left of the list, and something is
    left only when the flag was seen. *)
Lemma for_unless_cancelled_rule {A : Type} (body : A -> Locals -> M Locals)
    (I : list A -> Locals -> World -> Prop) :
  (forall l loc w, I l loc w -> I l loc (READ w).2) ->
  (forall x l loc w, I (x :: l) loc w -> UNSEEN w ->
                     I l (body x loc w).1 (body x loc w).2) ->
  forall l loc w, I l loc w ->
    let r := for_unless_cancelled READ body l loc w in
    exists rest, I rest r.1 r.2 /\ (rest = [] \/ has_seen (trace r.2) = true).
Proof.
  intros Hread Hbody. induction l as [|x l IH]; intros loc w HI; cbn zeta.
  - exists []. split; [exact HI|left; reflexivity].
  - cbn [for_unless_cancelled]. unfold bind.
    pose proof (Hread _ _ _ HI) as HI'.
    pose proof (read_false_unseen w) as Hu.
    pose proof (read_trace w) as Ht.
    destruct (READ w) as [c w1]. cbn [fst snd] in *.
    destruct c.
    + exists (x :: l). split; [exact HI'|right].
      cbn [ret snd]. rewrite Ht, has_seen_app. cbn. apply orb_true_r.
    + specialize (Hbody x l loc w1 HI' (Hu eq_refl)).
      destruct (body x loc w1) as [loc' w2]. cbn [fst snd] in Hbody.
      apply IH. exact Hbody.
Qed.

Local Abbreviation EXPORT := (export_table_to_gpkg layer_is_valid write_layer).
Local Abbreviation TOTAL := (total selected).

(** Unfold one relation body down to the events it appends. *)
Ltac unfold_body :=
  unfold per_schema_table, single_table, per_table_table, next_step,
    export_table_to_gpkg, record_outcome, remove_if_exists, os_remove,
    log_message, path_exists, emit, bind, ret;
  cbn [fst snd negb trace files].

Ltac solve_block :=
  eapply Inv_relation;
  [ eassumption | eassumption
  | cbn [trace]; rewrite <- ?List.app_assoc; reflexivity
  | reflexivity | reflexivity | reflexivity | reflexivity | reflexivity
  | reflexivity | reflexivity | .. ].

Lemma per_schema_table_inv (n : nat) (schema gp : string) (t : TableInfo)
    (loc : Locals) (w : World) :
  mode = 0%nat -> INV (S n) 0 loc w -> UNSEEN w ->
  let r := per_schema_table layer_is_valid write_layer selected schema gp t loc w in
  INV n 0 r.1 r.2.
Proof.
  intros Hm HI Hu. unfold_body.
  destruct (layer_is_valid schema t); cbn [negb fst snd].
  - destruct (bool_decide _); destruct (write_layer _ _ _ _); cbn [fst snd].
    all: solve_block.
    all: try (intros Hm'; congruence).
    all: cbn; try reflexivity; try lia.
  - solve_block.
    all: try (intros Hm'; congruence).
    all: cbn; try reflexivity; try lia.
Qed.

Lemma truthy_app (a b : string) : Py.truthy (a +:+ b) = Py.truthy a || Py.truthy b.
Proof. destruct a; [reflexivity|reflexivity]. Qed.

Lemma single_table_inv (n : nat) (schema : string) (t : TableInfo)
    (loc : Locals) (w : World) :
  mode = 1%nat -> INV (S n) 0 loc w -> UNSEEN w ->
  let r := single_table layer_is_valid write_layer selected single_path
             (bool_decide (1 < length selected)%nat) schema t loc w in
  INV n 0 r.1 r.2.
Proof.
  intros Hm HI Hu. unfold_body.
  assert (Hname : (if Py.truthy (if bool_decide (1 < length selected)%nat
                                 then schema +:+ "__" +:+ table t else table t)
                   then (if bool_decide (1 < length selected)%nat
                         then schema +:+ "__" +:+ table t else table t)
                   else table t)
                  = if bool_decide (1 < length selected)%nat
                    then schema +:+ "__" +:+ table t else table t).
  { destruct (bool_decide _).
    - rewrite truthy_app, truthy_app. cbn. rewrite orb_true_r. reflexivity.
    - destruct (table t); reflexivity. }
  destruct (layer_is_valid schema t); cbn [negb fst snd].
  - rewrite Hname.
    destruct (bool_decide (single_path ∈ _)); destruct (write_layer _ _ _ _); cbn [fst snd].
    all: solve_block.
    all: try (intros Hm'; congruence).
    all: try (intros _; repeat constructor).
    all: cbn; try reflexivity; try lia.
  - solve_block.
    all: try (intros Hm'; congruence).
    all: try (intros _; repeat constructor).
    all: cbn; try reflexivity; try lia.
Qed.

Lemma per_table_table_inv (n : nat) (schema : string) (t : TableInfo)
    (loc : Locals) (w : World) :
  mode = 2%nat -> INV (S n) 0 loc w -> UNSEEN w ->
  let r := per_table_table layer_is_valid write_layer selected schema
             (os_path_join output_dir schema) t loc w in
  INV n 0 r.1 r.2.
Proof.
  intros Hm HI Hu. unfold_body.
  set (gp := os_path_join (os_path_join output_dir schema) (table t +:+ ".gpkg")).
  destruct (bool_decide (gp ∈ _)); cbn [fst snd trace files];
    (destruct (layer_is_valid schema t); cbn [negb fst snd trace files];
     [ destruct (bool_decide (gp ∈ _)); destruct (write_layer _ _ _ _);
       cbn [fst snd trace files] | ]).
  all: solve_block.
  all: try (intros Hm'; congruence).
  all: try (intros _; split;
            [unfold guarded; cbn; rewrite ?String.eqb_refl; reflexivity
            |repeat constructor]).
  all: cbn; try reflexivity; try lia.
Qed.

(** *** The three schema loops *)

Lemma inner_loop_inv (n : nat) (body : TableInfo -> Locals -> M Locals)
    (tables : list TableInfo) (loc : Locals) (w : World) :
  (forall k t loc0 w0, INV (S k) 0 loc0 w0 -> UNSEEN w0 ->
                       INV k 0 (body t loc0 w0).1 (body t loc0 w0).2) ->
  INV (length tables + n) 0 loc w ->
  let r := for_unless_cancelled READ body tables loc w in
  INV n 0 r.1 r.2.
Proof.
  intros Hbody HI.
  destruct (for_unless_cancelled_rule body
              (fun rest l0 w0 => INV (length rest + n) 0 l0 w0)) with (l := tables)
              (loc := loc) (w := w) as [rest [H1 H2]].
  - intros l l0 w0 H. apply Inv_read, H.
  - intros x l l0 w0 H Hu. apply Hbody; [exact H|exact Hu].
  - exact HI.
  - cbn zeta. eapply Inv_weaken; [exact H1|].
    destruct H2 as [->|H2]; [left; reflexivity|right; exact H2].
Qed.

Lemma per_schema_schema_inv (n : nat) (item : string * list TableInfo)
    (loc : Locals) (w : World) :
  mode = 0%nat -> INV (length item.2 + n) 0 loc w -> UNSEEN w ->
  let r := per_schema_schema cancel_at layer_is_valid write_layer selected output_dir
             item loc w in
  INV n 0 r.1 r.2.
Proof.
  intros Hm HI Hu. destruct item as [schema tables]. cbn [snd] in HI.
  unfold per_schema_schema, remove_if_exists, os_remove, path_exists, bind, ret.
  cbn zeta.
  set (gp := os_path_join output_dir (schema +:+ ".gpkg")).
  destruct (bool_decide (gp ∈ files w)); cbn [fst snd].
  all: apply inner_loop_inv; [intros; apply per_schema_table_inv; assumption|].
  all: eapply Inv_silent;
    [ exact HI | cbn [trace]; rewrite <- ?List.app_assoc; reflexivity
    | reflexivity | intros _; split; reflexivity | reflexivity .. ].
Qed.

Lemma single_schema_inv (n : nat) (item : string * list TableInfo)
    (loc : Locals) (w : World) :
  mode = 1%nat -> INV (length item.2 + n) 0 loc w -> UNSEEN w ->
  let r := single_schema cancel_at layer_is_valid write_layer selected single_path
             (bool_decide (1 < length selected)%nat) item loc w in
  INV n 0 r.1 r.2.
Proof.
  intros Hm HI Hu. destruct item as [schema tables]. cbn [snd] in HI.
  unfold single_schema. cbn zeta.
  apply inner_loop_inv; [intros; apply single_table_inv; assumption|].
  eapply (Inv_silent _ _ loc _ w w []);
    [ exact HI | rewrite app_nil_r; reflexivity
    | reflexivity | intros _; split; reflexivity | reflexivity .. ].
Qed.

Lemma per_table_schema_inv (n : nat) (item : string * list TableInfo)
    (loc : Locals) (w : World) :
  mode = 2%nat -> INV (length item.2 + n) 0 loc w -> UNSEEN w ->
  let r := per_table_schema cancel_at layer_is_valid write_layer selected output_dir
             item loc w in
  INV n 0 r.1 r.2.
Proof.
  intros Hm HI Hu. destruct item as [schema tables]. cbn [snd] in HI.
  unfold per_table_schema, os_makedirs, emit, bind, ret. cbn zeta.
  apply inner_loop_inv; [intros; apply per_table_table_inv; assumption|].
  eapply Inv_silent;
    [ exact HI | cbn [trace]; reflexivity
    | reflexivity | intros _; split; reflexivity | reflexivity .. ].
Qed.

Lemma outer_loop_inv (body : string * list TableInfo -> Locals -> M Locals)
    (sel : Selection) (loc : Locals) (w : World) :
  (forall k item loc0 w0, INV (length item.2 + k) 0 loc0 w0 -> UNSEEN w0 ->
                          INV k 0 (body item loc0 w0).1 (body item loc0 w0).2) ->
  INV (total_relations sel) 0 loc w ->
  let r := for_unless_cancelled READ body sel loc w in
  INV 0 0 r.1 r.2.
Proof.
  intros Hbody HI.
  destruct (for_unless_cancelled_rule body
              (fun rest l0 w0 => INV (total_relations rest) 0 l0 w0)) with (l := sel)
              (loc := loc) (w := w) as [rest [H1 H2]].
  - intros l l0 w0 H. apply Inv_read, H.
  - intros x l l0 w0 H Hu. apply Hbody; [exact H|exact Hu].
  - exact HI.
  - cbn zeta. eapply (Inv_weaken (total_relations rest) 0).
    + rewrite Nat.add_0_r. exact H1.
    + destruct H2 as [->|H2]; [left; reflexivity|right; exact H2].
Qed.

Lemma Inv_initial (fs : gset string) :
  INV (total_relations selected) 0 initial_locals (mkWorld [] fs).
Proof.
  constructor; cbn; try reflexivity; try lia; auto.
Qed.

Lemma Inv_set_gpkg_count (n j k : nat) (loc : Locals) (w : World) :
  mode <> 2%nat -> INV n j loc w -> INV n j (set_gpkg_count k loc) w.
Proof.
  intros Hm [I1 I2 I3 I4 I5 I6 I7 I8 I9 I10 I11 I12 I13].
  constructor; try assumption. intros Hm'. congruence.
Qed.

Lemma Inv_set_layer_prefix_map (n j : nat) (m : gmap string string)
    (loc : Locals) (w : World) :
  INV n j loc w -> INV n j (set_layer_prefix_map m loc) w.
Proof.
  intros [I1 I2 I3 I4 I5 I6 I7 I8 I9 I10 I11 I12 I13]. constructor; assumption.
Qed.

(** The relation phase: every relation is accounted for at its end. *)
Lemma export_relations_inv (loc : Locals) (w : World) :
  (mode < 3)%nat -> INV (total_relations selected) 0 loc w ->
  let r := export_relations cancel_at layer_is_valid write_layer selected mode
             output_dir single_path loc w in
  INV 0 0 r.1 r.2.
Proof.
  intros Hlt HI.
  assert (Hcase : mode = 0%nat \/ mode = 1%nat \/ mode = 2%nat) by lia.
  destruct Hcase as [Hm|[Hm|Hm]].
  - assert (E : export_relations cancel_at layer_is_valid write_layer selected mode
                  output_dir single_path loc w
                = run_per_schema cancel_at layer_is_valid write_layer selected
                    output_dir loc w)
      by (unfold export_relations; rewrite Hm; reflexivity).
    cbn zeta. rewrite E. clear E.
    unfold run_per_schema, bind.
    pose proof (outer_loop_inv
                  (per_schema_schema cancel_at layer_is_valid write_layer selected output_dir)
                  selected loc w) as H.
    destruct (for_unless_cancelled _ _ _ _ _) as [loc1 w1]. cbn [fst snd] in *.
    apply Inv_set_gpkg_count; [lia|].
    apply H; [|exact HI].
    intros k item l0 w0 H0 Hu. apply per_schema_schema_inv; assumption.
  - assert (E : export_relations cancel_at layer_is_valid write_layer selected mode
                  output_dir single_path loc w
                = run_single cancel_at layer_is_valid write_layer selected
                    single_path loc w)
      by (unfold export_relations; rewrite Hm; reflexivity).
    cbn zeta. rewrite E. clear E.
    unfold run_single, bind. cbn zeta. rewrite length_map.
    set (pre := if Py.truthy single_path then _ else _).
    assert (Hpre : INV (total_relations selected) 0 loc (pre w).2).
    { subst pre. destruct (Py.truthy single_path); [|exact HI].
      unfold remove_if_exists, os_remove, path_exists, bind, ret.
      destruct (bool_decide _); cbn [fst snd].
      all: eapply Inv_silent;
        [ exact HI | cbn [trace]; rewrite <- ?List.app_assoc; reflexivity
        | reflexivity | intros _; split; reflexivity | reflexivity .. ]. }
    destruct (pre w) as [u w0]. cbn [snd] in Hpre.
    set (loc0 := if bool_decide (1 < length selected)%nat then _ else loc).
    assert (Hloc0 : INV (total_relations selected) 0 loc0 w0).
    { subst loc0. destruct (bool_decide _); [apply Inv_set_layer_prefix_map|]; exact Hpre. }
    pose proof (outer_loop_inv
                  (single_schema cancel_at layer_is_valid write_layer selected single_path
                     (bool_decide (1 < length selected)%nat))
                  selected loc0 w0) as H.
    destruct (for_unless_cancelled _ _ _ _ _) as [loc1 w1]. cbn [fst snd] in *.
    apply Inv_set_gpkg_count; [lia|].
    apply H; [|exact Hloc0].
    intros k item l0 w2 H0 Hu. apply single_schema_inv; assumption.
  - assert (E : export_relations cancel_at layer_is_valid write_layer selected mode
                  output_dir single_path loc w
                = run_per_table cancel_at layer_is_valid write_layer selected
                    output_dir loc w)
      by (unfold export_relations; rewrite Hm; reflexivity).
    cbn zeta. rewrite E. clear E.
    unfold run_per_table.
    apply outer_loop_inv; [|exact HI].
    intros k item l0 w0 H0 Hu. apply per_table_schema_inv; assumption.
Qed.

(** *** The project phase *)

Lemma Inv_doc_progress (n j : nat) (label : string) (loc : Locals) (w : World) :
  INV n j loc w ->
  INV n (S j) loc (mkWorld (trace w ++ [EvProgress (step loc) TOTAL label]) (files w)).
Proof.
  intros [I1 I2 I3 I4 I5 I6 I7 I8 I9 I10 I11 I12 I13].
  constructor; cbn [trace].
  - rewrite progress_steps_app, I1. cbn. rewrite <- List.app_assoc.
    f_equal. symmetry. apply (repeat_cons j (step loc)).
  - rewrite count_app. cbn. lia.
  - rewrite count_app. cbn. lia.
  - exact I4.
  - rewrite has_seen_app. destruct I5 as [H|H]; [left; rewrite H; reflexivity|right; exact H].
  - intros c Hc. specialize (I6 c Hc).
    pose proof (count_firstn_mono is_return c (trace w) [EvProgress (step loc) TOTAL label]).
    lia.
  - rewrite count_app, I7. reflexivity.
  - discriminate.
  - rewrite quiet_after_seen_app, I9. destruct (has_seen (trace w)); reflexivity.
  - rewrite has_seen_app. cbn. rewrite orb_false_r. intros H.
    eapply (late_app w); [reflexivity|]. apply I10, H.
  - rewrite count_app. cbn. lia.
  - intros Hm. apply Forall_app. split; [apply I12, Hm|repeat constructor].
  - intros Hm. destruct (I13 Hm) as (G1 & G2 & G3).
    split; [exact G1|]. split; [apply guarded_app; [exact G2|reflexivity]|].
    apply Forall_app. split; [exact G3|repeat constructor].
Qed.

Lemma log_all_trace (l : list LogEntry) (w : World) :
  trace (log_all l w).2 = (trace w ++ List.map (fun e => EvLog e.1 e.2) l)%list
  /\ files (log_all l w).2 = files w.
Proof.
  revert w. induction l as [|[level msg] l IH]; intros w.
  - cbn. rewrite app_nil_r. auto.
  - cbn [log_all]. unfold bind, log_message, emit.
    destruct (IH (mkWorld (trace w ++ [EvLog level msg]) (files w))) as [H1 H2].
    rewrite H1, H2. cbn [trace files List.map fst snd].
    rewrite <- List.app_assoc. auto.
Qed.

Lemma log_events_silent (l : list LogEntry) :
  forallb is_silent (List.map (fun e : LogEntry => EvLog e.1 e.2) l) = true.
Proof. induction l as [|e l IH]; [reflexivity|exact IH]. Qed.

Lemma export_project_inv (n j : nat) (proj : Project) (loc : Locals) (w : World) :
  INV n j loc w ->
  let r := export_project write_error ET_fromstring ET_tostring selected mode
             output_dir proj loc w in
  INV n (S j) r.1 r.2.
Proof.
  intros HI. unfold export_project, bind, emit. cbn zeta.
  destruct (rewrite_qgis_project_datasources _ _ _ _ _ _) as [xml rewrite_log].
  pose proof (Inv_doc_progress n j ("Project: " +:+ project_file_name (proj_name proj))
                loc w HI) as H1.
  set (w1 := mkWorld _ _) in *.
  destruct (log_all_trace rewrite_log w1) as [T1 T2].
  destruct (log_all rewrite_log w1) as [u w2]. cbn [snd] in T1, T2.
  destruct (write_error _ xml) as [e|]; unfold log_message, emit, ret; cbn [fst snd].
  all: eapply Inv_silent;
    [ exact H1
    | cbn [trace]; rewrite T1, <- ?List.app_assoc; reflexivity
    | rewrite forallb_app, log_events_silent; reflexivity
    | discriminate | reflexivity .. ].
Qed.

(** The project phase sends [j] further progress notifications, none
    when the phase is off or the flag was set by then. *)
Lemma export_projects_inv (n : nat) (loc loc' : Locals) (w w' : World) :
  INV n 0 loc w ->
  export_projects cancel_at connect_error projects_in_db write_error
    ET_fromstring ET_tostring selected mode output_dir do_projects loc w = (loc', w') ->
  exists j, INV n j loc' w'
            /\ (do_projects = false -> j = 0%nat)
            /\ (flag_at cancel_at (length (trace w)) = true -> j = 0%nat)
            /\ (do_projects = true -> has_seen (trace w') = true \/ (1 <= j)%nat).
Proof.
  intros HI E. unfold export_projects, bind in E.
  destruct do_projects.
  - pose proof (Inv_read n 0 loc w HI) as HR.
    pose proof (read_value w) as Hv. pose proof (read_trace w) as Ht.
    destruct (READ w) as [c w1]. cbn [fst snd] in *. unfold ret at 1 in E.
    cbv beta iota in E.
    destruct c; cbn [negb] in E.
    + unfold ret in E. apply pair_equal_spec in E as [<- <-].
      exists 0%nat. split; [exact HR|]. split; [discriminate|]. split; [reflexivity|].
      intros _. left. rewrite Ht, has_seen_app. cbn. apply orb_true_r.
    + pose proof (Inv_doc_progress n 0 "QGIS projects..." loc w1 HR) as H1.
      unfold emit at 1 in E. cbv beta iota in E.
      remember (mkWorld (trace w1 ++ [EvProgress (step loc) TOTAL "QGIS projects..."])
                  (files w1)) as w2 eqn:Ew2.
      clear Ew2.
      destruct connect_error as [e|].
      * unfold emit, log_message, emit, ret in E. cbv beta iota in E.
        apply pair_equal_spec in E as [<- <-]. exists 1%nat.
        split; [|split; [discriminate|split; [congruence|right; lia]]].
        eapply Inv_silent;
          [ exact H1 | cbn [trace]; rewrite <- ?List.app_assoc; reflexivity
          | reflexivity | discriminate | reflexivity .. ].
      * unfold emit at 1 in E. cbv beta iota in E.
        remember (mkWorld (trace w2 ++ [EvConnect true]) (files w2)) as w3 eqn:Ew3.
        assert (H3 : INV n 1 loc w3).
        { eapply Inv_silent;
            [ exact H1 | subst w3; cbn [trace]; reflexivity
            | reflexivity | discriminate | reflexivity .. ]. }
        clear Ew3.
        destruct projects_in_db as [e|projects].
        -- unfold log_message, emit, ret in E. cbv beta iota in E.
           apply pair_equal_spec in E as [<- <-]. exists 1%nat.
           split; [|split; [discriminate|split; [congruence|right; lia]]].
           eapply Inv_silent;
             [ exact H3 | cbn [trace]; rewrite <- ?List.app_assoc; reflexivity
             | reflexivity | discriminate | reflexivity .. ].
        -- destruct (for_unless_cancelled_rule
                       (export_project write_error ET_fromstring ET_tostring
                          selected mode output_dir)
                       (fun _ l0 w0 => exists j, (1 <= j)%nat /\ INV n j l0 w0))
             with (l := projects) (loc := loc) (w := w3) as [rest [[j [Hj HIj]] _]].
           ++ intros l l0 w0 [j [Hj H]]. exists j. split; [exact Hj|apply Inv_read, H].
           ++ intros x l l0 w0 [j [Hj H]] _. exists (S j). split; [lia|].
              apply export_project_inv, H.
           ++ exists 1%nat. split; [lia|exact H3].
           ++ destruct (for_unless_cancelled _ _ _ _ _) as [loc1 w4].
              cbn [fst snd] in HIj.
              unfold emit, ret in E. cbv beta iota in E.
              apply pair_equal_spec in E as [<- <-]. exists j.
              split; [|split; [discriminate|split; [congruence|right; exact Hj]]].
              eapply Inv_silent;
                [ exact HIj | cbn [trace]; reflexivity
                | reflexivity | intros ->; lia | reflexivity .. ].
  - unfold ret in E. apply pair_equal_spec in E as [<- <-]. exists 0%nat. split; [exact HI|].
    split; [reflexivity|]. split; [reflexivity|discriminate].
Qed.

(** *** The whole run *)

Local Abbreviation RUN :=
  (run cancel_at layer_is_valid write_layer connect_error projects_in_db write_error
     ET_fromstring ET_tostring selected mode output_dir single_path do_projects).
Local Abbreviation RELATIONS :=
  (export_relations cancel_at layer_is_valid write_layer selected mode output_dir
     single_path).

Lemma late_flag (w : World) : LATE w -> flag_at cancel_at (length (trace w)) = true.
Proof.
  intros [c [Hc Hlt]]. unfold flag_at. rewrite Hc.
  apply bool_decide_eq_true_2. lia.
Qed.

(** The shape of a run: the relation phase, the project phase, the last
    read of the flag and the result notification. *)
Lemma run_summary (fs : gset string) (res : ExportResult) (w : World) :
  RUN (mkWorld [] fs) = (res, w) ->
  exists n j loc1 w1 loc2 w2,
    RELATIONS initial_locals (mkWorld [] fs) = (loc1, w1)
    /\ INV n 0 loc1 w1 /\ INV n j loc2 w2
    /\ ((mode < 3)%nat -> n = 0%nat)
    /\ trace w = (trace w2 ++ [EvCancelRead (res_cancelled res); EvFinished res])%list
    /\ res_cancelled res = flag_at cancel_at (length (trace w2))
    /\ res_ok_count res = ok_count loc2 /\ res_gpkg_count res = gpkg_count loc2
    /\ res_exported_projects res = exported_projects loc2
    /\ res_total res = total_relations selected
    /\ (do_projects = false -> j = 0%nat)
    /\ (flag_at cancel_at (length (trace w1)) = true -> j = 0%nat)
    /\ (do_projects = true -> has_seen (trace w2) = true \/ (1 <= j)%nat).
Proof.
  intros E. unfold run, bind in E.
  destruct (RELATIONS initial_locals (mkWorld [] fs)) as [loc1 w1] eqn:E1.
  destruct (export_projects _ _ _ _ _ _ _ _ _ _ loc1 w1) as [loc2 w2] eqn:E2.
  assert (Hrel : exists n, INV n 0 loc1 w1 /\ ((mode < 3)%nat -> n = 0%nat)).
  { destruct (lt_dec mode 3) as [Hlt|Hge].
    - exists 0%nat. split; [|reflexivity].
      pose proof (export_relations_inv initial_locals (mkWorld [] fs) Hlt (Inv_initial fs)) as H.
      cbn zeta in H. rewrite E1 in H. exact H.
    - exists (total_relations selected). split; [|lia].
      assert (Eret : RELATIONS initial_locals (mkWorld [] fs)
                     = (initial_locals, mkWorld [] fs)).
      { clear -Hge. unfold export_relations.
        destruct mode as [|[|[|m]]]; try lia. reflexivity. }
      rewrite Eret in E1. apply pair_equal_spec in E1 as [<- <-]. apply Inv_initial. }
  destruct Hrel as [n [H1 Hn]].
  destruct (export_projects_inv n loc1 loc2 w1 w2 H1 E2) as [j [H2 [J1 [J2 J3]]]].
  unfold finish, bind, emit, ret in E. cbv beta iota in E.
  apply pair_equal_spec in E as [<- <-].
  exists n, j, loc1, w1, loc2, w2. cbn [trace fst snd res_cancelled res_ok_count
    res_gpkg_count res_exported_projects res_total].
  rewrite <- List.app_assoc.
  split; [reflexivity|]. split; [exact H1|]. split; [exact H2|].
  split; [exact Hn|]. do 6 (split; [reflexivity|]).
  split; [exact J1|]. split; [exact J2|exact J3].
Qed.

Lemma not_cancelled_complete (n j : nat) (loc : Locals) (w : World) :
  INV n j loc w -> flag_at cancel_at (length (trace w)) = false ->
  has_seen (trace w) = false /\ (step loc + n = total_relations selected)%nat.
Proof.
  intros HI Hf.
  assert (Hs : has_seen (trace w) = false).
  { destruct (has_seen (trace w)) eqn:E; [|reflexivity].
    apply (inv_seen _ _ _ _ _ _ _ _ _ HI), late_flag in E. congruence. }
  split; [exact Hs|].
  destruct (inv_complete _ _ _ _ _ _ _ _ _ HI) as [H|H]; [congruence|exact H].
Qed.


(** C2. When the request comes with k relations processed, and in time
    for a read of the flag (so whenever k is less than the number of
    relations), the result is cancelled, at most k + 1 relations are
    handed to the writer, none after a read that found the flag set; and
    when the request comes by the end of the relation phase the project
    phase does nothing. *)
Theorem cancel_stops_exports (fs : gset string) (c k : nat) :
  cancel_at = Some c ->
  let r := run cancel_at layer_is_valid write_layer connect_error projects_in_db
             write_error ET_fromstring ET_tostring selected mode output_dir
             single_path do_projects (mkWorld [] fs) in
  let rel := export_relations cancel_at layer_is_valid write_layer selected mode
               output_dir single_path initial_locals (mkWorld [] fs) in
  count is_return (firstn c (trace r.2)) = k ->
  ((k < total_relations selected)%nat /\ (mode < 3)%nat)
  \/ (c + 2 <= length (trace r.2))%nat ->
  res_cancelled r.1 = true
  /\ (count is_call (trace r.2) <= k + 1)%nat
  /\ quiet_after_seen (trace r.2) = true
  /\ ((c <= length (trace rel.2))%nat ->
      count is_doc (trace r.2) = 0%nat
      /\ res_exported_projects r.1 = []
      /\ length (progress_steps (trace r.2)) = count is_call (trace r.2)).
Proof.
  intros Hcancel r rel. subst r rel.
  destruct (RUN (mkWorld [] fs)) as [res w] eqn:E. cbn [fst snd].
  destruct (run_summary fs res w E)
    as (n & j & loc1 & w1 & loc2 & w2 & E1 & H1 & H2 & Hn & Ht & Hc & _ & _ & Hex & _ & J1 & J2 & J3).
  rewrite E1. cbn [snd]. rewrite Ht. intros Hk Hobs.
  assert (Hin : (c <= length (trace w2))%nat).
  { destruct Hobs as [[Hlt Hm]|Hlen].
    - destruct (le_lt_dec c (length (trace w2))) as [H|H]; [exact H|exfalso].
      assert (Hf : flag_at cancel_at (length (trace w2)) = false).
      { unfold flag_at. rewrite Hcancel. apply bool_decide_eq_false_2. lia. }
      destruct (not_cancelled_complete _ _ _ _ H2 Hf) as [_ Hs].
      rewrite (Hn Hm) in Hs.
      pose proof (inv_returns _ _ _ _ _ _ _ _ _ H2) as Hr.
      pose proof (count_firstn_all is_return c (trace w2)
                    [EvCancelRead (res_cancelled res); EvFinished res]) as Hge.
      lia.
    - rewrite List.length_app in Hlen. simpl in Hlen. lia. }
  split; [|split; [|split]].
  - rewrite Hc. unfold flag_at. rewrite Hcancel. apply bool_decide_eq_true_2. exact Hin.
  - rewrite count_app. cbn.
    pose proof (inv_calls _ _ _ _ _ _ _ _ _ H2) as Hcalls.
    pose proof (inv_requested _ _ _ _ _ _ _ _ _ H2 c Hcancel) as Hreq.
    pose proof (count_firstn_mono is_return c (trace w2)
                  [EvCancelRead (res_cancelled res); EvFinished res]) as Hmono.
    lia.
  - rewrite quiet_after_seen_app, (inv_quiet _ _ _ _ _ _ _ _ _ H2).
    destruct (has_seen (trace w2)); [reflexivity|].
    cbn. destruct (res_cancelled res); reflexivity.
  - intros Hrel.
    assert (Hj : j = 0%nat).
    { apply J2. unfold flag_at. rewrite Hcancel. apply bool_decide_eq_true_2. exact Hrel. }
    subst j.
    destruct (inv_relations_only _ _ _ _ _ _ _ _ _ H2 eq_refl) as [D1 D2].
    split; [|split].
    + rewrite count_app, D1. reflexivity.
    + rewrite Hex. exact D2.
    + rewrite progress_steps_app, count_app, (inv_progress _ _ _ _ _ _ _ _ _ H2),
        (inv_calls _ _ _ _ _ _ _ _ _ H2).
      cbn. rewrite !app_nil_r, length_seq. lia.
Qed.

(** C6. In Single mode every layer is written to the single container;
    with more than one schema selected its name is the schema, two
    underscores and the table, and with one schema it is the table. *)
Theorem single_mode_layer_names (fs : gset string) :
  mode = 1%nat ->
  let r := run cancel_at layer_is_valid write_layer connect_error projects_in_db
             write_error ET_fromstring ET_tostring selected mode output_dir
             single_path do_projects (mkWorld [] fs) in
  forall s t p ln a,
    In (EvWriteLayer s t p ln a) (trace r.2) ->
    p = single_path
    /\ ((1 < length selected)%nat -> ln = s +:+ "__" +:+ table t)
    /\ (length selected = 1%nat -> ln = table t).
Proof.
  intros Hm r. subst r.
  destruct (RUN (mkWorld [] fs)) as [res w] eqn:E. cbn [fst snd].
  destruct (run_summary fs res w E)
    as (n & j & loc1 & w1 & loc2 & w2 & E1 & H1 & H2 & Hn & Ht & _).
  intros s t p ln a Hin. rewrite Ht in Hin.
  apply in_app_or in Hin as [Hin|Hin].
  - pose proof (inv_single _ _ _ _ _ _ _ _ _ H2 Hm) as Hall.
    rewrite List.Forall_forall in Hall. specialize (Hall _ Hin). cbn in Hall.
    destruct Hall as [-> ->]. split; [reflexivity|].
    destruct (bool_decide (1 < length selected)%nat) eqn:Eb.
    + apply bool_decide_eq_true_1 in Eb. split; [reflexivity|lia].
    + apply bool_decide_eq_false_1 in Eb. split; [lia|reflexivity].
  - destruct Hin as [Hin|[Hin|[]]]; discriminate.
Qed.

(** *** Paths and the removal of old containers *)

Lemma removed_before_call_split (x y : list Event) (s : string) (t : TableInfo)
    (p : string) (o : option string) :
  removed_before_call (x ++ EvCall s t p o :: y) = true ->
  (exists y', y = EvExists p false :: y')
  \/ (exists y', y = EvRemove p :: EvExists p true :: y').
Proof.
  induction x as [|e x IH]; cbn [app removed_before_call].
  - intros H. apply andb_prop in H as [H _].
    destruct y as [|e1 y]; [discriminate|].
    destruct e1; try discriminate.
    + destruct found; [discriminate|]. apply String.eqb_eq in H. subst. left. eauto.
    + destruct y as [|e2 y]; [discriminate|].
      destruct e2; try discriminate. destruct found; [|discriminate].
      apply andb_prop in H as [Ha Hb].
      apply String.eqb_eq in Ha. apply String.eqb_eq in Hb. subst. right. eauto.
  - destruct e; intros H; try (apply IH; exact H).
    apply andb_prop in H as [_ H]. apply IH. exact H.
Qed.

Lemma guarded_spec (tr : list Event) :
  guarded tr = true ->
  forall pre post s t p o,
    tr = (pre ++ EvCall s t p o :: post)%list ->
    (exists pre', pre = pre' ++ [EvExists p false])%list
    \/ (exists pre', pre = pre' ++ [EvExists p true; EvRemove p])%list.
Proof.
  unfold guarded. intros H pre post s t p o ->.
  rewrite rev_app_distr in H. cbn [rev] in H. rewrite <- List.app_assoc in H.
  cbn [app] in H.
  destruct (removed_before_call_split _ _ _ _ _ _ H) as [[y' Hy]|[y' Hy]].
  - left. exists (rev y'). rewrite <- (rev_involutive pre), Hy. reflexivity.
  - right. exists (rev y'). rewrite <- (rev_involutive pre), Hy. cbn [rev].
    rewrite <- List.app_assoc. reflexivity.
Qed.

Lemma os_path_join_plain (a b : string) :
  a <> "" -> Py.endswith a "/" = false -> Py.startswith b "/" = false ->
  os_path_join a b = a +:+ "/" +:+ b.
Proof.
  intros Ha He Hs. unfold os_path_join. rewrite Hs, He, (truthy_ne _ Ha). reflexivity.
Qed.

Lemma endswith_char_app (a s : string) (c : ascii) :
  s <> "" -> Py.endswith (a +:+ s) (String c "") = Py.endswith s (String c "").
Proof.
  intros Hs. induction a as [|x a IH]; [reflexivity|].
  rewrite sapp_cons. cbn [Py.endswith].
  assert (String.eqb (String x (a +:+ s)) (String c "") = false) as ->; [|exact IH].
  apply String.eqb_neq. intros [= _ H].
  destruct a; [rewrite sapp_empty_l in H; congruence|].
  rewrite sapp_cons in H. discriminate.
Qed.

Lemma startswith_char_app (a b : string) (c : ascii) :
  Py.startswith a (String c "") = false ->
  Py.startswith b (String c "") = false ->
  Py.startswith (a +:+ b) (String c "") = false.
Proof.
  destruct a as [|x a]; [intros _ H; exact H|]. intros H _.
  unfold Py.startswith in *. rewrite sapp_cons. cbn in *.
  destruct (ascii_dec c x); [|reflexivity]. destruct a; discriminate.
Qed.

(** The container path of PerTable mode, written out. *)
Lemma per_table_path_plain (s tname : string) :
  output_dir <> "" -> Py.endswith output_dir "/" = false ->
  s <> "" -> Py.startswith s "/" = false -> Py.endswith s "/" = false ->
  Py.startswith tname "/" = false ->
  os_path_join (os_path_join output_dir s) (tname +:+ ".gpkg")
  = output_dir +:+ "/" +:+ s +:+ "/" +:+ tname +:+ ".gpkg".
Proof.
  intros Ho Hoe Hs Hss Hse Ht.
  rewrite (os_path_join_plain output_dir s Ho Hoe Hss).
  rewrite os_path_join_plain.
  - rewrite !sapp_assoc. reflexivity.
  - destruct output_dir; [congruence|discriminate].
  - rewrite <- sapp_assoc. rewrite endswith_char_app by exact Hs. exact Hse.
  - apply startswith_char_app; [exact Ht|reflexivity].
Qed.

Lemma count_return_split (tr : list Event) :
  count is_return tr = (count is_ok_return tr + count is_failed_return tr)%nat.
Proof.
  unfold count. induction tr as [|e tr IH]; [reflexivity|].
  destruct e; try exact IH. destruct ok; cbn [List.filter is_return is_ok_return
    is_failed_return length] in *; lia.
Qed.

(** C7, amended. In PerTable mode the reported container count is the
    number of relations exported with success; in a run that is not
    cancelled every relation is handed to the writer, so the count is the
    number of relations less the failures.  Each relation goes to the
    path joined from the output directory, the schema and the table name
    with ".gpkg", and the writer is called right after a look at that path
    that found nothing, or found a file that was then removed. *)
Theorem per_table_containers (fs : gset string) :
  mode = 2%nat ->
  let r := run cancel_at layer_is_valid write_layer connect_error projects_in_db
             write_error ET_fromstring ET_tostring selected mode output_dir
             single_path do_projects (mkWorld [] fs) in
  res_gpkg_count r.1 = count is_ok_return (trace r.2)
  /\ (res_cancelled r.1 = false ->
      count is_return (trace r.2) = total_relations selected
      /\ res_gpkg_count r.1
         = (total_relations selected - count is_failed_return (trace r.2))%nat)
  /\ (forall s t p o,
        In (EvCall s t p o) (trace r.2) ->
        p = os_path_join (os_path_join output_dir s) (table t +:+ ".gpkg")
        /\ (output_dir <> "" -> Py.endswith output_dir "/" = false ->
            s <> "" -> Py.startswith s "/" = false -> Py.endswith s "/" = false ->
            Py.startswith (table t) "/" = false ->
            p = output_dir +:+ "/" +:+ s +:+ "/" +:+ table t +:+ ".gpkg"))
  /\ (forall pre post s t p o,
        trace r.2 = (pre ++ EvCall s t p o :: post)%list ->
        (exists pre', pre = pre' ++ [EvExists p false])%list
        \/ (exists pre', pre = pre' ++ [EvExists p true; EvRemove p])%list).
Proof.
  intros Hm r. subst r.
  destruct (RUN (mkWorld [] fs)) as [res w] eqn:E. cbn [fst snd].
  destruct (run_summary fs res w E)
    as (n & j & loc1 & w1 & loc2 & w2 & E1 & H1 & H2 & Hn & Ht & Hc & Hok & Hg & _).
  assert (Hn0 : n = 0%nat) by (apply Hn; lia). subst n.
  destruct (inv_per_table _ _ _ _ _ _ _ _ _ H2 Hm) as (G1 & G2 & G3).
  pose proof (inv_ok _ _ _ _ _ _ _ _ _ H2) as Hcount.
  assert (Hokc : count is_ok_return (trace w) = count is_ok_return (trace w2))
    by (rewrite Ht, count_app; cbn; lia).
  split; [|split; [|split]].
  - rewrite Hg, G1, Hcount, Hokc. reflexivity.
  - intros Hf. rewrite Hc in Hf.
    destruct (not_cancelled_complete _ _ _ _ H2 Hf) as [_ Hs].
    pose proof (inv_returns _ _ _ _ _ _ _ _ _ H2) as Hr.
    assert (Hrc : count is_return (trace w) = count is_return (trace w2))
      by (rewrite Ht, count_app; cbn; lia).
    pose proof (count_return_split (trace w)) as Hsplit.
    split; [lia|]. rewrite Hg, G1, Hcount. lia.
  - intros s t p o Hin. rewrite Ht in Hin.
    assert (Hp : p = os_path_join (os_path_join output_dir s) (table t +:+ ".gpkg")).
    { apply in_app_or in Hin as [Hin|Hin].
      - rewrite List.Forall_forall in G3. destruct (G3 _ Hin) as [Hp _]. exact Hp.
      - destruct Hin as [Hin|[Hin|[]]]; discriminate. }
    split; [exact Hp|]. intros. rewrite Hp. apply per_table_path_plain; assumption.
  - apply guarded_spec. rewrite Ht. apply guarded_app; [exact G2|reflexivity].
Qed.

(** *** The accounts of a run *)

Local Abbreviation INV2 := (Inv2 selected mode output_dir).
Local Abbreviation EVENT_OK := (event_ok selected mode output_dir).

Lemma failed_msgs_app (a b : list Event) :
  failed_msgs (a ++ b) = (failed_msgs a ++ failed_msgs b)%list.
Proof. unfold failed_msgs. apply omap_app. Qed.

Lemma written_files_app (a b : list Event) :
  written_files (a ++ b) = (written_files a ++ written_files b)%list.
Proof. unfold written_files. apply omap_app. Qed.

Lemma project_file_name_ends (pn : string) : ends_qgs (project_file_name pn) = true.
Proof.
  unfold ends_qgs, project_file_name.
  destruct (Py.endswith (Py.lower pn) ".qgz");
    [|destruct (Py.endswith (Py.lower pn) ".qgs") eqn:Es]; cbn [negb].
  - rewrite lower_app. apply endswith_app.
  - exact Es.
  - rewrite lower_app. apply endswith_app.
Qed.

(** The events [b] and the change of the local variables keep the
    accounts. *)
Lemma Inv2_step (ph : bool) (op op' : nat) (loc loc' : Locals) (w w' : World)
    (b : list Event) :
  INV2 ph op loc w ->
  trace w' = (trace w ++ b)%list ->
  Forall EVENT_OK b ->
  (ph = false -> errors loc' = (errors loc ++ failed_msgs b)%list) ->
  (ph = true ->
   failed_msgs b = []
   /\ exists errs, errors loc' = (errors loc ++ errs)%list /\ Forall project_error errs) ->
  List.map (os_path_join output_dir) (exported_projects loc')
  = (List.map (os_path_join output_dir) (exported_projects loc) ++ written_files b)%list ->
  (Forall (fun pn => ends_qgs pn = true) (exported_projects loc) ->
   Forall (fun pn => ends_qgs pn = true) (exported_projects loc')) ->
  (count is_connect_ok b + op = count is_close b + op')%nat ->
  INV2 ph op' loc' w'.
Proof.
  intros [I1 [pe [I2 [I3 I4]]] I5 I6 I7] E B1 B2 B3 B4 B5 B6.
  constructor; rewrite ?E.
  - apply Forall_app. split; assumption.
  - destruct ph.
    + destruct (B3 eq_refl) as [F [errs [He Hp]]].
      exists (pe ++ errs)%list. rewrite failed_msgs_app, F, app_nil_r, He, I2.
      rewrite <- List.app_assoc. split; [reflexivity|].
      split; [apply Forall_app; split; assumption|discriminate].
    + exists []. rewrite failed_msgs_app, (B2 eq_refl), I2, (I4 eq_refl), !app_nil_r.
      split; [reflexivity|]. split; [constructor|reflexivity].
  - rewrite written_files_app, B4, I5. reflexivity.
  - apply B5, I6.
  - rewrite !count_app. lia.
Qed.

Lemma Inv2_read (ph : bool) (op : nat) (loc : Locals) (w : World) :
  INV2 ph op loc w -> INV2 ph op loc (READ w).2.
Proof.
  intros HI. eapply (Inv2_step ph op op loc loc w _ [EvCancelRead _]);
    [exact HI|reflexivity|repeat constructor| | | | |].
  - intros _. cbn. rewrite app_nil_r. reflexivity.
  - intros _. split; [reflexivity|]. exists []. rewrite app_nil_r. split; [reflexivity|constructor].
  - cbn. rewrite app_nil_r. reflexivity.
  - auto.
  - cbn. lia.
Qed.

Ltac event_goal :=
  cbn [event_ok];
  first
    [ exact I
    | reflexivity
    | intros ?; first [congruence | split; reflexivity | split; congruence]
    | split; intros ?; first [congruence | split; reflexivity | split; congruence] ].

Ltac events_goal :=
  cbn [app]; repeat (apply List.Forall_cons; [event_goal|]); try apply List.Forall_nil.

Ltac solve_accounts :=
  eapply (Inv2_step false);
  [ eassumption
  | cbn [trace]; rewrite <- ?List.app_assoc; reflexivity
  | events_goal
  | intros _; cbn; rewrite ?app_nil_r; reflexivity
  | discriminate
  | cbn; rewrite ?app_nil_r; reflexivity
  | auto
  | cbn; lia ].

Lemma per_schema_table_inv2 (schema gp : string) (t : TableInfo)
    (loc : Locals) (w : World) :
  mode = 0%nat -> gp = os_path_join output_dir (schema +:+ ".gpkg") ->
  INV2 false 0 loc w ->
  let r := per_schema_table layer_is_valid write_layer selected schema gp t loc w in
  INV2 false 0 r.1 r.2.
Proof.
  intros Hm Hgp HI. unfold_body.
  destruct (layer_is_valid schema t); cbn [negb fst snd].
  - destruct (bool_decide _); destruct (write_layer _ _ _ _); cbn [fst snd].
    all: solve_accounts.
  - solve_accounts.
Qed.

Lemma single_table_inv2 (multi : bool) (schema : string) (t : TableInfo)
    (loc : Locals) (w : World) :
  mode = 1%nat -> INV2 false 0 loc w ->
  let r := single_table layer_is_valid write_layer selected single_path
             multi schema t loc w in
  INV2 false 0 r.1 r.2.
Proof.
  intros Hm HI. unfold_body.
  destruct (layer_is_valid schema t); cbn [negb fst snd].
  - destruct (bool_decide (single_path ∈ _)); destruct (write_layer _ _ _ _); cbn [fst snd].
    all: solve_accounts.
  - solve_accounts.
Qed.

Lemma per_table_table_inv2 (schema schema_dir : string) (t : TableInfo)
    (loc : Locals) (w : World) :
  mode = 2%nat -> INV2 false 0 loc w ->
  let r := per_table_table layer_is_valid write_layer selected schema schema_dir t loc w in
  INV2 false 0 r.1 r.2.
Proof.
  intros Hm HI. unfold_body.
  set (gp := os_path_join schema_dir (table t +:+ ".gpkg")).
  destruct (bool_decide (gp ∈ files w)) eqn:Ex; cbn [fst snd trace files].
  - assert (Hgone : bool_decide (gp ∈ files w ∖ {[gp]}) = false).
    { apply bool_decide_eq_false_2. intros H. apply elem_of_difference in H as [_ H].
      apply H, elem_of_singleton. reflexivity. }
    destruct (layer_is_valid schema t); cbn [negb fst snd trace files].
    + rewrite Hgone. destruct (write_layer _ _ _ _); cbn [fst snd].
      all: solve_accounts.
    + solve_accounts.
  - destruct (layer_is_valid schema t); cbn [negb fst snd trace files].
    + rewrite Ex. destruct (write_layer _ _ _ _); cbn [fst snd].
      all: solve_accounts.
    + solve_accounts.
Qed.

(** A change of the local variables that touches neither the errors
    nor the exported projects keeps the accounts. *)
Lemma Inv2_locals (ph : bool) (op : nat) (loc loc' : Locals) (w w' : World) :
  INV2 ph op loc w -> trace w' = trace w ->
  errors loc' = errors loc -> exported_projects loc' = exported_projects loc ->
  INV2 ph op loc' w'.
Proof.
  intros [I1 I2 I3 I4 I5] E E1 E2. constructor; rewrite ?E, ?E1, ?E2; assumption.
Qed.

Lemma Inv2_projects (op : nat) (loc : Locals) (w : World) :
  INV2 false op loc w -> INV2 true op loc w.
Proof.
  intros [I1 [pe [I2 [I3 I4]]] I5 I6 I7]. constructor; try assumption.
  exists pe. split; [exact I2|]. split; [exact I3|discriminate].
Qed.

Lemma loop_inv2 {A : Type} (ph : bool) (op : nat) (body : A -> Locals -> M Locals)
    (l : list A) (loc : Locals) (w : World) :
  (forall x loc0 w0, INV2 ph op loc0 w0 ->
                     INV2 ph op (body x loc0 w0).1 (body x loc0 w0).2) ->
  INV2 ph op loc w ->
  let r := for_unless_cancelled READ body l loc w in
  INV2 ph op r.1 r.2.
Proof.
  intros Hbody. cbn zeta. revert loc w. induction l as [|x l IH]; intros loc w HI.
  - exact HI.
  - cbn [for_unless_cancelled]. unfold bind.
    pose proof (Inv2_read ph op loc w HI) as HR.
    destruct (READ w) as [c w1]. cbn [snd] in HR. destruct c; [exact HR|].
    specialize (Hbody x loc w1 HR). destruct (body x loc w1) as [loc' w2].
    apply IH. exact Hbody.
Qed.

Lemma per_schema_schema_inv2 (item : string * list TableInfo)
    (loc : Locals) (w : World) :
  mode = 0%nat -> INV2 false 0 loc w ->
  let r := per_schema_schema cancel_at layer_is_valid write_layer selected output_dir
             item loc w in
  INV2 false 0 r.1 r.2.
Proof.
  intros Hm HI. destruct item as [schema tables].
  unfold per_schema_schema, remove_if_exists, os_remove, path_exists, bind, ret.
  cbn zeta.
  set (gp := os_path_join output_dir (schema +:+ ".gpkg")).
  destruct (bool_decide (gp ∈ files w)); cbn [fst snd].
  all: apply loop_inv2;
    [intros; apply per_schema_table_inv2; [exact Hm|reflexivity|assumption]|].
  all: solve_accounts.
Qed.

Lemma single_schema_inv2 (multi : bool) (item : string * list TableInfo)
    (loc : Locals) (w : World) :
  mode = 1%nat -> INV2 false 0 loc w ->
  let r := single_schema cancel_at layer_is_valid write_layer selected single_path
             multi item loc w in
  INV2 false 0 r.1 r.2.
Proof.
  intros Hm HI. destruct item as [schema tables].
  unfold single_schema. cbn zeta.
  apply loop_inv2; [intros; apply single_table_inv2; assumption|].
  eapply Inv2_locals; [exact HI|reflexivity..].
Qed.

Lemma per_table_schema_inv2 (item : string * list TableInfo)
    (loc : Locals) (w : World) :
  mode = 2%nat -> INV2 false 0 loc w ->
  let r := per_table_schema cancel_at layer_is_valid write_layer selected output_dir
             item loc w in
  INV2 false 0 r.1 r.2.
Proof.
  intros Hm HI. destruct item as [schema tables].
  unfold per_table_schema, os_makedirs, emit, bind. cbn zeta.
  apply loop_inv2; [intros; apply per_table_table_inv2; assumption|].
  solve_accounts.
Qed.

Lemma export_relations_inv2 (loc : Locals) (w : World) :
  INV2 false 0 loc w ->
  let r := export_relations cancel_at layer_is_valid write_layer selected mode
             output_dir single_path loc w in
  INV2 false 0 r.1 r.2.
Proof.
  intros HI.
  assert (Hcase : mode = 0%nat \/ mode = 1%nat \/ mode = 2%nat \/ (3 <= mode)%nat) by lia.
  destruct Hcase as [Hm|[Hm|[Hm|Hm]]].
  - assert (E : export_relations cancel_at layer_is_valid write_layer selected mode
                  output_dir single_path loc w
                = run_per_schema cancel_at layer_is_valid write_layer selected
                    output_dir loc w)
      by (unfold export_relations; rewrite Hm; reflexivity).
    cbn zeta. rewrite E. clear E. unfold run_per_schema, bind.
    pose proof (loop_inv2 false 0
                  (per_schema_schema cancel_at layer_is_valid write_layer selected output_dir)
                  selected loc w) as H.
    destruct (for_unless_cancelled _ _ _ _ _) as [loc1 w1]. cbn [fst snd] in *.
    eapply Inv2_locals; [apply H|reflexivity..]; [|exact HI].
    intros. apply per_schema_schema_inv2; assumption.
  - assert (E : export_relations cancel_at layer_is_valid write_layer selected mode
                  output_dir single_path loc w
                = run_single cancel_at layer_is_valid write_layer selected
                    single_path loc w)
      by (unfold export_relations; rewrite Hm; reflexivity).
    cbn zeta. rewrite E. clear E. unfold run_single, bind. cbn zeta.
    set (pre := if Py.truthy single_path then _ else _).
    assert (Hpre : INV2 false 0 loc (pre w).2).
    { subst pre. destruct (Py.truthy single_path); [|exact HI].
      unfold remove_if_exists, os_remove, path_exists, bind, ret.
      destruct (bool_decide _); cbn [fst snd]; solve_accounts. }
    destruct (pre w) as [u w0]. cbn [snd] in Hpre.
    set (multi := bool_decide _).
    set (loc0 := if multi then _ else loc).
    assert (Hloc0 : INV2 false 0 loc0 w0).
    { subst loc0. destruct multi; [|exact Hpre].
      eapply Inv2_locals; [exact Hpre|reflexivity..]. }
    pose proof (loop_inv2 false 0
                  (single_schema cancel_at layer_is_valid write_layer selected single_path
                     multi) selected loc0 w0) as H.
    destruct (for_unless_cancelled _ _ _ _ _) as [loc1 w1]. cbn [fst snd] in *.
    eapply Inv2_locals; [apply H|reflexivity..]; [|exact Hloc0].
    intros. apply single_schema_inv2; assumption.
  - assert (E : export_relations cancel_at layer_is_valid write_layer selected mode
                  output_dir single_path loc w
                = run_per_table cancel_at layer_is_valid write_layer selected
                    output_dir loc w)
      by (unfold export_relations; rewrite Hm; reflexivity).
    cbn zeta. rewrite E. clear E. unfold run_per_table.
    apply loop_inv2; [|exact HI].
    intros. apply per_table_schema_inv2; assumption.
  - assert (E : export_relations cancel_at layer_is_valid write_layer selected mode
                  output_dir single_path loc w = (loc, w)).
    { clear -Hm. unfold export_relations. destruct mode as [|[|[|m]]]; try lia. reflexivity. }
    cbn zeta. rewrite E. exact HI.
Qed.

Lemma log_all_inv2 (ph : bool) (op : nat) (l : list LogEntry) (loc : Locals) (w : World) :
  INV2 ph op loc w -> INV2 ph op loc (log_all l w).2.
Proof.
  revert w. induction l as [|[level msg] l IH]; intros w HI; [exact HI|].
  cbn [log_all]. unfold bind, log_message, emit. apply IH.
  eapply (Inv2_step ph op op loc loc w _ [EvLog level msg]);
    [exact HI|reflexivity|events_goal| | | | |].
  - intros _. cbn. rewrite app_nil_r. reflexivity.
  - intros _. split; [reflexivity|]. exists []. rewrite app_nil_r.
    split; [reflexivity|constructor].
  - cbn. rewrite app_nil_r. reflexivity.
  - auto.
  - cbn. lia.
Qed.

Lemma export_project_inv2 (proj : Project) (loc : Locals) (w : World) :
  INV2 true 1 loc w ->
  let r := export_project write_error ET_fromstring ET_tostring selected mode
             output_dir proj loc w in
  INV2 true 1 r.1 r.2.
Proof.
  intros HI. unfold export_project, bind, emit. cbn zeta.
  destruct (rewrite_qgis_project_datasources _ _ _ _ _ _) as [xml rewrite_log].
  set (pn := project_file_name (proj_name proj)).
  assert (H1 : INV2 true 1 loc
                 (mkWorld (trace w ++ [EvProgress (step loc) TOTAL ("Project: " +:+ pn)])
                    (files w))).
  { eapply (Inv2_step true 1 1 loc loc w _ [_]); [exact HI|reflexivity|events_goal| | | | |].
    - discriminate.
    - intros _. split; [reflexivity|]. exists []. rewrite app_nil_r.
      split; [reflexivity|constructor].
    - cbn. rewrite app_nil_r. reflexivity.
    - auto.
    - cbn. lia. }
  apply (log_all_inv2 true 1 rewrite_log) in H1.
  destruct (log_all rewrite_log _) as [u w2]. cbn [snd] in H1.
  assert (Hfile : forall ok, EVENT_OK (EvWriteFile (os_path_join output_dir pn) xml ok)).
  { intros ok. exists pn. split; [reflexivity|apply project_file_name_ends]. }
  destruct (write_error _ xml) as [e|]; unfold log_message, emit, ret; cbn [fst snd].
  - eapply (Inv2_step true 1 1 loc _ w2 _ [_; _]);
      [exact H1|cbn [trace]; rewrite <- ?List.app_assoc; reflexivity| | | | | |].
    + apply List.Forall_cons; [apply Hfile|]. apply List.Forall_cons; [exact I|constructor].
    + discriminate.
    + intros _. split; [reflexivity|]. eexists. split; [reflexivity|].
      apply List.Forall_cons; [reflexivity|constructor].
    + cbn. rewrite app_nil_r. reflexivity.
    + auto.
    + cbn. lia.
  - eapply (Inv2_step true 1 1 loc _ w2 _ [_; _]);
      [exact H1|cbn [trace]; rewrite <- ?List.app_assoc; reflexivity| | | | | |].
    + apply List.Forall_cons; [apply Hfile|]. apply List.Forall_cons; [exact I|constructor].
    + discriminate.
    + intros _. split; [reflexivity|]. exists []. cbn [add_exported_project errors].
      rewrite app_nil_r. split; [reflexivity|constructor].
    + cbn [add_exported_project exported_projects]. rewrite List.map_app. reflexivity.
    + intros H. cbn [add_exported_project exported_projects]. apply Forall_app.
      split; [exact H|]. apply List.Forall_cons; [apply project_file_name_ends|constructor].
    + cbn. lia.
Qed.

Lemma Inv2_quiet (ph : bool) (op op' : nat) (loc : Locals) (w w' : World)
    (b : list Event) :
  INV2 ph op loc w -> trace w' = (trace w ++ b)%list ->
  Forall EVENT_OK b -> failed_msgs b = [] -> written_files b = [] ->
  (count is_connect_ok b + op = count is_close b + op')%nat ->
  INV2 ph op' loc w'.
Proof.
  intros HI E B1 B2 B3 B4.
  eapply (Inv2_step ph op op' loc loc w w' b); [exact HI|exact E|exact B1| | | | |exact B4].
  - intros _. rewrite B2, app_nil_r. reflexivity.
  - intros _. split; [exact B2|]. exists []. rewrite app_nil_r.
    split; [reflexivity|constructor].
  - rewrite B3, app_nil_r. reflexivity.
  - auto.
Qed.

Lemma Inv2_project_error (op : nat) (msg : string) (loc : Locals) (w w' : World)
    (b : list Event) :
  INV2 true op loc w -> trace w' = (trace w ++ b)%list ->
  Forall EVENT_OK b -> failed_msgs b = [] -> written_files b = [] ->
  count is_connect_ok b = count is_close b ->
  project_error msg ->
  INV2 true op (add_error msg loc) w'.
Proof.
  intros HI E B1 B2 B3 B4 Hm.
  eapply (Inv2_step true op op loc _ w w' b); [exact HI|exact E|exact B1| | | | |lia].
  - discriminate.
  - intros _. split; [exact B2|]. exists [msg]. split; [reflexivity|].
    apply List.Forall_cons; [exact Hm|constructor].
  - rewrite B3, app_nil_r. reflexivity.
  - auto.
Qed.

Lemma export_projects_inv2 (loc loc' : Locals) (w w' : World) :
  INV2 false 0 loc w ->
  export_projects cancel_at connect_error projects_in_db write_error
    ET_fromstring ET_tostring selected mode output_dir do_projects loc w = (loc', w') ->
  INV2 true 0 loc' w'.
Proof.
  intros HI E. apply Inv2_projects in HI. unfold export_projects, bind in E.
  destruct do_projects.
  - pose proof (Inv2_read true 0 loc w HI) as HR.
    destruct (READ w) as [c w1]. cbn [fst snd] in *. unfold ret at 1 in E.
    cbv beta iota in E.
    destruct c; cbn [negb] in E.
    + unfold ret in E. apply pair_equal_spec in E as [<- <-]. exact HR.
    + unfold emit at 1 in E. cbv beta iota in E.
      assert (H1 : INV2 true 0 loc
                     (mkWorld (trace w1 ++ [EvProgress (step loc) TOTAL "QGIS projects..."])
                        (files w1))).
      { eapply (Inv2_quiet true 0 0 loc w1 _ [_]); [exact HR|reflexivity|events_goal|..];
          reflexivity. }
      remember (mkWorld (trace w1 ++ [EvProgress (step loc) TOTAL "QGIS projects..."])
                  (files w1)) as w2 eqn:Ew2.
      clear Ew2.
      destruct connect_error as [e|].
      * unfold emit, log_message, emit, ret in E. cbv beta iota in E.
        apply pair_equal_spec in E as [<- <-].
        eapply (Inv2_project_error 0 _ loc w2 _ [_; _]);
          [exact H1|cbn [trace]; rewrite <- ?List.app_assoc; reflexivity|events_goal|..];
          reflexivity.
      * unfold emit at 1 in E. cbv beta iota in E.
        remember (mkWorld (trace w2 ++ [EvConnect true]) (files w2)) as w3 eqn:Ew3.
        assert (H3 : INV2 true 1 loc w3).
        { eapply (Inv2_quiet true 0 1 loc w2 _ [_]);
            [exact H1|subst w3; reflexivity|events_goal|..]; reflexivity. }
        clear Ew3.
        destruct projects_in_db as [e|projects].
        -- unfold log_message, emit, ret in E. cbv beta iota in E.
           apply pair_equal_spec in E as [<- <-].
           eapply (Inv2_quiet true 1 0 _ (mkWorld (trace w3 ++ [EvLog Warning _]) (files w3))
                     _ [EvClose]);
             [|cbn [trace]; reflexivity|events_goal|..]; try reflexivity.
           eapply (Inv2_project_error 1 _ loc w3 _ [_]);
             [exact H3|reflexivity|events_goal|..]; reflexivity.
        -- pose proof (loop_inv2 true 1
                         (export_project write_error ET_fromstring ET_tostring selected mode
                            output_dir) projects loc w3) as H.
           cbn zeta in H.
           destruct (for_unless_cancelled _ _ _ _ _) as [loc5 w5]. cbn [fst snd] in H.
           unfold emit, ret in E. cbv beta iota in E.
           apply pair_equal_spec in E as [<- <-].
           eapply (Inv2_quiet true 1 0 loc5 w5 _ [EvClose]);
             [|cbn [trace]; reflexivity|events_goal|..]; try reflexivity.
           apply H; [|exact H3]. intros. apply export_project_inv2. assumption.
  - unfold ret in E. apply pair_equal_spec in E as [<- <-]. exact HI.
Qed.

Lemma Inv2_initial (fs : gset string) : INV2 false 0 initial_locals (mkWorld [] fs).
Proof.
  constructor; cbn; try reflexivity; try constructor.
  exists []. split; [reflexivity|]. split; [constructor|reflexivity].
Qed.

(** What the accounts say of the result of a run. *)
Lemma run_accounts (fs : gset string) (res : ExportResult) (w : World) :
  RUN (mkWorld [] fs) = (res, w) ->
  exists loc2 w2,
    INV2 true 0 loc2 w2
    /\ trace w = (trace w2 ++ [EvCancelRead (res_cancelled res); EvFinished res])%list
    /\ res_errors res = errors loc2
    /\ res_exported_projects res = exported_projects loc2.
Proof.
  intros E. unfold run, bind in E.
  pose proof (export_relations_inv2 initial_locals (mkWorld [] fs) (Inv2_initial fs)) as H1.
  cbn zeta in H1.
  destruct (RELATIONS initial_locals (mkWorld [] fs)) as [loc1 w1].
  destruct (export_projects _ _ _ _ _ _ _ _ _ _ loc1 w1) as [loc2 w2] eqn:E2.
  cbn [fst snd] in *.
  pose proof (export_projects_inv2 loc1 loc2 w1 w2 H1 E2) as H2.
  unfold finish, bind, emit, ret in E. cbv beta iota in E.
  apply pair_equal_spec in E as [<- <-].
  exists loc2, w2. cbn [trace fst snd res_cancelled res_errors res_exported_projects].
  rewrite <- List.app_assoc. auto.
Qed.

Lemma failed_msgs_length (tr : list Event) :
  length (failed_msgs tr) = count is_failed_return tr.
Proof.
  unfold failed_msgs, count. induction tr as [|e tr IH]; [reflexivity|].
  cbn [omap list_omap List.filter].
  destruct e; try exact IH. destruct ok; [exact IH|]. cbn. f_equal. exact IH.
Qed.

Lemma trace_events_ok (fs : gset string) (res : ExportResult) (w : World) :
  RUN (mkWorld [] fs) = (res, w) ->
  forall e, In e (trace w) -> EVENT_OK e.
Proof.
  intros E e Hin.
  destruct (run_accounts fs res w E) as (loc2 & w2 & H2 & Ht & _).
  rewrite Ht in Hin. apply in_app_or in Hin as [Hin|Hin].
  - pose proof (inv2_events _ _ _ _ _ _ _ H2) as Hall.
    rewrite List.Forall_forall in Hall. apply Hall, Hin.
  - destruct Hin as [<-|[<-|[]]]; exact I.
Qed.

(** X22. The errors of the result are the messages of the relations
    that failed, in the order of the run, followed by the errors of the
    project phase, which all start with "Project"; and every relation
    handed to the writer is either counted as exported or has its message
    among the errors. *)
Theorem errors_list_failures (fs : gset string) :
  let r := run cancel_at layer_is_valid write_layer connect_error projects_in_db
             write_error ET_fromstring ET_tostring selected mode output_dir
             single_path do_projects (mkWorld [] fs) in
  (exists pe, res_errors r.1 = (failed_msgs (trace r.2) ++ pe)%list
              /\ Forall project_error pe)
  /\ (res_ok_count r.1 + length (failed_msgs (trace r.2)))%nat
     = count is_call (trace r.2).
Proof.
  intros r. subst r.
  destruct (RUN (mkWorld [] fs)) as [res w] eqn:E. cbn [fst snd].
  destruct (run_accounts fs res w E) as (loc2 & w2 & H2 & Ht & He & _).
  destruct (run_summary fs res w E)
    as (n & j & loc1 & w1 & loc2' & w2' & _ & _ & HI & _ & Ht' & _ & Hok & _).
  assert (Hw : trace w2' = trace w2).
  { rewrite Ht in Ht'. apply app_inv_tail in Ht'. symmetry. exact Ht'. }
  split.
  - destruct (inv2_errors _ _ _ _ _ _ _ H2) as [pe [P1 [P2 _]]].
    exists pe. split; [|exact P2].
    rewrite He, P1, Ht, failed_msgs_app. cbn. rewrite app_nil_r. reflexivity.
  - rewrite failed_msgs_length, Ht, !count_app. cbn. rewrite !Nat.add_0_r.
    rewrite Hok, (inv_ok _ _ _ _ _ _ _ _ _ HI), Hw.
    pose proof (count_return_split (trace w2)) as Hs.
    rewrite <- Hw in Hs at 1.
    rewrite (inv_returns _ _ _ _ _ _ _ _ _ HI) in Hs.
    rewrite <- Hw at 3. rewrite (inv_calls _ _ _ _ _ _ _ _ _ HI). lia.
Qed.

(** X23. In PerSchema mode every relation is handed to the writer with
    the container of its schema, the output directory joined with the
    schema name and ".gpkg", and without a layer name of its own, so that
    the layer written is named after the table. *)
Theorem per_schema_containers (fs : gset string) (e : Event) :
  mode = 0%nat ->
  In e (trace (run cancel_at layer_is_valid write_layer connect_error projects_in_db
                 write_error ET_fromstring ET_tostring selected mode output_dir
                 single_path do_projects (mkWorld [] fs)).2) ->
  match e with
  | EvCall s t p o => p = os_path_join output_dir (s +:+ ".gpkg") /\ o = None
  | EvWriteLayer s t p ln a =>
      p = os_path_join output_dir (s +:+ ".gpkg") /\ ln = table t
  | _ => True
  end.
Proof.
  intros Hm Hin.
  destruct (RUN (mkWorld [] fs)) as [res w] eqn:E. cbn [snd] in Hin.
  pose proof (trace_events_ok fs res w E e Hin) as H.
  destruct e; try exact I; cbn [event_ok] in H.
  - apply H, Hm.
  - apply H, Hm.
Qed.

(** X24. In PerTable mode every layer is written into a container that
    is not there when the writer looks, so always by creating the file,
    and is named after the table. *)
Theorem per_table_fresh_file (fs : gset string) (s : string) (t : TableInfo)
    (p ln : string) (a : WriteAction) :
  mode = 2%nat ->
  In (EvWriteLayer s t p ln a)
     (trace (run cancel_at layer_is_valid write_layer connect_error projects_in_db
               write_error ET_fromstring ET_tostring selected mode output_dir
               single_path do_projects (mkWorld [] fs)).2) ->
  ln = table t /\ a = CreateOrOverwriteFile.
Proof.
  intros Hm Hin.
  destruct (RUN (mkWorld [] fs)) as [res w] eqn:E. cbn [snd] in Hin.
  pose proof (trace_events_ok fs res w E _ Hin) as H.
  cbn [event_ok] in H. apply H, Hm.
Qed.

(** X25. The project files written with success are, in order, the
    exported projects of the result, each joined to the output
    directory; every name ends in ".qgs" in some case, and every attempt
    to write a project file, failed or not, is at such a path. *)
Theorem project_files_written (fs : gset string) :
  let r := run cancel_at layer_is_valid write_layer connect_error projects_in_db
             write_error ET_fromstring ET_tostring selected mode output_dir
             single_path do_projects (mkWorld [] fs) in
  List.map (os_path_join output_dir) (res_exported_projects r.1)
  = written_files (trace r.2)
  /\ Forall (fun pn => ends_qgs pn = true) (res_exported_projects r.1)
  /\ (forall pp xml ok, In (EvWriteFile pp xml ok) (trace r.2) ->
        exists pn, pp = os_path_join output_dir pn /\ ends_qgs pn = true).
Proof.
  intros r. subst r.
  destruct (RUN (mkWorld [] fs)) as [res w] eqn:E. cbn [fst snd].
  destruct (run_accounts fs res w E) as (loc2 & w2 & H2 & Ht & _ & Hp).
  split; [|split].
  - rewrite Hp, Ht, written_files_app. cbn. rewrite app_nil_r.
    apply (inv2_written _ _ _ _ _ _ _ H2).
  - rewrite Hp. apply (inv2_names _ _ _ _ _ _ _ H2).
  - intros pp xml ok Hin. apply (trace_events_ok fs res w E _ Hin).
Qed.

(** X26. The connection opened for the project phase is closed again:
    in the trace of a run there are as many closes as connections opened
    with success, also when listing the projects fails or the run is
    cancelled among the projects. *)
Theorem connection_closed (fs : gset string) :
  count is_connect_ok
    (trace (run cancel_at layer_is_valid write_layer connect_error projects_in_db
              write_error ET_fromstring ET_tostring selected mode output_dir
              single_path do_projects (mkWorld [] fs)).2)
  = count is_close
      (trace (run cancel_at layer_is_valid write_layer connect_error projects_in_db
                write_error ET_fromstring ET_tostring selected mode output_dir
                single_path do_projects (mkWorld [] fs)).2).
Proof.
  destruct (RUN (mkWorld [] fs)) as [res w] eqn:E. cbn [snd].
  destruct (run_accounts fs res w E) as (loc2 & w2 & H2 & Ht & _).
  rewrite Ht, !count_app, (inv2_opened _ _ _ _ _ _ _ H2). cbn. lia.
Qed.

(** X27. Every progress notification of a run carries the same total,
    the number of relations selected, which is also the total of the
    result. *)
Theorem progress_total_constant (fs : gset string) (k tot : nat) (label : string) :
  In (EvProgress k tot label)
     (trace (run cancel_at layer_is_valid write_layer connect_error projects_in_db
               write_error ET_fromstring ET_tostring selected mode output_dir
               single_path do_projects (mkWorld [] fs)).2) ->
  tot = total_relations selected
  /\ tot = res_total
             (run cancel_at layer_is_valid write_layer connect_error projects_in_db
                write_error ET_fromstring ET_tostring selected mode output_dir
                single_path do_projects (mkWorld [] fs)).1.
Proof.
  intros Hin.
  destruct (RUN (mkWorld [] fs)) as [res w] eqn:E. cbn [fst snd] in *.
  pose proof (trace_events_ok fs res w E _ Hin) as H. cbn [event_ok] in H.
  destruct (run_summary fs res w E)
    as (n & j & loc1 & w1 & loc2 & w2 & _ & _ & _ & _ & _ & _ & _ & _ & _ & Htot & _).
  rewrite Htot. auto.
Qed.

(** X28. A relation that cannot be exported does not stop the run: in
    a run with one of the three layout modes that is not cancelled,
    every relation selected is handed to the writer, whatever the layers
    and the writer answer, and the relations exported are the relations
    selected less the failures. *)
Theorem failures_do_not_stop (fs : gset string) :
  (mode < 3)%nat ->
  let r := run cancel_at layer_is_valid write_layer connect_error projects_in_db
             write_error ET_fromstring ET_tostring selected mode output_dir
             single_path do_projects (mkWorld [] fs) in
  res_cancelled r.1 = false ->
  count is_call (trace r.2) = total_relations selected
  /\ res_ok_count r.1
     = (total_relations selected - count is_failed_return (trace r.2))%nat.
Proof.
  intros Hlt r. subst r.
  destruct (RUN (mkWorld [] fs)) as [res w] eqn:E. cbn [fst snd].
  destruct (run_summary fs res w E)
    as (n & j & loc1 & w1 & loc2 & w2 & _ & _ & HI & Hn & Ht & Hc & Hok & _).
  intros Hf. rewrite Hc in Hf. specialize (Hn Hlt). subst n.
  destruct (not_cancelled_complete _ _ _ _ HI Hf) as [_ Hs].
  rewrite Ht, !count_app. cbn. rewrite !Nat.add_0_r.
  pose proof (count_return_split (trace w2)) as Hsp.
  rewrite (inv_returns _ _ _ _ _ _ _ _ _ HI) in Hsp.
  rewrite (inv_calls _ _ _ _ _ _ _ _ _ HI), Hok, (inv_ok _ _ _ _ _ _ _ _ _ HI).
  lia.
Qed.

End WorkerFacts.

(** *** The properties at concrete runs *)



(** C2 at a Single run in which the request comes while the first of
    three relations is being written: one relation is attempted. *)
Lemma cancel_stops_exports_witness :
  res_cancelled (demo_run (Some 5) (fun _ _ => true) demo_selection 1 true).1 = true
  /\ (count is_call (trace (demo_run (Some 5) (fun _ _ => true) demo_selection 1 true).2)
      <= 0 + 1)%nat.
Proof.
  destruct (cancel_stops_exports (Some 5) (fun _ _ => true) (fun _ _ _ _ => None) None
              (inr []) (fun _ _ => None) demo_fromstring demo_tostring
              demo_selection 1 "/out" "/out/all.gpkg" true ∅ 5 0)
    as (A & B & _).
  - reflexivity.
  - vm_compute. reflexivity.
  - left. vm_compute. lia.
  - split; [exact A|exact B].
Defined.

(** C6 at a Single run over two schemas: the first layer written. *)
Lemma single_mode_layer_names_witness :
  In (EvWriteLayer "a" demo_roads "/out/all.gpkg" "a__roads" CreateOrOverwriteFile)
     (trace (demo_run None (fun _ _ => true) demo_selection 1 false).2)
  /\ "a__roads" = "a" +:+ "__" +:+ table demo_roads.
Proof.
  assert (H : In (EvWriteLayer "a" demo_roads "/out/all.gpkg" "a__roads"
                    CreateOrOverwriteFile)
                 (trace (demo_run None (fun _ _ => true) demo_selection 1 false).2)).
  { vm_compute. do 6 right. left. reflexivity. }
  split; [exact H|].
  destruct (single_mode_layer_names None (fun _ _ => true) (fun _ _ _ _ => None) None
              (inr []) (fun _ _ => None) demo_fromstring demo_tostring
              demo_selection 1 "/out" "/out/all.gpkg" false ∅ eq_refl
              "a" demo_roads "/out/all.gpkg" "a__roads" CreateOrOverwriteFile H)
    as (_ & A & _).
  apply A. vm_compute. lia.
Defined.

(** C7 as stated fails when a relation cannot be exported: the run is
    not cancelled, one relation is selected and no container is counted. *)
Lemma per_table_containers_counterexample :
  let r := demo_run None (fun _ _ => false) demo_one_relation 2 false in
  res_cancelled r.1 = false
  /\ total_relations demo_one_relation = 1%nat
  /\ res_gpkg_count r.1 = 0%nat.
Proof. vm_compute. auto. Qed.

(** C7 at a PerTable run over three relations. *)
Lemma per_table_containers_witness :
  res_gpkg_count (demo_run None (fun _ _ => true) demo_selection 2 false).1
  = count is_ok_return (trace (demo_run None (fun _ _ => true) demo_selection 2 false).2).
Proof.
  destruct (per_table_containers None (fun _ _ => true) (fun _ _ _ _ => None) None
              (inr []) (fun _ _ => None) demo_fromstring demo_tostring
              demo_selection 2 "/out" "/out/all.gpkg" false ∅ eq_refl)
    as [A _].
  exact A.
Defined.

(** * Further properties *)

(** ** The SSL mode *)

Lemma normalize_sslmode_valid (value : Py.value) :
  In (normalize_sslmode value) sslmode_valid.
Proof.
  destruct value as [|s|z]; [simpl; tauto| |];
    unfold normalize_sslmode;
    (destruct (sslmode_mapping !! _) as [m|] eqn:E;
     [eapply sslmode_mapping_valid, E
     |destruct (str_in _ _) eqn:E2; [apply str_in_In, E2|simpl; tauto]]).
Qed.

(** X1. Normalising twice gives what normalising once gives: a mode
    that went through [normalize_sslmode] is read back as itself. *)
Theorem normalize_sslmode_idempotent (value : Py.value) :
  normalize_sslmode (Py.Str (normalize_sslmode value)) = normalize_sslmode value.
Proof.
  pose proof (normalize_sslmode_valid value) as H. unfold sslmode_valid in H.
  repeat (destruct H as [H|H]; [rewrite <- H; vm_compute; reflexivity|]).
  destruct H.
Qed.

(** X2. The lookup of the normalised mode in [ssl_map] always succeeds,
    so the fallback is never taken; the number is at most 5 and is 2
    exactly for "prefer". *)
Theorem uri_ssl_mode_in_table (value : Py.value) :
  ssl_map !! normalize_sslmode value = Some (uri_ssl_mode value)
  /\ (uri_ssl_mode value <= 5)%nat
  /\ (uri_ssl_mode value = 2%nat <-> normalize_sslmode value = "prefer").
Proof.
  unfold uri_ssl_mode.
  pose proof (normalize_sslmode_valid value) as H. unfold sslmode_valid in H.
  repeat (destruct H as [H|H];
          [rewrite <- H; vm_compute; repeat split; intros; try lia; try congruence;
           try discriminate|]).
  destruct H.
Qed.

(** ** The extractor *)

Section ExtractorMore.

Variable zip_namelist : list byte -> option (list string).
Variable zip_read : list byte -> string -> option (list byte).
Variable zlib_decompress : list byte -> option (list byte).
Variable decode_utf8 : list byte -> option string.

Lemma accept_qgs (text text' : string) : accept text = Some text' -> _is_qgs text' = true.
Proof. unfold accept. destruct (_is_qgs text) eqn:E; [intros [= <-]; exact E|discriminate]. Qed.

Lemma try_zip_qgs (raw : list byte) (text : string) :
  try_zip zip_namelist zip_read decode_utf8 raw = Some text -> _is_qgs text = true.
Proof.
  unfold try_zip. destruct (zip_namelist raw) as [names|]; [|discriminate]. simpl.
  destruct (zip_target names) as [target|]; [|discriminate]. simpl.
  destruct (Py.truthy target); [|discriminate].
  destruct (zip_read raw target) as [member|]; [|discriminate]. simpl.
  destruct (decode_utf8 member) as [t|]; [|discriminate]. simpl.
  apply accept_qgs.
Qed.

Lemma try_zlib_qgs (raw : list byte) (text : string) :
  try_zlib zlib_decompress decode_utf8 raw = Some text -> _is_qgs text = true.
Proof.
  unfold try_zlib. destruct (zlib_decompress raw) as [data|]; [|discriminate]. simpl.
  destruct (decode_utf8 data) as [t|]; [|discriminate]. simpl. apply accept_qgs.
Qed.

Lemma try_plain_qgs (raw : list byte) (text : string) :
  try_plain decode_utf8 raw = Some text -> _is_qgs text = true.
Proof.
  unfold try_plain. destruct (decode_utf8 raw) as [t|]; [|discriminate]. simpl.
  apply accept_qgs.
Qed.

Lemma extract_is_qgs (raw : Payload) (text : string) :
  (_extract_qgs_xml zip_namelist zip_read zlib_decompress decode_utf8 raw).1 = Some text ->
  _is_qgs text = true.
Proof.
  intros H. destruct raw as [s|b|]; cbn [_extract_qgs_xml fst] in H.
  - unfold _is_qgs. destruct (_ || _) eqn:E; [|discriminate].
    injection H as <-. exact E.
  - unfold extract_bytes, stage in H.
    pose proof (try_zip_qgs b) as Hz. pose proof (try_zlib_qgs b) as Hl.
    pose proof (try_plain_qgs b) as Hp.
    destruct (bool_decide (firstn 4 b = zip_signature));
      destruct (bool_decide (firstn 1 b = [x78]));
      destruct (try_zip _ _ _ b); destruct (try_zlib _ _ b);
      destruct (try_plain _ b); cbn [fst snd] in H;
      try discriminate; injection H as <-; auto.
  - discriminate.
Qed.

Lemma is_qgs_truthy (text : string) : _is_qgs text = true -> Py.truthy text = true.
Proof. destruct text; [vm_compute; discriminate|reflexivity]. Qed.


(** X4. The decoders applied to a byte string are a beginning of its
    chain (archive if the signature is there, inflate if the first byte
    is 0x78, UTF-8, inflate again); the payload is given up only after
    the whole chain, and a chain has at most three decoders since a
    payload cannot start with both markers. *)
Theorem decoders_follow_chain (raw : list byte) :
  let r := extract_bytes zip_namelist zip_read zlib_decompress decode_utf8 raw in
  (exists n, (1 <= n)%nat /\ r.2 = firstn n (decoder_chain raw))
  /\ (r.1 = None -> r.2 = decoder_chain raw)
  /\ (length (decoder_chain raw) <= 3)%nat.
Proof.
  cbn zeta. unfold extract_bytes, stage, decoder_chain.
  assert (Hex : bool_decide (firstn 4 raw = zip_signature) = true ->
                bool_decide (firstn 1 raw = [x78]) = false).
  { intros H1. apply bool_decide_eq_true_1 in H1. apply bool_decide_eq_false_2.
    destruct raw as [|b0 raw]; [discriminate|]. cbn in *.
    intros H2. injection H1 as -> _. discriminate. }
  destruct (bool_decide (firstn 4 raw = zip_signature));
    destruct (bool_decide (firstn 1 raw = [x78])); try (specialize (Hex eq_refl); discriminate);
    destruct (try_zip zip_namelist zip_read decode_utf8 raw);
    destruct (try_zlib zlib_decompress decode_utf8 raw);
    destruct (try_plain decode_utf8 raw); cbn [fst snd app length];
    (split; [|split; [try discriminate; reflexivity|lia]]).
  all: first [ exists 1%nat; split; [lia|reflexivity]
             | exists 2%nat; split; [lia|reflexivity]
             | exists 3%nat; split; [lia|reflexivity] ].
Qed.

End ExtractorMore.

(** ** Discovery *)

Lemma spatial_index_lookup (rows : list GeomRow) (spatial : gmap string (list GeomRow))
    (k : string) :
  spatial_index rows spatial !! k
  = match spatial !! k, geoms_of k rows with
    | Some l, gs => Some (l ++ gs)%list
    | None, [] => None
    | None, gs => Some gs
    end.
Proof.
  revert spatial. induction rows as [|r rows IH]; intros spatial.
  - cbn. destruct (spatial !! k); [rewrite app_nil_r|]; reflexivity.
  - cbn [spatial_index geoms_of List.filter]. fold (geoms_of k rows). rewrite IH.
    destruct (String.eqb (g_table r) k) eqn:E.
    + apply String.eqb_eq in E. subst k. rewrite lookup_insert_eq.
      destruct (spatial !! g_table r); cbn [default];
        rewrite <- ?List.app_assoc; reflexivity.
    + apply String.eqb_neq in E. rewrite lookup_insert_ne by exact E. reflexivity.
Qed.

Lemma table_entries_names (spatial : gmap string (list GeomRow))
    (rows : list (string * string)) (t : TableInfo) :
  In t (table_entries spatial rows) ->
  str_in (table t) SYSTEM_TABLES = false /\ In (table t, table_type t) rows.
Proof.
  induction rows as [|[tname ttype] rows IH]; cbn [table_entries]; [intros []|].
  destruct (str_in tname SYSTEM_TABLES) eqn:Es.
  - intros H. destruct (IH H). split; [assumption|right; assumption].
  - destruct (spatial !! tname) as [gis|].
    + intros H. apply in_app_or in H as [H|H].
      * apply in_map_iff in H as [gi [<- _]]. cbn. split; [exact Es|left; reflexivity].
      * destruct (IH H). split; [assumption|right; assumption].
    + intros [<-|H].
      * cbn. split; [exact Es|left; reflexivity].
      * destruct (IH H). split; [assumption|right; assumption].
Qed.

Lemma entries_of_absent (spatial : gmap string (list GeomRow))
    (rows : list (string * string)) (k : string) :
  ~ In k (List.map fst rows) -> entries_of k (table_entries spatial rows) = [].
Proof.
  intros Hk. unfold entries_of.
  destruct (List.filter _ _) as [|t l] eqn:E; [reflexivity|exfalso].
  assert (Hin : In t (List.filter (fun t => String.eqb (table t) k)
                        (table_entries spatial rows))) by (rewrite E; left; reflexivity).
  apply filter_In in Hin as [Hin Ht]. apply String.eqb_eq in Ht.
  apply table_entries_names in Hin as [_ Hin].
  apply Hk. apply in_map_iff. exists (table t, table_type t). subst. auto.
Qed.

Section DiscoveryFacts.

Variable query_geometry_columns : string -> string + list GeomRow.
Variable query_tables : string -> string + list (string * string).

(** X5. No system table is ever listed, and every entry listed comes from
    a row of the catalog, with the table type of that row. *)
Theorem listed_tables_from_catalog (schema : string) (result : list TableInfo)
    (t : TableInfo) :
  get_tables_and_views query_geometry_columns query_tables schema = inr result ->
  In t result ->
  ~ In (table t) SYSTEM_TABLES
  /\ exists rows, query_tables schema = inr rows /\ In (table t, table_type t) rows.
Proof.
  unfold get_tables_and_views.
  destruct (query_geometry_columns schema) as [e|geom_rows]; [discriminate|].
  destruct (query_tables schema) as [e|rows]; [discriminate|].
  intros [= <-] Hin. apply table_entries_names in Hin as [Hs Hin].
  split.
  - intros H. apply str_in_In in H. congruence.
  - exists rows. auto.
Qed.

(** X6. A table of the catalog that is not a system table is listed once
    for each of its rows in [geometry_columns], in their order and with
    their column, type and srid; a table with no such row is listed once,
    with no geometry and srid 0. *)
Theorem listed_once_per_geometry (schema : string)
    (geom_rows : list GeomRow) (rows : list (string * string))
    (tname ttype : string) :
  query_geometry_columns schema = inr geom_rows ->
  query_tables schema = inr rows ->
  List.NoDup (List.map fst rows) ->
  In (tname, ttype) rows -> ~ In tname SYSTEM_TABLES ->
  exists result,
    get_tables_and_views query_geometry_columns query_tables schema = inr result
    /\ entries_of tname result
       = match geoms_of tname geom_rows with
         | [] => [mkTableInfo tname None None 0 ttype]
         | gs => List.map (fun g => mkTableInfo tname (g_column g) (g_type g)
                                      (g_srid g) ttype) gs
         end.
Proof.
  intros Hg Ht Hnd Hin Hsys. unfold get_tables_and_views. rewrite Hg, Ht.
  eexists. split; [reflexivity|].
  assert (Hs : str_in tname SYSTEM_TABLES = false).
  { destruct (str_in tname SYSTEM_TABLES) eqn:E; [|reflexivity].
    apply str_in_In in E. contradiction. }
  set (spatial := spatial_index geom_rows ∅).
  assert (Hsp : spatial !! tname
                = match geoms_of tname geom_rows with [] => None | gs => Some gs end).
  { subst spatial. rewrite spatial_index_lookup, lookup_empty. reflexivity. }
  clear Hg Ht. induction rows as [|[n ty] rows IH]; [destruct Hin|].
  cbn [List.map fst] in Hnd. apply List.NoDup_cons_iff in Hnd as [Hn Hnd].
  cbn [table_entries].
  destruct Hin as [[= -> ->]|Hin].
  - rewrite Hs, Hsp. unfold entries_of.
    pose proof (entries_of_absent spatial rows tname Hn) as Hrest. unfold entries_of in Hrest.
    destruct (geoms_of tname geom_rows) as [|g gs].
    + cbn [List.filter table]. rewrite String.eqb_refl, Hrest. reflexivity.
    + rewrite List.filter_app, Hrest, app_nil_r.
      set (l := g :: gs). clearbody l.
      induction l as [|x l IHl]; [reflexivity|].
      cbn [List.map List.filter table]. rewrite String.eqb_refl, IHl. reflexivity.
  - assert (Hne : n <> tname).
    { intros ->. apply Hn. apply in_map_iff. exists (tname, ttype). auto. }
    specialize (IH Hnd Hin).
    destruct (str_in n SYSTEM_TABLES); [exact IH|].
    unfold entries_of in *.
    destruct (spatial !! n) as [gis|].
    + rewrite List.filter_app, IH.
      assert (List.filter (fun t => String.eqb (table t) tname)
                (List.map (fun gi => mkTableInfo n (g_column gi) (g_type gi) (g_srid gi) ty)
                   gis) = []) as ->; [|reflexivity].
      induction gis as [|x gis IHg]; [reflexivity|].
      cbn [List.map List.filter table].
      apply String.eqb_neq in Hne. rewrite Hne. exact IHg.
    + cbn [List.filter table]. apply String.eqb_neq in Hne. rewrite Hne. exact IH.
Qed.

End DiscoveryFacts.

(** ** The projects stored in the database *)

Section ProjectScanFacts.

Variable zip_namelist : list byte -> option (list string).
Variable zip_read : list byte -> string -> option (list byte).
Variable zlib_decompress : list byte -> option (list byte).
Variable decode_utf8 : list byte -> option string.
Variable query_columns : string -> string -> string + list string.
Variable query_rows : string -> string -> string -> string + list (string * option Payload).

Local Abbreviation EXTRACT := (_extract_qgs_xml zip_namelist zip_read zlib_decompress decode_utf8).
Local Abbreviation COLLECT := (collect_projects zip_namelist zip_read zlib_decompress decode_utf8).
Local Abbreviation SCAN1 :=
  (scan_project_table zip_namelist zip_read zlib_decompress decode_utf8
     query_columns query_rows).
Local Abbreviation SCAN :=
  (scan_project_tables zip_namelist zip_read zlib_decompress decode_utf8
     query_columns query_rows).
Local Abbreviation PROJECTS :=
  (get_qgis_projects_in_db zip_namelist zip_read zlib_decompress decode_utf8
     query_columns query_rows).

Lemma collect_projects_app (pschema : string) (rows : list (string * option Payload))
    (projects : list Project) :
  COLLECT pschema rows projects = (projects ++ COLLECT pschema rows [])%list.
Proof.
  revert projects. induction rows as [|[name [raw|]] rows IH]; intros projects;
    cbn [collect_projects].
  - rewrite app_nil_r. reflexivity.
  - destruct (EXTRACT raw).1 as [xml|]; [|apply IH].
    destruct (Py.truthy xml); [|apply IH].
    rewrite IH, (IH ([] ++ _)%list), List.app_assoc. reflexivity.
  - apply IH.
Qed.


Lemma scan_project_table_app (item : string * string) (projects : list Project) :
  SCAN1 item projects = (projects ++ SCAN1 item [])%list.
Proof.
  destruct item as [pschema ptable]. unfold scan_project_table.
  destruct (query_columns pschema ptable) as [e|columns]; [rewrite app_nil_r; reflexivity|].
  destruct (xml_col columns) as [col|]; [|rewrite app_nil_r; reflexivity].
  destruct (query_rows col pschema ptable) as [e|rows]; [rewrite app_nil_r; reflexivity|].
  apply collect_projects_app.
Qed.

Lemma scan_project_tables_concat (tables : list (string * string))
    (projects : list Project) :
  SCAN tables projects
  = (projects ++ concat (List.map (fun item => SCAN1 item []) tables))%list.
Proof.
  revert projects. induction tables as [|item tables IH]; intros projects;
    cbn [scan_project_tables List.map concat].
  - rewrite app_nil_r. reflexivity.
  - rewrite IH, scan_project_table_app, List.app_assoc. reflexivity.
Qed.



(** A storage table that cannot be read: its columns cannot be listed,
    it has neither column, or its rows cannot be fetched. *)
Lemma unreadable_empty (pschema ptable : string) :
  (exists e, query_columns pschema ptable = inl e)
  \/ (exists columns, query_columns pschema ptable = inr columns
                      /\ xml_col columns = None)
  \/ (exists columns col e, query_columns pschema ptable = inr columns
                            /\ xml_col columns = Some col
                            /\ query_rows col pschema ptable = inl e) ->
  SCAN1 (pschema, ptable) [] = [].
Proof.
  unfold scan_project_table.
  intros [[e ->]|[[columns [-> ->]]|[columns [col [e [-> [-> ->]]]]]]]; reflexivity.
Qed.

(** X8. A storage table whose columns cannot be listed, that has
    neither a [content] nor a [metadata] column, or whose rows cannot be
    fetched, is passed over: the projects returned are those of the
    other tables, as if it were not there. *)
Theorem unreadable_table_passed_over (before after : list (string * string))
    (pschema ptable : string) :
  (exists e, query_columns pschema ptable = inl e)
  \/ (exists columns, query_columns pschema ptable = inr columns
                      /\ xml_col columns = None)
  \/ (exists columns col e, query_columns pschema ptable = inr columns
                            /\ xml_col columns = Some col
                            /\ query_rows col pschema ptable = inl e) ->
  get_qgis_projects_in_db zip_namelist zip_read zlib_decompress decode_utf8
    query_columns query_rows (inr (before ++ (pschema, ptable) :: after)%list)
  = get_qgis_projects_in_db zip_namelist zip_read zlib_decompress decode_utf8
    query_columns query_rows (inr (before ++ after)%list).
Proof.
  intros H. apply unreadable_empty in H. cbn [get_qgis_projects_in_db]. f_equal.
  rewrite !scan_project_tables_concat, !List.map_app, !concat_app.
  cbn [List.map concat]. rewrite H. reflexivity.
Qed.

(** X9. The projects are returned table by table, in the order of the
    storage tables: those of a list of tables followed by those of a
    second list are those of the two lists put together. *)
Theorem projects_table_by_table (tables1 tables2 : list (string * string))
    (result1 result2 : list Project) :
  get_qgis_projects_in_db zip_namelist zip_read zlib_decompress decode_utf8
    query_columns query_rows (inr tables1) = inr result1 ->
  get_qgis_projects_in_db zip_namelist zip_read zlib_decompress decode_utf8
    query_columns query_rows (inr tables2) = inr result2 ->
  get_qgis_projects_in_db zip_namelist zip_read zlib_decompress decode_utf8
    query_columns query_rows (inr (tables1 ++ tables2)%list) = inr (result1 ++ result2)%list.
Proof.
  cbn [get_qgis_projects_in_db]. intros [= <-] [= <-]. f_equal.
  rewrite !scan_project_tables_concat, List.map_app, concat_app. reflexivity.
Qed.

(** X10. A row whose payload the extractor accepts always gives a
    project: the test on the extracted text never discards one, and a
    row with a NULL payload or one the extractor rejects gives none. *)
Theorem rows_to_projects (pschema : string) (rows : list (string * option Payload)) :
  collect_projects zip_namelist zip_read zlib_decompress decode_utf8 pschema rows []
  = omap (fun row =>
            match row.2 with
            | Some raw =>
                option_map (mkProject pschema row.1) (_extract_qgs_xml zip_namelist zip_read zlib_decompress decode_utf8 raw).1
            | None => None
            end) rows.
Proof.
  induction rows as [|[name [raw|]] rows IH]; cbn [collect_projects omap list_omap];
    [reflexivity| |exact IH].
  cbn [fst snd]. destruct (EXTRACT raw).1 as [xml|] eqn:E; cbn [option_map]; [|exact IH].
  rewrite (is_qgs_truthy xml) by (eapply extract_is_qgs, E).
  rewrite collect_projects_app, IH. reflexivity.
Qed.

End ProjectScanFacts.

(** ** The credentials *)

Section AuthFacts.

Variable load_auth : string -> option (option (string * string)).

Lemma str_or_truthy (a b : string) :
  Py.truthy b = true -> Py.truthy (str_or a b) = true.
Proof. unfold str_or. destruct (Py.truthy a) eqn:E; auto. Qed.

Lemma str_or_again (a b : string) : str_or a (str_or a b) = str_or a b.
Proof. unfold str_or. destruct (Py.truthy a); reflexivity. Qed.

(** X11. Resolving the credentials touches nothing but the user name
    and the password, and never loses one that was there: a user name or
    password that was not empty is still not empty afterwards. *)
Theorem resolve_auth_keeps_rest (params : gmap string string) :
  (forall k, k <> "username" -> k <> "password" ->
             resolve_auth_params load_auth params !! k = params !! k)
  /\ (Py.truthy (dict_get params "username") = true ->
      Py.truthy (dict_get (resolve_auth_params load_auth params) "username") = true)
  /\ (Py.truthy (dict_get params "password") = true ->
      Py.truthy (dict_get (resolve_auth_params load_auth params) "password") = true).
Proof.
  unfold resolve_auth_params.
  destruct (negb _ || _); [auto|].
  destruct (load_auth _) as [[[u p]|]|]; [|auto|auto].
  cbn zeta. split; [|split].
  - intros k Hu Hp. rewrite !lookup_insert_ne by congruence. reflexivity.
  - intros H. unfold dict_get at 1.
    rewrite lookup_insert_ne by discriminate. rewrite lookup_insert_eq.
    cbn [default]. apply str_or_truthy, H.
  - intros H. unfold dict_get at 1. rewrite lookup_insert_eq. cbn [default].
    apply str_or_truthy. unfold dict_get. rewrite lookup_insert_ne by discriminate.
    exact H.
Qed.

(** X12. Resolving twice gives what resolving once gives, as long as
    the authentication store answers the same. *)
Theorem resolve_auth_idempotent (params : gmap string string) :
  resolve_auth_params load_auth (resolve_auth_params load_auth params)
  = resolve_auth_params load_auth params.
Proof.
  destruct (negb (Py.truthy (dict_get params "authcfg"))
            || Py.truthy (dict_get params "username")
               && Py.truthy (dict_get params "password")) eqn:Ec.
  { unfold resolve_auth_params. rewrite !Ec. reflexivity. }
  destruct (load_auth (dict_get params "authcfg")) as [[[u p]|]|] eqn:El.
  2,3: unfold resolve_auth_params; rewrite !Ec, !El, ?Ec, ?El; reflexivity.
  replace (resolve_auth_params load_auth params)
    with (<["password" := str_or p (dict_get (<["username" :=
             str_or u (dict_get params "username")]> params) "password")]>
            (<["username" := str_or u (dict_get params "username")]> params))
    by (unfold resolve_auth_params; rewrite Ec, El; reflexivity).
  set (a := str_or u (dict_get params "username")).
  set (b := str_or p (dict_get (<["username" := a]> params) "password")).
  set (R := <["password" := b]> (<["username" := a]> params)).
  assert (Hcfg : dict_get R "authcfg" = dict_get params "authcfg").
  { unfold dict_get, R. rewrite !lookup_insert_ne by discriminate. reflexivity. }
  assert (Hu : dict_get R "username" = a).
  { unfold dict_get, R. rewrite lookup_insert_ne by discriminate.
    rewrite lookup_insert_eq. reflexivity. }
  assert (Hp : dict_get R "password" = b).
  { unfold dict_get, R. rewrite lookup_insert_eq. reflexivity. }
  unfold resolve_auth_params. rewrite Hcfg, Hu, Hp, El.
  destruct (negb (Py.truthy (dict_get params "authcfg")) || Py.truthy a && Py.truthy b);
    [reflexivity|]. cbn zeta.
  assert (Hp' : dict_get (<["username" := str_or u a]> R) "password" = b).
  { unfold dict_get. rewrite lookup_insert_ne by discriminate. exact Hp. }
  rewrite Hp'. unfold a at 1. rewrite str_or_again. fold a.
  assert (Hb : str_or p b = b).
  { unfold b at 1. rewrite str_or_again. reflexivity. }
  rewrite Hb. apply map_eq. intros k. unfold R.
  destruct (decide (k = "password")) as [->|Hk1].
  { rewrite !lookup_insert_eq. reflexivity. }
  rewrite !(lookup_insert_ne _ "password") by congruence.
  destruct (decide (k = "username")) as [->|Hk2].
  { rewrite !lookup_insert_eq. reflexivity. }
  rewrite !(lookup_insert_ne _ "username") by congruence.
  rewrite !(lookup_insert_ne _ "password") by congruence.
  rewrite !(lookup_insert_ne _ "username") by congruence. reflexivity.
Qed.

End AuthFacts.

(** ** The selection of the dialog *)

Lemma dict_append_get (s : string) (i : TableInfo) (r : Selection) (k : string) :
  sel_get k (dict_append s i r)
  = if String.eqb s k then (sel_get k r ++ [i])%list else sel_get k r.
Proof.
  unfold sel_get. induction r as [|[k0 v] r IH]; cbn [dict_append List.find fst snd].
  - destruct (String.eqb s k); reflexivity.
  - destruct (String.eqb k0 s) eqn:E0; cbn [List.find fst snd].
    + apply String.eqb_eq in E0. subst k0.
      destruct (String.eqb s k); reflexivity.
    + destruct (String.eqb k0 k) eqn:E1; [|exact IH].
      apply String.eqb_eq in E1. subst k0.
      rewrite String.eqb_sym, E0. reflexivity.
Qed.

Lemma dict_append_keys_in (s : string) (i : TableInfo) (r : Selection) (x : string) :
  In x (List.map fst (dict_append s i r)) <-> x = s \/ In x (List.map fst r).
Proof.
  induction r as [|[k0 v] r IH]; cbn [dict_append List.map fst In].
  - intuition.
  - destruct (String.eqb k0 s) eqn:E0; cbn [List.map fst In].
    + apply String.eqb_eq in E0. subst k0. intuition.
    + rewrite IH. intuition.
Qed.

Lemma dict_append_nodup (s : string) (i : TableInfo) (r : Selection) :
  List.NoDup (List.map fst r) -> List.NoDup (List.map fst (dict_append s i r)).
Proof.
  induction r as [|[k0 v] r IH]; cbn [dict_append List.map fst]; intros H.
  - constructor; [intros []|constructor].
  - apply List.NoDup_cons_iff in H as [Hn Hd].
    destruct (String.eqb k0 s) eqn:E0; cbn [List.map fst].
    + constructor; assumption.
    + constructor; [|apply IH, Hd].
      rewrite dict_append_keys_in. intros [->|H]; [|contradiction].
      rewrite String.eqb_refl in E0. discriminate.
Qed.

Lemma dict_append_forall (P : string * list TableInfo -> Prop)
    (s : string) (i : TableInfo) (r : Selection) :
  (forall l, P (s, (l ++ [i])%list)) ->
  List.Forall P r -> List.Forall P (dict_append s i r).
Proof.
  intros Hs. induction r as [|[k0 v] r IH]; cbn [dict_append]; intros H.
  - constructor; [apply (Hs [])|constructor].
  - apply List.Forall_cons_iff in H as [H0 H].
    destruct (String.eqb k0 s) eqn:E0.
    + apply String.eqb_eq in E0. subst k0. constructor; [apply Hs|exact H].
    + constructor; [exact H0|apply IH, H].
Qed.

Lemma list_sum_cons (a : nat) (l : list nat) : list_sum (a :: l) = (a + list_sum l)%nat.
Proof. reflexivity. Qed.

Lemma dict_append_total (s : string) (i : TableInfo) (r : Selection) :
  total_relations (dict_append s i r) = S (total_relations r).
Proof.
  unfold total_relations.
  induction r as [|[k0 v] r IH]; cbn [dict_append]; [reflexivity|].
  destruct (String.eqb k0 s); cbn [List.map snd]; rewrite !list_sum_cons.
  - rewrite List.length_app. cbn [length]. lia.
  - rewrite IH. lia.
Qed.

Lemma select_item_spec (ci : TreeItem) (r : Selection) :
  select_item ci r
  = if selectable ci
    then match item_schema ci, item_info ci with
         | Some s, Some i => dict_append s i r
         | _, _ => r
         end
    else r.
Proof.
  unfold select_item, selectable.
  destruct (item_checked ci), (item_schema ci) as [s|], (item_info ci) as [i|];
    cbn [andb]; reflexivity.
Qed.

Lemma infos_of_cons (k : string) (ci : TreeItem) (items : list TreeItem) :
  infos_of k (ci :: items)
  = ((if selectable ci
      then match item_schema ci, item_info ci with
           | Some s, Some i => if String.eqb s k then [i] else []
           | _, _ => []
           end
      else []) ++ infos_of k items)%list.
Proof.
  unfold infos_of. cbn [List.filter].
  destruct (selectable ci) eqn:Es; cbn [andb]; [|reflexivity].
  destruct (item_schema ci) as [s|] eqn:E1.
  - destruct (item_info ci) as [i|] eqn:E2.
    + destruct (String.eqb s k); [|reflexivity].
      cbn [omap list_omap]. rewrite E2. reflexivity.
    + unfold selectable in Es. rewrite E1, E2, andb_false_r in Es. discriminate.
  - reflexivity.
Qed.

Lemma fold_select_spec (items : list TreeItem) (r0 : Selection) :
  let r := fold_left (fun r ci => select_item ci r) items r0 in
  (forall k, sel_get k r = (sel_get k r0 ++ infos_of k items)%list)
  /\ (List.NoDup (List.map fst r0) -> List.NoDup (List.map fst r))
  /\ (List.Forall entry_ok r0 -> List.Forall entry_ok r)
  /\ total_relations r
     = (total_relations r0 + length (List.filter selectable items))%nat.
Proof.
  cbn zeta. revert r0. induction items as [|ci items IH]; intros r0.
  - cbn [fold_left List.filter length]. split; [|split; [auto|split; [auto|lia]]].
    intros k. unfold infos_of. cbn. rewrite app_nil_r. reflexivity.
  - cbn [fold_left]. destruct (IH (select_item ci r0)) as [G [N [F T]]].
    rewrite select_item_spec in *.
    split; [|split; [|split]].
    + intros k. rewrite G, infos_of_cons.
      destruct (selectable ci); [|reflexivity].
      destruct (item_schema ci) as [s|]; [|reflexivity].
      destruct (item_info ci) as [i|]; [|reflexivity].
      rewrite dict_append_get. destruct (String.eqb s k);
        rewrite <- ?List.app_assoc; reflexivity.
    + intros H. apply N. destruct (selectable ci); [|exact H].
      destruct (item_schema ci) as [s|]; [|exact H].
      destruct (item_info ci) as [i|]; [|exact H].
      apply dict_append_nodup, H.
    + intros H. apply F. destruct (selectable ci) eqn:Es; [|exact H].
      destruct (item_schema ci) as [s|] eqn:E1; [|exact H].
      destruct (item_info ci) as [i|] eqn:E2; [|exact H].
      apply dict_append_forall; [|exact H].
      intros l. split; cbn [fst snd].
      * unfold selectable in Es. rewrite E1, E2 in Es.
        apply andb_true_iff in Es as [_ Es]. exact Es.
      * destruct l; discriminate.
    + rewrite T. cbn [List.filter]. destruct (selectable ci) eqn:Es; [|reflexivity].
      destruct (item_schema ci) as [s|] eqn:E1.
      * destruct (item_info ci) as [i|] eqn:E2.
        -- rewrite dict_append_total. cbn [length]. lia.
        -- unfold selectable in Es. rewrite E1, E2, andb_false_r in Es. discriminate.
      * unfold selectable in Es. rewrite E1, andb_false_r in Es. discriminate.
Qed.

Lemma fold_left_concat {A B : Type} (f : A -> B -> A) (ls : list (list B)) (a : A) :
  fold_left (fun r l => fold_left f l r) ls a = fold_left f (concat ls) a.
Proof.
  revert a. induction ls as [|l ls IH]; intros a; [reflexivity|].
  cbn [fold_left concat]. rewrite fold_left_app. apply IH.
Qed.

Lemma selected_tables_flat (tree : Tree) :
  _selected_tables tree = fold_left (fun r ci => select_item ci r) (concat tree) [].
Proof. unfold _selected_tables. apply fold_left_concat. Qed.

Lemma sel_get_in (k : string) (l : list TableInfo) (sel : Selection) :
  List.NoDup (List.map fst sel) -> In (k, l) sel -> sel_get k sel = l.
Proof.
  unfold sel_get. induction sel as [|[k0 v] sel IH]; [intros _ []|].
  cbn [List.map fst List.find snd]. intros Hn [[= -> ->]|Hin].
  - rewrite String.eqb_refl. reflexivity.
  - apply List.NoDup_cons_iff in Hn as [Hn Hd].
    destruct (String.eqb k0 k) eqn:E; [|apply IH; assumption].
    apply String.eqb_eq in E. subst k0. exfalso. apply Hn.
    apply in_map_iff. exists (k, l). auto.
Qed.

Lemma sel_get_found (k : string) (sel : Selection) :
  sel_get k sel <> [] -> In (k, sel_get k sel) sel.
Proof.
  unfold sel_get. destruct (List.find _ sel) as [[k0 v]|] eqn:E; [|congruence].
  intros _. apply find_some in E as [Hin Hk]. cbn [fst snd] in *.
  apply String.eqb_eq in Hk. subst k0. exact Hin.
Qed.

(** X13. The selection has one entry for each schema that has a checked
    child, under a name that is not empty and that occurs once; the
    entry lists the table infos of the checked children of that schema in
    the order of the tree, and the relations add up to the number of
    checked children that have a schema and a table info. *)
Theorem selection_collects_checked (tree : Tree) :
  List.NoDup (List.map fst (_selected_tables tree))
  /\ (forall k l, In (k, l) (_selected_tables tree) ->
        k <> "" /\ l <> [] /\ l = infos_of k (concat tree))
  /\ (forall k, infos_of k (concat tree) <> [] ->
        In (k, infos_of k (concat tree)) (_selected_tables tree))
  /\ total_relations (_selected_tables tree)
     = length (List.filter selectable (concat tree)).
Proof.
  rewrite selected_tables_flat.
  destruct (fold_select_spec (concat tree) []) as [G [N [F T]]].
  specialize (N (List.NoDup_nil _)). specialize (F (List.Forall_nil _)).
  split; [exact N|]. split; [|split].
  - intros k l Hin. rewrite List.Forall_forall in F.
    destruct (F _ Hin) as [Hk Hl]. cbn [fst snd] in *.
    split; [intros ->; discriminate|]. split; [exact Hl|].
    rewrite <- (sel_get_in k l _ N Hin). rewrite G. reflexivity.
  - intros k Hk. specialize (G k). cbn [sel_get List.find app] in G.
    rewrite <- G. apply sel_get_found. rewrite G. exact Hk.
  - rewrite T. reflexivity.
Qed.

Lemma infos_of_in (k : string) (items : list TreeItem) (t : TableInfo) :
  In t (infos_of k items) ->
  exists ci, In ci items /\ selectable ci = true /\ item_info ci = Some t
             /\ item_schema ci = Some k.
Proof.
  induction items as [|ci items IH]; [intros []|].
  rewrite infos_of_cons. intros H. apply in_app_or in H as [H|H].
  - destruct (selectable ci) eqn:Es; [|destruct H].
    destruct (item_schema ci) as [s|] eqn:E1; [|destruct H].
    destruct (item_info ci) as [i|] eqn:E2; [|destruct H].
    destruct (String.eqb s k) eqn:E3; [|destruct H].
    destruct H as [<-|[]]. apply String.eqb_eq in E3. subst s.
    exists ci. split; [left; reflexivity|auto].
  - destruct (IH H) as [ci' [Hin R]]. exists ci'. split; [right; exact Hin|exact R].
Qed.

(** X14. After "spatial only", every relation of the selection has a
    geometry column, whatever was checked before. *)
Theorem spatial_only_selects_spatial (tree : Tree) (k : string)
    (l : list TableInfo) (t : TableInfo) :
  In (k, l) (_selected_tables (_check_spatial_only tree)) -> In t l ->
  opt_truthy (geom_column t) = true.
Proof.
  intros Hin Ht. rewrite selected_tables_flat in Hin.
  destruct (fold_select_spec (concat (_check_spatial_only tree)) []) as [G [N _]].
  specialize (N (List.NoDup_nil _)).
  rewrite <- (sel_get_in k l _ N Hin), G in Ht. cbn [sel_get List.find app] in Ht.
  apply infos_of_in in Ht as [ci [Hci [Hs [Hi _]]]].
  apply in_concat in Hci as [children [Hch Hci]].
  unfold _check_spatial_only in Hch. apply in_map_iff in Hch as [children0 [<- _]].
  apply in_map_iff in Hci as [ci0 [<- _]].
  unfold selectable in Hs. cbn [item_checked item_info item_schema] in *.
  rewrite Hi in Hs. apply andb_true_iff in Hs as [Hs _]. exact Hs.
Qed.

Lemma dict_append_absent (s : string) (i : TableInfo) (d : Selection) :
  ~ In s (List.map fst d) -> dict_append s i d = (d ++ [(s, [i])])%list.
Proof.
  induction d as [|[k0 v] d IH]; cbn [dict_append List.map fst In app]; [reflexivity|].
  intros H. destruct (String.eqb k0 s) eqn:E.
  - apply String.eqb_eq in E. tauto.
  - rewrite IH by tauto. reflexivity.
Qed.

Lemma dict_append_last (s : string) (i : TableInfo) (d : Selection)
    (l : list TableInfo) :
  ~ In s (List.map fst d) ->
  dict_append s i (d ++ [(s, l)])%list = (d ++ [(s, (l ++ [i])%list)])%list.
Proof.
  induction d as [|[k0 v] d IH]; cbn [dict_append List.map fst In app].
  - rewrite String.eqb_refl. reflexivity.
  - intros H. destruct (String.eqb k0 s) eqn:E.
    + apply String.eqb_eq in E. tauto.
    + rewrite IH by tauto. reflexivity.
Qed.

Lemma dict_set_absent (s : string) (v : list TableInfo) (d : Selection) :
  ~ In s (List.map fst d) -> dict_set s v d = (d ++ [(s, v)])%list.
Proof.
  induction d as [|[k0 v0] d IH]; cbn [dict_set List.map fst In app]; [reflexivity|].
  intros H. destruct (String.eqb k0 s) eqn:E.
  - apply String.eqb_eq in E. tauto.
  - rewrite IH by tauto. reflexivity.
Qed.

Lemma fold_children_last (s : string) (tables l : list TableInfo) (d : Selection) :
  Py.truthy s = true -> ~ In s (List.map fst d) ->
  fold_left (fun r ci => select_item ci r) (tree_children s tables) (d ++ [(s, l)])%list
  = (d ++ [(s, (l ++ tables)%list)])%list.
Proof.
  intros Hs Hd. revert l. induction tables as [|t tables IH]; intros l.
  - cbn. rewrite app_nil_r. reflexivity.
  - cbn [tree_children List.map fold_left]. unfold select_item at 2.
    cbn [item_checked item_schema item_info]. rewrite Hs.
    rewrite dict_append_last by exact Hd. fold (tree_children s tables).
    rewrite IH, <- List.app_assoc. reflexivity.
Qed.

Lemma fold_children (s : string) (t : TableInfo) (tables : list TableInfo)
    (d : Selection) :
  Py.truthy s = true -> ~ In s (List.map fst d) ->
  fold_left (fun r ci => select_item ci r) (tree_children s (t :: tables)) d
  = (d ++ [(s, t :: tables)])%list.
Proof.
  intros Hs Hd. cbn [tree_children List.map fold_left]. unfold select_item at 2.
  cbn [item_checked item_schema item_info]. rewrite Hs.
  rewrite dict_append_absent by exact Hd. fold (tree_children s tables).
  apply (fold_children_last s tables [t] d Hs Hd).
Qed.

Lemma total_relations_app (d1 d2 : Selection) :
  total_relations (d1 ++ d2)%list = (total_relations d1 + total_relations d2)%nat.
Proof.
  unfold total_relations. induction d1 as [|kv d1 IH]; [reflexivity|].
  cbn [app List.map]. rewrite !list_sum_cons, IH. lia.
Qed.

Section LoadFacts.

Variable tables_of : string -> string + list TableInfo.

Lemma load_schemas_selected (schemas : list string) (st : Loaded) :
  List.NoDup schemas -> (forall s, In s schemas -> s <> "") ->
  (forall s, In s schemas -> ~ In s (List.map fst (ld_all_tables st))) ->
  _selected_tables (ld_tree st) = ld_all_tables st ->
  ld_n st = total_relations (ld_all_tables st) ->
  let st' := (load_schemas tables_of schemas st).1 in
  _selected_tables (ld_tree st') = ld_all_tables st'
  /\ ld_n st' = total_relations (ld_all_tables st').
Proof.
  cbn zeta. revert st. induction schemas as [|s schemas IH]; intros st Hn Hs Hk Hsel Hcount.
  - cbn. auto.
  - cbn [load_schemas]. apply List.NoDup_cons_iff in Hn as [Hns Hn].
    destruct (tables_of s) as [e|[|t tables]]; [cbn; auto| |].
    + apply IH; auto. intros; apply Hs; right; assumption.
      intros; apply Hk; right; assumption.
    + assert (Hd : ~ In s (List.map fst (ld_all_tables st))) by (apply Hk; left; reflexivity).
      assert (Ht : Py.truthy s = true).
      { destruct s; [exfalso; apply (Hs ""); [left|]; reflexivity|reflexivity]. }
      apply IH; cbn [ld_tree ld_all_tables ld_n]; auto.
      * intros; apply Hs; right; assumption.
      * intros s' Hin. rewrite dict_set_absent by exact Hd.
        rewrite List.map_app, in_app_iff. cbn [List.map fst In].
        intros [H|[H|[]]]; [revert H; apply Hk; right; exact Hin|].
        subst s'. contradiction.
      * rewrite selected_tables_flat, concat_app, fold_left_app.
        rewrite <- selected_tables_flat, Hsel. cbn [concat]. rewrite app_nil_r.
        rewrite fold_children by assumption.
        rewrite dict_set_absent by exact Hd. reflexivity.
      * rewrite dict_set_absent by exact Hd. rewrite total_relations_app, Hcount.
        assert (total_relations [(s, t :: tables)] = length (t :: tables)) as ->
          by (unfold total_relations; cbn; lia).
        reflexivity.
Qed.

(** X15. Right after the tables are loaded, with schema names that are
    distinct and not empty, the selection is exactly what was loaded:
    every schema that has tables, with all of them, in the order of the
    schemas; and the count shown is the number of relations selected.
    This holds also for what was loaded before a failure. *)
Theorem loaded_tree_all_selected (schemas : list string) :
  List.NoDup schemas -> (forall s, In s schemas -> s <> "") ->
  _selected_tables (ld_tree (_load_all tables_of schemas).1)
  = ld_all_tables (_load_all tables_of schemas).1
  /\ ld_n (_load_all tables_of schemas).1
     = total_relations (_selected_tables (ld_tree (_load_all tables_of schemas).1)).
Proof.
  intros Hn Hs. unfold _load_all.
  destruct (load_schemas_selected schemas (mkLoaded [] [] 0) Hn Hs) as [A B];
    [intros s _ []|reflexivity|reflexivity|].
  split; [exact A|]. rewrite A. exact B.
Qed.

End LoadFacts.

(** ** The single container *)





(** ** The clean-up of the rewriter *)

Lemma iter_self (e : Element) : In e (iter e).
Proof. destruct e; left; reflexivity. Qed.

Lemma iter_unfold (e : Element) : iter e = e :: flat_map iter (e_children e).
Proof. destruct e; reflexivity. Qed.

Lemma keep_from (c : Element) (cs : list Element) :
  In c (keep cs) ->
  exists c0, In c0 cs /\ c = remove_projectstorage c0 /\ e_tag c0 <> "projectstorage".
Proof.
  induction cs as [|d cs IH]; cbn [keep]; [intros []|].
  destruct (String.eqb (e_tag d) "projectstorage") eqn:E.
  - intros H. destruct (IH H) as [c0 [H1 H2]]. exists c0. split; [right; exact H1|exact H2].
  - intros [<-|H].
    + exists d. split; [left; reflexivity|]. split; [reflexivity|].
      apply String.eqb_neq, E.
    + destruct (IH H) as [c0 [H1 H2]]. exists c0. split; [right; exact H1|exact H2].
Qed.

Lemma no_storage_after_removal (e p c : Element) :
  In p (iter (remove_projectstorage e)) -> In c (e_children p) ->
  e_tag c <> "projectstorage".
Proof.
  revert p c. induction e as [t a x cs tl IH] using Element_ind_nested. intros p c.
  change (remove_projectstorage (Elem t a x cs tl)) with (Elem t a x (keep cs) tl).
  cbn [iter]. intros [<-|Hp] Hc.
  - cbn [e_children] in Hc. apply keep_from in Hc as [c0 [_ [-> Hc]]].
    rewrite RP_tag. exact Hc.
  - apply in_flat_map in Hp as [d [Hd Hp]].
    apply keep_from in Hd as [c0 [Hc0 [-> _]]].
    rewrite List.Forall_forall in IH. exact (IH c0 Hc0 p c Hp Hc).
Qed.

Lemma iter_blank_home_paths (e : Element) :
  iter (blank_home_paths e) = List.map blank_home_paths (iter e).
Proof.
  induction e as [t a x cs tl IH] using Element_ind_nested.
  cbn [blank_home_paths iter List.map]. f_equal.
  induction IH as [|c cs Hc _ IHcs]; [reflexivity|].
  cbn [List.map flat_map]. rewrite List.map_app, Hc, IHcs. reflexivity.
Qed.

Lemma BH_children (e : Element) :
  e_children (blank_home_paths e) = List.map blank_home_paths (e_children e).
Proof. destruct e; reflexivity. Qed.

Lemma default_projectname_tag (e : Element) : e_tag (default_projectname e) = e_tag e.
Proof. destruct e as [t a x cs tl]. cbn. destruct (String.eqb t "qgis"); reflexivity. Qed.

Lemma default_projectname_children (e : Element) :
  e_children (default_projectname e) = e_children e.
Proof. destruct e as [t a x cs tl]. cbn. destruct (String.eqb t "qgis"); reflexivity. Qed.

Lemma iter_default_projectname (e : Element) :
  iter (default_projectname e)
  = default_projectname e :: flat_map iter (e_children e).
Proof. rewrite iter_unfold, default_projectname_children. reflexivity. Qed.

Lemma rewrite_tree_passes (root : Element)
    (schema_gpkg_map : option (gmap string string))
    (table_gpkg_map : option (gmap (string * string) string))
    (layer_prefix_map : option (gmap string string)) :
  (rewrite_tree root schema_gpkg_map table_gpkg_map layer_prefix_map).1
  = blank_home_paths (default_projectname (remove_projectstorage
      (rewrite_layers_tree (default ∅ schema_gpkg_map) (default ∅ table_gpkg_map)
         layer_prefix_map root))).
Proof.
  unfold rewrite_tree.
  pose proof (rewrite_layers_fst (default ∅ schema_gpkg_map) (default ∅ table_gpkg_map)
                layer_prefix_map root (mkRwState 0 0 [])) as Hfst.
  destruct (rewrite_layers _ _ _ root _) as [root1 st].
  cbn [fst] in *. subst root1. reflexivity.
Qed.

(** X17. In the tree handed to the serialiser no element has a child
    tagged [projectstorage], at any depth. *)
Theorem no_projectstorage_left (root : Element)
    (schema_gpkg_map : option (gmap string string))
    (table_gpkg_map : option (gmap (string * string) string))
    (layer_prefix_map : option (gmap string string)) (p c : Element) :
  In p (iter (rewrite_tree root schema_gpkg_map table_gpkg_map layer_prefix_map).1) ->
  In c (e_children p) -> String.eqb (e_tag c) "projectstorage" = false.
Proof.
  rewrite rewrite_tree_passes, iter_blank_home_paths.
  intros Hp Hc. apply String.eqb_neq. apply in_map_iff in Hp as [p0 [<- Hp0]].
  rewrite BH_children in Hc. apply in_map_iff in Hc as [c0 [<- Hc0]].
  rewrite BH_tag. rewrite iter_default_projectname in Hp0.
  destruct Hp0 as [<-|Hp0].
  - rewrite default_projectname_children in Hc0.
    eapply no_storage_after_removal; [apply iter_self|exact Hc0].
  - eapply no_storage_after_removal; [|exact Hc0].
    rewrite iter_unfold. right. exact Hp0.
Qed.

Lemma attr_get_set (a : list (string * string)) (k v d : string) :
  attr_get (attr_set a k v) k d = v.
Proof.
  induction a as [|[k' v'] a IH]; cbn [attr_set attr_get].
  - rewrite String.eqb_refl. reflexivity.
  - destruct (String.eqb k' k) eqn:E; cbn [attr_get]; rewrite E; [reflexivity|exact IH].
Qed.

(** X18. In the tree handed to the serialiser no [homePath] element has
    a [path] that mentions "postgresql" or "dbname=", in any case. *)
Theorem home_paths_blanked (root : Element)
    (schema_gpkg_map : option (gmap string string))
    (table_gpkg_map : option (gmap (string * string) string))
    (layer_prefix_map : option (gmap string string)) (hp : Element) :
  In hp (iter (rewrite_tree root schema_gpkg_map table_gpkg_map layer_prefix_map).1) ->
  e_tag hp = "homePath" ->
  Py.contains (Py.lower (attr_get (e_attrib hp) "path" "")) "postgresql" = false
  /\ Py.contains (Py.lower (attr_get (e_attrib hp) "path" "")) "dbname=" = false.
Proof.
  rewrite rewrite_tree_passes, iter_blank_home_paths.
  intros Hp Ht. apply in_map_iff in Hp as [[t a x cs tl] [<- _]].
  cbn [blank_home_paths e_tag e_attrib] in *. subst t.
  cbn [String.eqb Ascii.eqb Bool.eqb]. cbv beta iota.
  destruct (Py.contains (Py.lower (attr_get a "path" "")) "postgresql") eqn:E1.
  { cbn [orb]. rewrite attr_get_set. split; reflexivity. }
  destruct (Py.contains (Py.lower (attr_get a "path" "")) "dbname=") eqn:E2.
  { cbn [orb]. rewrite attr_get_set. split; reflexivity. }
  cbn [orb]. rewrite E1, E2. split; reflexivity.
Qed.

Lemma attr_get_absent (a : list (string * string)) (k d : string) :
  attr_has a k = false -> attr_get a k d = d.
Proof.
  unfold attr_has. induction a as [|[k' v'] a IH]; cbn [existsb attr_get fst]; [reflexivity|].
  destruct (String.eqb k' k); [discriminate|exact IH].
Qed.

Lemma attr_get_app_absent (a b : list (string * string)) (k d : string) :
  attr_has a k = false -> attr_get (a ++ b)%list k d = attr_get b k d.
Proof.
  unfold attr_has. induction a as [|[k' v'] a IH]; cbn [existsb attr_get fst app]; [reflexivity|].
  destruct (String.eqb k' k); [discriminate|exact IH].
Qed.

(** X19. When the root is a [qgis] element, the tree handed to the
    serialiser has a [projectname] on its root: the one of the document
    if it has one, the empty name otherwise. *)
Theorem projectname_present (root : Element)
    (schema_gpkg_map : option (gmap string string))
    (table_gpkg_map : option (gmap (string * string) string))
    (layer_prefix_map : option (gmap string string)) :
  e_tag root = "qgis" ->
  attr_has
    (e_attrib (rewrite_tree root schema_gpkg_map table_gpkg_map layer_prefix_map).1)
    "projectname" = true
  /\ attr_get
       (e_attrib (rewrite_tree root schema_gpkg_map table_gpkg_map layer_prefix_map).1)
       "projectname" ""
     = attr_get (e_attrib root) "projectname" "".
Proof.
  rewrite rewrite_tree_passes. destruct root as [t a x cs tl]. cbn [e_tag]. intros ->.
  cbn [rewrite_layers_tree remove_projectstorage default_projectname blank_home_paths
       String.eqb Ascii.eqb Bool.eqb e_attrib]. cbv beta iota.
  unfold attr_setdefault. destruct (attr_has a "projectname") eqn:E.
  - split; [exact E|reflexivity].
  - split.
    + unfold attr_has. rewrite existsb_app. cbn. apply orb_true_r.
    + rewrite attr_get_app_absent by exact E. rewrite (attr_get_absent a) by exact E.
      reflexivity.
Qed.

(** ** The layer loop of the rewriter *)

Lemma forget_set_child_text (tag x : string) (cs : list Element) :
  tag = "provider" \/ tag = "datasource" ->
  List.map forget_layer_texts (set_child_text tag x cs) = List.map forget_layer_texts cs.
Proof.
  intros Ht. induction cs as [|c cs IH]; [reflexivity|]. cbn [set_child_text].
  destruct (String.eqb (e_tag c) tag) eqn:E; cbn [List.map]; [|rewrite IH; reflexivity].
  f_equal. apply String.eqb_eq in E. destruct c as [t a y cs' tl]. cbn in E. subst t.
  cbn [set_text forget_layer_texts].
  destruct Ht as [->| ->]; reflexivity.
Qed.

Lemma forget_apply_rewrite (upd : option string) (cs : list Element) :
  List.map forget_layer_texts (apply_rewrite upd cs) = List.map forget_layer_texts cs.
Proof.
  destruct upd as [new_ds|]; [|reflexivity]. cbn [apply_rewrite].
  rewrite !forget_set_child_text by auto. reflexivity.
Qed.

Section LayerLoopFacts.

Variable schema_gpkg_map : gmap string string.
Variable table_gpkg_map : gmap (string * string) string.
Variable layer_prefix_map : option (gmap string string).

Lemma forget_rewrite_layers_tree (e : Element) :
  forget_layer_texts (rewrite_layers_tree schema_gpkg_map table_gpkg_map layer_prefix_map e)
  = forget_layer_texts e.
Proof.
  induction e as [t a x cs tl IH] using Element_ind_nested.
  cbn [rewrite_layers_tree forget_layer_texts]. f_equal.
  rewrite forget_apply_rewrite.
  induction IH as [|c cs Hc _ IHcs]; [reflexivity|].
  cbn [List.map]. rewrite Hc, IHcs. reflexivity.
Qed.

(** X20. The layer loop changes nothing but the text of [provider] and
    [datasource] elements: with those texts forgotten, the tree after
    the loop is the tree before, element for element, with the same
    tags, attributes, other texts, tails and order. *)
Theorem layer_loop_keeps_structure (root : Element) (st : RwState) :
  forget_layer_texts
    (rewrite_layers schema_gpkg_map table_gpkg_map layer_prefix_map root st).1
  = forget_layer_texts root.
Proof. rewrite rewrite_layers_fst. apply forget_rewrite_layers_tree. Qed.

Lemma logged_refl (st : RwState) : logged st st [].
Proof. unfold logged. cbn. rewrite app_nil_r. split; [reflexivity|split; lia]. Qed.

Lemma logged_trans (st1 st2 st3 : RwState) (m1 m2 : list LogEntry) :
  logged st1 st2 m1 -> logged st2 st3 m2 -> logged st1 st3 (m1 ++ m2)%list.
Proof.
  unfold logged, at_level. intros [A1 [A2 A3]] [B1 [B2 B3]].
  rewrite !List.filter_app, !List.length_app, B1, B2, B3, A1, A2, A3, List.app_assoc.
  split; [reflexivity|split; rewrite <- Nat.add_assoc; reflexivity].
Qed.

Lemma logged_skip (msg : string) (st : RwState) :
  logged st (rw_skip msg st) [(Warning, msg)].
Proof. unfold logged, rw_skip. cbn. split; [reflexivity|split; lia]. Qed.

Lemma logged_done (msg : string) (st : RwState) :
  logged st (rw_done msg st) [(Info, msg)].
Proof. unfold logged, rw_done. cbn. split; [reflexivity|split; lia]. Qed.

Lemma visit_maplayer_logged (cs : list Element) (st : RwState) :
  exists msgs,
    logged st (visit_maplayer schema_gpkg_map table_gpkg_map layer_prefix_map cs st).2 msgs
    /\ (length msgs <= 1)%nat.
Proof.
  unfold visit_maplayer.
  destruct (find_child "provider" cs), (find_child "datasource" cs);
    try (exists []; split; [apply logged_refl|cbn; lia]).
  destruct (e_text _); [|exists []; split; [apply logged_refl|cbn; lia]].
  destruct (negb _); [exists []; split; [apply logged_refl|cbn; lia]|].
  destruct (parse_datasource _) as [[sn|] [tn|]];
    try (eexists; split; [apply logged_skip|cbn; lia]).
  destruct (_ && _); [|eexists; split; [apply logged_skip|cbn; lia]].
  destruct (resolve_gpkg _ _ _ _ _) as [[p|] n];
    [|eexists; split; [apply logged_skip|cbn; lia]].
  destruct (Py.truthy p); eexists; (split; [first [apply logged_done|apply logged_skip]|cbn; lia]).
Qed.

Lemma layer_count_unfold (t : string) (a : list (string * string)) (x : option string)
    (cs : list Element) (tl : option string) :
  layer_count (Elem t a x cs tl)
  = ((if String.eqb t "maplayer" then 1 else 0)
     + list_sum (List.map layer_count cs))%nat.
Proof.
  unfold layer_count. cbn [iter List.filter e_tag].
  assert (H : length (List.filter (fun e => String.eqb (e_tag e) "maplayer")
                        (flat_map iter cs))
              = list_sum (List.map
                   (fun root => length (List.filter
                      (fun e => String.eqb (e_tag e) "maplayer") (iter root))) cs)).
  { induction cs as [|c cs IH]; [reflexivity|].
    cbn [flat_map List.map]. rewrite List.filter_app, List.length_app, list_sum_cons, IH.
    reflexivity. }
  destruct (String.eqb t "maplayer"); cbn [length]; rewrite H; reflexivity.
Qed.

Lemma rewrite_layers_logged (e : Element) (st : RwState) :
  exists msgs,
    logged st (rewrite_layers schema_gpkg_map table_gpkg_map layer_prefix_map e st).2 msgs
    /\ (length msgs <= layer_count e)%nat.
Proof.
  revert st. induction e as [t a x cs tl IH] using Element_ind_nested. intros st.
  rewrite layer_count_unfold. cbn [rewrite_layers].
  set (walk := fix walk (l : list Element) (s : RwState) {struct l} :
                 list Element * RwState :=
                 match l with
                 | [] => ([], s)
                 | c :: l' =>
                     let '(c', s1) :=
                       rewrite_layers schema_gpkg_map table_gpkg_map layer_prefix_map c s in
                     let '(r, s2) := walk l' s1 in (c' :: r, s2)
                 end).
  assert (Hwalk : forall s, exists msgs,
             logged s (walk cs s).2 msgs
             /\ (length msgs <= list_sum (List.map layer_count cs))%nat).
  { induction IH as [|c cs Hc _ IHcs]; intros s.
    - exists []. split; [apply logged_refl|cbn; lia].
    - cbn [walk List.map]. fold walk. rewrite list_sum_cons.
      destruct (Hc s) as [m1 [L1 N1]].
      destruct (rewrite_layers schema_gpkg_map table_gpkg_map layer_prefix_map c s)
        as [c' s1].
      destruct (IHcs s1) as [m2 [L2 N2]]. destruct (walk cs s1) as [r s2].
      cbn [snd] in *. exists (m1 ++ m2)%list.
      split; [eapply logged_trans; eassumption|rewrite List.length_app; lia]. }
  destruct (String.eqb t "maplayer").
  - destruct (visit_maplayer_logged cs st) as [m1 [L1 N1]].
    destruct (visit_maplayer schema_gpkg_map table_gpkg_map layer_prefix_map cs st)
      as [upd st1].
    destruct (Hwalk st1) as [m2 [L2 N2]]. destruct (walk cs st1) as [cs' st2].
    cbn [snd] in *. exists (m1 ++ m2)%list.
    split; [eapply logged_trans; eassumption|rewrite List.length_app; lia].
  - destruct (Hwalk st) as [m2 [L2 N2]]. destruct (walk cs st) as [cs' st2].
    cbn [snd] in *. exists m2. split; [exact L2|lia].
Qed.

End LayerLoopFacts.

(** X21. The messages of the rewriter are one message at most for each
    [maplayer] element, then the summary; the two numbers of the summary
    are the number of informations and the number of warnings logged
    before it, that is, of layers rewritten and of layers skipped. *)
Theorem rewrite_log_summary (root : Element)
    (schema_gpkg_map : option (gmap string string))
    (table_gpkg_map : option (gmap (string * string) string))
    (layer_prefix_map : option (gmap string string)) :
  exists msgs,
    (rewrite_tree root schema_gpkg_map table_gpkg_map layer_prefix_map).2
    = (msgs ++ [(Info, "Rewrite: " +:+ show_nat (length (at_level Info msgs))
                       +:+ " rewritten, "
                       +:+ show_nat (length (at_level Warning msgs))
                       +:+ " skipped")])%list
    /\ (length msgs <= layer_count root)%nat.
Proof.
  unfold rewrite_tree.
  destruct (rewrite_layers_logged (default ∅ schema_gpkg_map) (default ∅ table_gpkg_map)
              layer_prefix_map root (mkRwState 0 0 [])) as [msgs [[L1 [L2 L3]] N]].
  destruct (rewrite_layers _ _ _ root _) as [root1 st].
  cbn [fst snd messages rewritten skipped app] in *.
  exists msgs. split; [|exact N]. rewrite L1, L2, L3. reflexivity.
Qed.

(** ** The names read from a data source *)

Lemma after_literal_app (a b s : string) :
  Re.after_literal (a +:+ b) s
  = match Re.after_literal a s with
    | Some s' => Re.after_literal b s'
    | None => None
    end.
Proof.
  revert s. induction a as [|x a IH]; intros s.
  - rewrite sapp_empty_l. reflexivity.
  - rewrite sapp_cons. destruct s as [|y s]; cbn [Re.after_literal]; [reflexivity|].
    destruct (Ascii.eqb x y); [apply IH|reflexivity].
Qed.

Lemma after_literal_self (l r : string) : Re.after_literal l (l +:+ r) = Some r.
Proof.
  induction l as [|x l IH]; [rewrite sapp_empty_l; destruct r; reflexivity|].
  rewrite sapp_cons. cbn [Re.after_literal]. rewrite Ascii.eqb_refl. exact IH.
Qed.

Lemma after_literal_prefix (l s : string) :
  String.prefix l s = false -> Re.after_literal l s = None.
Proof.
  revert s. induction l as [|x l IH]; intros s; [destruct s; discriminate|].
  destruct s as [|y s]; cbn [String.prefix Re.after_literal]; [reflexivity|].
  destruct (ascii_dec x y) as [->|Hne].
  - rewrite Ascii.eqb_refl. apply IH.
  - intros _. apply Ascii.eqb_neq in Hne. rewrite Hne. reflexivity.
Qed.

(** A pattern that starts with a literal finds nothing in a text that
    does not hold the beginning of the literal. *)
Lemma search_absent (l x : string) (p : Re.pattern) (s : string) :
  Py.contains s l = false -> Re.search (Re.Lit (l +:+ x) :: p) s = None.
Proof.
  induction s as [|c s IH]; cbn [Py.contains Re.search Re.match_here].
  - destruct (String.prefix l "") eqn:E; [discriminate|]. intros _.
    rewrite after_literal_app, (after_literal_prefix _ _ E). reflexivity.
  - destruct (String.prefix l (String c s)) eqn:E; [discriminate|]. intros H.
    rewrite after_literal_app, (after_literal_prefix _ _ E). apply IH, H.
Qed.

Lemma first_match_schema_absent (text : string) :
  Py.contains text "schema=" = false -> first_match schema_patterns text = None.
Proof.
  intros H. unfold schema_patterns, lit_then. cbn [first_match].
  rewrite !search_absent by exact H.
  rewrite <- (sapp_empty_r "schema="). rewrite search_absent by exact H. reflexivity.
Qed.

Lemma first_match_table_absent (text : string) :
  Py.contains text "table=" = false -> first_match table_patterns text = None.
Proof.
  intros H. unfold table_patterns, lit_then. cbn [first_match].
  rewrite !search_absent by exact H. reflexivity.
Qed.

(** X29. A data source that does not hold "table=" gives no table
    name, and a layer with such a data source is never rewritten,
    whatever the assignments. *)
Theorem layer_without_table_not_rewritten
    (schema_gpkg_map : gmap string string)
    (table_gpkg_map : gmap (string * string) string)
    (layer_prefix_map : option (gmap string string))
    (cs : list Element) (ds : Element) (ds_text : string) (st : RwState) :
  find_child "datasource" cs = Some ds -> e_text ds = Some ds_text ->
  Py.contains ds_text "table=" = false ->
  (parse_datasource ds_text).2 = None
  /\ (visit_maplayer schema_gpkg_map table_gpkg_map layer_prefix_map cs st).1 = None.
Proof.
  intros Hd Ht H.
  assert (Hp : (parse_datasource ds_text).2 = None).
  { unfold parse_datasource. rewrite (first_match_table_absent _ H). reflexivity. }
  split; [exact Hp|].
  unfold visit_maplayer. rewrite Hd.
  destruct (find_child "provider" cs) as [prov|]; [|reflexivity].
  rewrite Ht. destruct (negb _); [reflexivity|].
  destruct (parse_datasource ds_text) as [[sn|] [tn|]]; cbn [snd] in Hp;
    try discriminate; reflexivity.
Qed.

Lemma all_chars_app (cls : ascii -> bool) (a b : string) :
  all_chars cls (a +:+ b) = all_chars cls a && all_chars cls b.
Proof.
  induction a as [|x a IH]; [rewrite sapp_empty_l; reflexivity|].
  rewrite sapp_cons. cbn [all_chars]. rewrite IH, andb_assoc. reflexivity.
Qed.

(** The greedy repetition takes the whole run when what follows the run
    can be matched. *)
Lemma repeat_class_max {R : Type} (cls : ascii -> bool) (body : string) :
  forall (taken rest : string) (k : string -> string -> option R) (r : R),
    all_chars cls body = true ->
    match rest with String c _ => cls c = false | EmptyString => True end ->
    k (taken +:+ body) rest = Some r ->
    Re.repeat_class cls taken (body +:+ rest) k = Some r.
Proof.
  induction body as [|b body IH]; intros taken rest k r Hb Hr Hk.
  - rewrite sapp_empty_l. rewrite sapp_empty_r in Hk.
    destruct rest as [|c rest]; cbn [Re.repeat_class]; [exact Hk|].
    rewrite Hr. exact Hk.
  - rewrite sapp_cons. cbn [Re.repeat_class]. cbn [all_chars] in Hb.
    apply andb_prop in Hb as [Hb1 Hb2]. rewrite Hb1.
    rewrite (IH (taken +:+ String b "") rest k r Hb2 Hr); [reflexivity|].
    rewrite sapp_assoc, sapp_cons, sapp_empty_l. exact Hk.
Qed.

(** A literal closed by the character [q] is matched at the first [q]
    or not at all. *)
Lemma literal_at_first (q : ascii) (l : string) :
  forall (y rest r : string),
    all_chars (Re.not_char q) l = true -> all_chars (Re.not_char q) y = true ->
    Re.after_literal (l +:+ String q "") (y +:+ String q rest) = Some r -> y = l.
Proof.
  induction l as [|a l IH]; intros y rest r Hl Hy H.
  - rewrite sapp_empty_l in H. destruct y as [|c y]; [reflexivity|].
    rewrite sapp_cons in H. cbn [Re.after_literal] in H.
    cbn [all_chars] in Hy. apply andb_prop in Hy as [Hc _].
    unfold Re.not_char in Hc. rewrite Ascii.eqb_sym in H.
    destruct (Ascii.eqb c q); discriminate.
  - rewrite sapp_cons in H. cbn [all_chars] in Hl. apply andb_prop in Hl as [Ha Hl].
    destruct y as [|c y].
    + rewrite sapp_empty_l in H. cbn [Re.after_literal] in H.
      unfold Re.not_char in Ha. destruct (Ascii.eqb a q); discriminate.
    + rewrite sapp_cons in H. cbn [Re.after_literal] in H.
      cbn [all_chars] in Hy. apply andb_prop in Hy as [_ Hy].
      destruct (Ascii.eqb a c) eqn:E; [|discriminate].
      apply Ascii.eqb_eq in E. subst c. f_equal. exact (IH y rest r Hl Hy H).
Qed.

Lemma search_first_literal (q : ascii) (l : string) (p : Re.pattern)
    (pre rest : string) (gs : list string) :
  all_chars (Re.not_char q) l = true -> all_chars (Re.not_char q) pre = true ->
  Re.match_here (Re.Lit (l +:+ String q "") :: p) (l +:+ String q rest) = Some gs ->
  Re.search (Re.Lit (l +:+ String q "") :: p) (pre +:+ l +:+ String q rest) = Some gs.
Proof.
  intros Hl Hpre Hm. induction pre as [|c pre IH].
  - rewrite sapp_empty_l. destruct (l +:+ String q rest); cbn [Re.search]; rewrite Hm;
      reflexivity.
  - cbn [all_chars] in Hpre. apply andb_prop in Hpre as [Hc Hpre'].
    rewrite sapp_cons. cbn [Re.search].
    assert (Hnone : Re.match_here (Re.Lit (l +:+ String q "") :: p)
                      (String c (pre +:+ l +:+ String q rest)) = None).
    { cbn [Re.match_here].
      destruct (Re.after_literal (l +:+ String q "") (String c (pre +:+ l +:+ String q rest)))
        as [r|] eqn:E; [exfalso|reflexivity].
      rewrite <- sapp_cons, <- sapp_assoc in E.
      apply literal_at_first in E; [|exact Hl|].
      - apply (f_equal String.length) in E. rewrite slength_app in E. cbn in E. lia.
      - rewrite all_chars_app. cbn [all_chars]. rewrite Hc, Hpre', Hl. reflexivity. }
    rewrite Hnone. apply IH, Hpre'.
Qed.

(** X30. The table reference that QGIS writes is read back: when the
    text before it holds no double quote, the two names hold none, and
    the data source has no "schema=", the names read are the schema and
    the table of the reference. *)
Theorem table_reference_read_back (pre schema_name table_name rest : string) :
  all_chars (Re.not_char dquote) pre = true ->
  all_chars (Re.not_char dquote) schema_name = true ->
  all_chars (Re.not_char dquote) table_name = true ->
  Py.contains (pre +:+ table_reference schema_name table_name rest) "schema=" = false ->
  parse_datasource (pre +:+ table_reference schema_name table_name rest)
  = (Some schema_name, Some table_name).
Proof.
  intros Hpre Hs Ht Hno. unfold parse_datasource.
  rewrite (first_match_schema_absent _ Hno). cbn [opt_truthy].
  assert (Hm : first_match table_patterns
                 (pre +:+ table_reference schema_name table_name rest)
               = Some [schema_name; table_name]); [|rewrite Hm; reflexivity].
  unfold table_patterns, table_reference, lit_then, lit_char. cbn [first_match].
  rewrite (search_first_literal dquote "table=" _ pre _ [schema_name; table_name]);
    [reflexivity|reflexivity|exact Hpre|].
  cbn [Re.match_here]. rewrite after_literal_app, after_literal_self.
  cbn [Re.after_literal]. rewrite Ascii.eqb_refl.
  rewrite (repeat_class_max (Re.not_char dquote) schema_name "" _ _
             [schema_name; table_name] Hs); [reflexivity|reflexivity|].
  change ("" +:+ schema_name) with schema_name.
  cbv beta. rewrite ?sapp_empty_l. cbn [Re.match_here Re.after_literal].
  rewrite Ascii.eqb_refl.
  rewrite (repeat_class_max _ "." "" _ _ [table_name]); [reflexivity|reflexivity|reflexivity|].
  cbv beta. rewrite ?sapp_empty_l. cbn [Re.match_here Re.after_literal].
  rewrite Ascii.eqb_refl.
  rewrite (repeat_class_max (Re.not_char dquote) table_name "" _ _ [table_name] Ht);
    [reflexivity|reflexivity|].
  change ("" +:+ table_name) with table_name.
  cbv beta. rewrite ?sapp_empty_l. cbn [Re.match_here Re.after_literal].
  rewrite Ascii.eqb_refl. reflexivity.
Qed.

(** * The further properties at concrete inputs *)

Ltac find_event := vm_compute; repeat (first [left; reflexivity | right]).

(** X2 at the Qt name of "prefer", in capitals and with spaces. *)
Lemma uri_ssl_mode_in_table_witness :
  ssl_map !! normalize_sslmode (Py.Str " PREFER ") = Some 2%nat.
Proof.
  destruct (uri_ssl_mode_in_table (Py.Str " PREFER ")) as (A & _ & _). exact A.
Defined.


(** X4 at an archive that cannot be read: archive, UTF-8, inflate. *)
Lemma decoders_follow_chain_witness :
  (extract_bytes no_names no_member no_bytes no_text demo_archive).2
  = decoder_chain demo_archive.
Proof.
  pose proof (decoders_follow_chain no_names no_member no_bytes no_text demo_archive) as H.
  cbn zeta in H. destruct H as (_ & A & _). apply A. reflexivity.
Defined.

(** X5 at the table without geometry of the example catalog. *)
Lemma listed_tables_from_catalog_witness :
  exists rows, demo_tables "public" = inr rows
               /\ In (table demo_notes, table_type demo_notes) rows.
Proof.
  destruct (listed_tables_from_catalog demo_geometry_columns demo_tables "public"
              [ demo_notes;
                mkTableInfo "roads" (Some "geom") (Some "LINESTRING") 4326 "BASE TABLE";
                mkTableInfo "roads" (Some "centre") (Some "POINT") 4326 "BASE TABLE" ]
              demo_notes eq_refl (or_introl eq_refl)) as [_ A].
  exact A.
Defined.

(** X6 at the table with two geometry columns. *)
Lemma listed_once_per_geometry_witness :
  exists result,
    get_tables_and_views demo_geometry_columns demo_tables "public" = inr result
    /\ entries_of "roads" result
       = [ mkTableInfo "roads" (Some "geom") (Some "LINESTRING") 4326 "BASE TABLE";
           mkTableInfo "roads" (Some "centre") (Some "POINT") 4326 "BASE TABLE" ].
Proof.
  destruct (listed_once_per_geometry demo_geometry_columns demo_tables "public"
              [ mkGeomRow "roads" (Some "geom") (Some "LINESTRING") 4326;
                mkGeomRow "roads" (Some "centre") (Some "POINT") 4326 ]
              [ ("notes", "BASE TABLE"); ("roads", "BASE TABLE");
                ("spatial_ref_sys", "BASE TABLE") ]
              "roads" "BASE TABLE" eq_refl eq_refl) as [result [A B]].
  - repeat (apply List.NoDup_cons; [cbn; intuition discriminate|]). apply List.NoDup_nil.
  - right. left. reflexivity.
  - cbn. intuition discriminate.
  - exists result. split; [exact A|exact B].
Defined.


(** X8 at the storage table of schema "b", which cannot be read. *)
Lemma unreadable_table_passed_over_witness :
  get_qgis_projects_in_db no_names no_member no_bytes no_text demo_columns demo_rows
    (inr [("a", "qgis_projects"); ("b", "qgis_projects"); ("c", "qgis_projects")])
  = get_qgis_projects_in_db no_names no_member no_bytes no_text demo_columns demo_rows
      (inr [("a", "qgis_projects"); ("c", "qgis_projects")]).
Proof.
  apply (unreadable_table_passed_over no_names no_member no_bytes no_text
           demo_columns demo_rows [("a", "qgis_projects")] [("c", "qgis_projects")]
           "b" "qgis_projects").
  left. exists "permission denied". reflexivity.
Defined.

(** X9 at two storage tables. *)
Lemma projects_table_by_table_witness :
  get_qgis_projects_in_db no_names no_member no_bytes no_text demo_columns demo_rows
    (inr [("a", "qgis_projects"); ("c", "qgis_projects")])
  = inr [mkProject "a" "town" "<qgis/>"; mkProject "c" "town" "<qgis/>"].
Proof.
  apply (projects_table_by_table no_names no_member no_bytes no_text
           demo_columns demo_rows [("a", "qgis_projects")] [("c", "qgis_projects")]
           [mkProject "a" "town" "<qgis/>"] [mkProject "c" "town" "<qgis/>"]);
    reflexivity.
Defined.

(** X11 at settings with a user name and no password. *)
Lemma resolve_auth_keeps_rest_witness :
  resolve_auth_params demo_load_auth demo_params !! "host" = demo_params !! "host"
  /\ Py.truthy (dict_get (resolve_auth_params demo_load_auth demo_params) "username")
     = true.
Proof.
  destruct (resolve_auth_keeps_rest demo_load_auth demo_params) as (A & B & _).
  split; [apply A; discriminate|apply B; reflexivity].
Defined.

(** X13 at the example tree: the entry of schema "a". *)
Lemma selection_collects_checked_witness :
  [demo_roads; demo_notes] = infos_of "a" (concat demo_tree)
  /\ total_relations (_selected_tables demo_tree)
     = length (List.filter selectable (concat demo_tree)).
Proof.
  destruct (selection_collects_checked demo_tree) as (_ & A & _ & B).
  split; [|exact B].
  destruct (A "a" [demo_roads; demo_notes]) as (_ & _ & C); [left; reflexivity|exact C].
Defined.

(** X14 at the example tree. *)
Lemma spatial_only_selects_spatial_witness :
  opt_truthy (geom_column demo_roads) = true.
Proof.
  apply (spatial_only_selects_spatial demo_tree "a" [demo_roads] demo_roads);
    left; reflexivity.
Defined.

(** X15 at two schemas, one of them without tables. *)
Lemma loaded_tree_all_selected_witness :
  _selected_tables (ld_tree (_load_all demo_tables_of ["a"; "b"]).1)
  = ld_all_tables (_load_all demo_tables_of ["a"; "b"]).1.
Proof.
  destruct (loaded_tree_all_selected demo_tables_of ["a"; "b"]) as [A _].
  - repeat (apply List.NoDup_cons; [cbn; intuition discriminate|]). apply List.NoDup_nil.
  - intros s [<-|[<-|[]]]; discriminate.
  - exact A.
Defined.

(** X17 at the example: the title is a child of the root that is left. *)
Lemma no_projectstorage_left_witness :
  String.eqb (e_tag (Elem "title" [] (Some "Town") [] None)) "projectstorage" = false.
Proof.
  apply (no_projectstorage_left demo_stored_document None None None
           (Elem "qgis" [("projectname", "")] None
              [ Elem "homePath" [("path", "")] None [] None;
                Elem "title" [] (Some "Town") [] None ] None)
           (Elem "title" [] (Some "Town") [] None)).
  - left. reflexivity.
  - right. left. reflexivity.
Defined.

(** X18 at the example: the home path of the document. *)
Lemma home_paths_blanked_witness :
  Py.contains (Py.lower (attr_get [("path", "")] "path" "")) "postgresql" = false
  /\ Py.contains (Py.lower (attr_get [("path", "")] "path" "")) "dbname=" = false.
Proof.
  apply (home_paths_blanked demo_stored_document None None None
           (Elem "homePath" [("path", "")] None [] None)).
  - right. left. reflexivity.
  - reflexivity.
Defined.

(** X19 at the example, whose root has no project name. *)
Lemma projectname_present_witness :
  attr_has (e_attrib (rewrite_tree demo_stored_document None None None).1) "projectname"
  = true.
Proof.
  destruct (projectname_present demo_stored_document None None None eq_refl) as [A _].
  exact A.
Defined.

(** X23 at a PerSchema run: the first relation handed to the writer. *)
Lemma per_schema_containers_witness :
  In (EvCall "a" demo_roads "/out/a.gpkg" None) (trace (demo_project_run (fun _ _ => true) 0).2)
  /\ "/out/a.gpkg" = os_path_join "/out" ("a" +:+ ".gpkg").
Proof.
  assert (H : In (EvCall "a" demo_roads "/out/a.gpkg" None)
                 (trace (demo_project_run (fun _ _ => true) 0).2)) by find_event.
  split; [exact H|].
  destruct (per_schema_containers None (fun _ _ => true) (fun _ _ _ _ => None) None
              (inr [mkProject "public" "Town.QGZ" "<x/>"]) (fun _ _ => None)
              demo_fromstring demo_tostring demo_selection 0 "/out" "/out/all.gpkg" true
              {["/out/a/roads.gpkg"]} (EvCall "a" demo_roads "/out/a.gpkg" None)
              eq_refl H) as [A _].
  exact A.
Defined.

(** X24 at a PerTable run that finds the container of an earlier run. *)
Lemma per_table_fresh_file_witness :
  In (EvWriteLayer "a" demo_roads "/out/a/roads.gpkg" "roads" CreateOrOverwriteFile)
     (trace (demo_project_run (fun _ _ => true) 2).2)
  /\ "roads" = table demo_roads.
Proof.
  assert (H : In (EvWriteLayer "a" demo_roads "/out/a/roads.gpkg" "roads"
                    CreateOrOverwriteFile)
                 (trace (demo_project_run (fun _ _ => true) 2).2)) by find_event.
  split; [exact H|].
  destruct (per_table_fresh_file None (fun _ _ => true) (fun _ _ _ _ => None) None
              (inr [mkProject "public" "Town.QGZ" "<x/>"]) (fun _ _ => None)
              demo_fromstring demo_tostring demo_selection 2 "/out" "/out/all.gpkg" true
              {["/out/a/roads.gpkg"]} "a" demo_roads "/out/a/roads.gpkg" "roads"
              CreateOrOverwriteFile eq_refl H) as [A _].
  exact A.
Defined.

(** X25 at a run that exports one project. *)
Lemma project_files_written_witness :
  List.map (os_path_join "/out") (res_exported_projects (demo_project_run (fun _ _ => true) 1).1)
  = written_files (trace (demo_project_run (fun _ _ => true) 1).2).
Proof.
  destruct (project_files_written None (fun _ _ => true) (fun _ _ _ _ => None) None
              (inr [mkProject "public" "Town.QGZ" "<x/>"]) (fun _ _ => None)
              demo_fromstring demo_tostring demo_selection 1 "/out" "/out/all.gpkg" true
              {["/out/a/roads.gpkg"]}) as [A _].
  exact A.
Defined.

(** X27 at the progress notification of the project phase. *)
Lemma progress_total_constant_witness :
  In (EvProgress 3 3 "QGIS projects...") (trace (demo_project_run (fun _ _ => true) 0).2)
  /\ 3%nat = total_relations demo_selection.
Proof.
  assert (H : In (EvProgress 3 3 "QGIS projects...")
                 (trace (demo_project_run (fun _ _ => true) 0).2)) by find_event.
  split; [exact H|].
  destruct (progress_total_constant None (fun _ _ => true) (fun _ _ _ _ => None) None
              (inr [mkProject "public" "Town.QGZ" "<x/>"]) (fun _ _ => None)
              demo_fromstring demo_tostring demo_selection 0 "/out" "/out/all.gpkg" true
              {["/out/a/roads.gpkg"]} 3%nat 3%nat "QGIS projects..." H) as [A _].
  exact A.
Defined.

(** X28 at a run in which no layer is valid. *)
Lemma failures_do_not_stop_witness :
  count is_call (trace (demo_project_run (fun _ _ => false) 0).2)
  = total_relations demo_selection.
Proof.
  destruct (failures_do_not_stop None (fun _ _ => false) (fun _ _ _ _ => None) None
              (inr [mkProject "public" "Town.QGZ" "<x/>"]) (fun _ _ => None)
              demo_fromstring demo_tostring demo_selection 0 "/out" "/out/all.gpkg" true
              {["/out/a/roads.gpkg"]}) as [A _].
  - lia.
  - vm_compute. reflexivity.
  - exact A.
Defined.

(** X29 at a layer whose data source names a service and no table. *)
Lemma layer_without_table_not_rewritten_witness :
  (visit_maplayer ∅ ∅ None
     [ Elem "datasource" [] (Some "service='gis' sql=") [] None;
       Elem "provider" [] (Some "postgres") [] None ]
     (mkRwState 0 0 [])).1 = None.
Proof.
  destruct (layer_without_table_not_rewritten ∅ ∅ None
              [ Elem "datasource" [] (Some "service='gis' sql=") [] None;
                Elem "provider" [] (Some "postgres") [] None ]
              (Elem "datasource" [] (Some "service='gis' sql=") [] None)
              "service='gis' sql=" (mkRwState 0 0 []) eq_refl eq_refl eq_refl) as [_ A].
  exact A.
Defined.

(** X30 at a data source as QGIS writes it. *)
Lemma table_reference_read_back_witness :
  parse_datasource
    ("dbname='gis' host=db port=5432 key='id' srid=4326 type=LineString "
     +:+ table_reference "public" "roads" " (geom)")
  = (Some "public", Some "roads").
Proof.
  apply (table_reference_read_back
           "dbname='gis' host=db port=5432 key='id' srid=4326 type=LineString "
           "public" "roads" " (geom)"); reflexivity.
Defined.
